(** * Gmail MCP server and client: a shallow embedding

    The development follows [src/mcp/gmail_server.py] (class
    [GmailMCPServer]) and [src/agents/gmail_client.py] (class
    [GmailMCPClient]).  Python values are modelled as the code uses them:
    a [str] is a sequence of Unicode code points, [bytes] a sequence of
    octets, a [dict] an association list in insertion order, an exception
    a class name with its [str(e)] text.  Calls that leave the process
    (the Gmail API, the OAuth flow, the stdio session) are oracles whose
    outcome is either a value or a raised exception. *)

From Stdlib Require Import List ZArith NArith Bool String Ascii Lia.
From Stdlib Require Decimal DecimalString.
Import ListNotations.

Local Open Scope N_scope.

(** ** Python text *)

Module Text.

(** A Python [str]: its code points, in order. *)
Definition str := list N.

(** A Python [bytes] object: octets, each below 256. *)
Definition bytes := list N.

(** [a == b] *)
Fixpoint str_eqb (a b : str) : bool :=
  match a, b with
  | [], [] => true
  | x :: a', y :: b' => (x =? y) && str_eqb a' b'
  | _, _ => false
  end.

(** The octets of a literal written in this file. *)
Definition octets (s : string) : bytes :=
  map N_of_ascii (list_ascii_of_string s).

(** [IS_CONTINUATION_BYTE] of CPython's UTF-8 codec. *)
Definition is_cont (b : N) : bool := (0x80 <=? b) && (b <=? 0xBF).

(** Why a byte sequence is not UTF-8, as CPython's decoder names it. *)
Inductive utf8_reason := InvalidStart | InvalidContinuation | UnexpectedEnd.

(** A decoding fault: the first offending position, the length of the
    offending range, the byte at that position and the reason. *)
Record utf8_fault := Utf8Fault
  { fault_pos : N; fault_len : N; fault_byte : N; fault_reason : utf8_reason }.

Definition cont_bits (b : N) : N := N.land b 0x3F.

(** The strict UTF-8 decoder of CPython ([bytes.decode('utf-8')]): overlong
    forms, surrogates and code points above U+10FFFF are refused. [pos] is
    the index of the head of [bs] in the whole input. *)
Fixpoint utf8_scan (bs : bytes) (pos : N) : str + utf8_fault :=
  match bs with
  | [] => inl []
  | b0 :: r0 =>
    let fault n why := inr (Utf8Fault pos n b0 why) in
    let emit cp rest :=
      match rest with
      | inl cps => inl (cp :: cps)
      | inr f => inr f
      end in
    if b0 <? 0x80 then emit b0 (utf8_scan r0 (pos + 1))
    else if b0 <? 0xC2 then fault 1 InvalidStart
    else if b0 <? 0xE0 then
      match r0 with
      | [] => fault 1 UnexpectedEnd
      | b1 :: r1 =>
        if is_cont b1
        then emit (N.lor (N.shiftl (N.land b0 0x1F) 6) (cont_bits b1))
                  (utf8_scan r1 (pos + 2))
        else fault 1 InvalidContinuation
      end
    else if b0 <? 0xF0 then
      match r0 with
      | [] => fault 1 UnexpectedEnd
      | b1 :: r1 =>
        if is_cont b1
           && negb ((b0 =? 0xE0) && (b1 <? 0xA0))
           && negb ((b0 =? 0xED) && (0xA0 <=? b1))
        then
          match r1 with
          | [] => fault 2 UnexpectedEnd
          | b2 :: r2 =>
            if is_cont b2
            then emit (N.lor (N.shiftl (N.land b0 0x0F) 12)
                         (N.lor (N.shiftl (cont_bits b1) 6) (cont_bits b2)))
                      (utf8_scan r2 (pos + 3))
            else fault 2 InvalidContinuation
          end
        else fault 1 InvalidContinuation
      end
    else if b0 <? 0xF5 then
      match r0 with
      | [] => fault 1 UnexpectedEnd
      | b1 :: r1 =>
        if is_cont b1
           && negb ((b0 =? 0xF0) && (b1 <? 0x90))
           && negb ((b0 =? 0xF4) && (0x90 <=? b1))
        then
          match r1 with
          | [] => fault 2 UnexpectedEnd
          | b2 :: r2 =>
            if is_cont b2 then
              match r2 with
              | [] => fault 3 UnexpectedEnd
              | b3 :: r3 =>
                if is_cont b3
                then emit (N.lor (N.shiftl (N.land b0 0x07) 18)
                             (N.lor (N.shiftl (cont_bits b1) 12)
                                (N.lor (N.shiftl (cont_bits b2) 6) (cont_bits b3))))
                          (utf8_scan r3 (pos + 4))
                else fault 3 InvalidContinuation
              end
            else fault 2 InvalidContinuation
          end
        else fault 1 InvalidContinuation
      end
    else fault 1 InvalidStart
  end.

(** A literal of the source, as a [str]: the file is UTF-8, so are the
    Python sources. *)
Definition lit (s : string) : str :=
  match utf8_scan (octets s) 0 with
  | inl cps => cps
  | inr _ => []
  end.

Arguments lit : simpl never.

(** [Py_UNICODE_ISSPACE]: the code points [str.strip()] removes. *)
Definition isspace (c : N) : bool :=
  ((0x09 <=? c) && (c <=? 0x0D)) || ((0x1C <=? c) && (c <=? 0x20))
  || (c =? 0x85) || (c =? 0xA0) || (c =? 0x1680)
  || ((0x2000 <=? c) && (c <=? 0x200A))
  || (c =? 0x2028) || (c =? 0x2029) || (c =? 0x202F) || (c =? 0x205F)
  || (c =? 0x3000).

Fixpoint lstrip (s : str) : str :=
  match s with
  | [] => []
  | c :: r => if isspace c then lstrip r else s
  end.

Definition rstrip (s : str) : str := rev (lstrip (rev s)).

(** [s.strip()] *)
Definition strip (s : str) : str := rstrip (lstrip s).

(** The head of a text is no whitespace. *)
Definition clean_head (s : str) : Prop :=
  match s with
  | [] => True
  | c :: _ => isspace c = false
  end.

(** [s.lower()] restricted to the ASCII letters.  The only use is the test
    of a header name against [from], [to], [subject] and [date]; no code
    point outside ASCII lower-cases to a letter of those four words, so
    the test is decided as Python decides it. *)
Definition lower (s : str) : str :=
  map (fun c => if (0x41 <=? c) && (c <=? 0x5A) then c + 0x20 else c) s.

(** Truth value of a [str]. *)
Definition truthy (s : str) : bool :=
  match s with [] => false | _ => true end.

(** [str(z)] of an [int]. *)
Definition str_of_Z (z : Z) : str :=
  octets (DecimalString.NilZero.string_of_int (Z.to_int z)).

Definition hex_digit (d : N) : N :=
  if d <? 10 then 0x30 + d else 0x61 + (d - 10).

(** ["%02x"] of an octet. *)
Definition hex2 (b : N) : str := [hex_digit (b / 16); hex_digit (b mod 16)].

End Text.

Export Text.

(** ** Exceptions and results *)

Module Exc.

(** A raised exception, of a class below [Exception]: the name of the
    class and the text [str(e)] gives. *)
Record exn := Exn { exc_class : str; exc_msg : str }.

(** The outcome of a call: a value, or an exception on its way up. *)
Inductive res (A : Type) : Type :=
| Ok (a : A)
| Raise (e : exn).

Arguments Ok {A} a.
Arguments Raise {A} e.

Definition rbind {A B} (r : res A) (k : A -> res B) : res B :=
  match r with
  | Ok a => k a
  | Raise e => Raise e
  end.

(** [try: r except Exception as e: h e] *)
Definition rcatch {A} (r : res A) (h : exn -> res A) : res A :=
  match r with
  | Ok a => Ok a
  | Raise e => h e
  end.

Definition raised {A} (r : res A) : bool :=
  match r with Ok _ => false | Raise _ => true end.

(** The outcome of awaiting a call that may also be cancelled:
    [asyncio.CancelledError] derives from [BaseException] and not from
    [Exception], so it is no [exn] and no [except Exception] catches
    it. *)
Inductive awaited (A : Type) : Type :=
| Completed (r : res A)
| Cancelled.

Arguments Completed {A} r.
Arguments Cancelled {A}.


(** The call did not return a value. *)
Definition failed {A} (r : awaited A) : bool :=
  match r with Completed (Ok _) => false | _ => true end.

End Exc.

Export Exc.

(** An outcome [Ok a] or [Raise e] is read as that of a call that was not
    cancelled wherever an [awaited] outcome is expected. *)
Coercion Completed : res >-> awaited.

Declare Scope res_scope.
Delimit Scope res_scope with res.
Notation "x <- c ;; k" := (rbind c (fun x => k))
  (at level 61, c at next level, right associativity) : res_scope.

(** ** The codecs of the standard library used by [_extract_body] *)

Module Codec.

(** [table_a2b_base64] of CPython's [binascii]: the value of a character of
    the standard alphabet, [None] for any other octet. *)
Definition b64_value (c : N) : option N :=
  if (0x41 <=? c) && (c <=? 0x5A) then Some (c - 0x41)
  else if (0x61 <=? c) && (c <=? 0x7A) then Some (c - 0x61 + 26)
  else if (0x30 <=? c) && (c <=? 0x39) then Some (c - 0x30 + 52)
  else if c =? 0x2B then Some 62
  else if c =? 0x2F then Some 63
  else None.

Definition binascii_Error (msg : str) : exn := Exn (lit "binascii.Error") msg.

(** [binascii.a2b_base64] without [strict_mode], character by character:
    [quad] is the position in the current group of four, [left] the bits
    not yet written, [pads] the padding characters seen in a row and [out]
    the octets written so far, last first.  Characters outside the
    alphabet are skipped; padding that completes a group ends the
    decoding, whatever follows. *)
Fixpoint a2b_loop (s : bytes) (quad left pads : N) (out : bytes) : res bytes :=
  match s with
  | [] =>
    if quad =? 0 then Ok (rev out)
    else if quad =? 1 then
      Raise (binascii_Error
        (lit "Invalid base64-encoded string: number of data characters ("
         ++ str_of_Z (Z.of_N (N.of_nat (List.length out) / 3 * 4 + 1))
         ++ lit ") cannot be 1 more than a multiple of 4"))
    else Raise (binascii_Error (lit "Incorrect padding"))
  | c :: r =>
    if c =? 0x3D then
      if (2 <=? quad) && (4 <=? quad + (pads + 1)) then Ok (rev out)
      else a2b_loop r quad left (if 2 <=? quad then pads + 1 else pads) out
    else
      match b64_value c with
      | None => a2b_loop r quad left pads out
      | Some v =>
        if quad =? 0 then a2b_loop r 1 v 0 out
        else if quad =? 1 then
          a2b_loop r 2 (N.land v 0x0F) 0
                   (N.lor (N.shiftl left 2) (N.shiftr v 4) :: out)
        else if quad =? 2 then
          a2b_loop r 3 (N.land v 0x03) 0
                   (N.lor (N.shiftl left 4) (N.shiftr v 2) :: out)
        else
          a2b_loop r 0 0 0 (N.lor (N.shiftl left 6) v :: out)
      end
  end.

Definition a2b_base64 (s : bytes) : res bytes := a2b_loop s 0 0 0 [].

(** [_urlsafe_decode_translation]: [-] becomes [+] and [_] becomes [/]. *)
Definition urlsafe_translate (c : N) : N :=
  if c =? 0x2D then 0x2B else if c =? 0x5F then 0x2F else c.

(** [base64.urlsafe_b64decode(s)] for a [str] argument: the text is encoded
    as ASCII first, which fails on any other code point. *)
Definition urlsafe_b64decode (s : str) : res bytes :=
  if forallb (fun c => c <? 0x80) s
  then a2b_base64 (map urlsafe_translate s)
  else Raise (Exn (lit "ValueError")
                  (lit "string argument should contain only ASCII characters")).

Definition reason_text (r : utf8_reason) : str :=
  match r with
  | InvalidStart => lit "invalid start byte"
  | InvalidContinuation => lit "invalid continuation byte"
  | UnexpectedEnd => lit "unexpected end of data"
  end.

(** [str(e)] of the [UnicodeDecodeError] CPython raises for a fault. *)
Definition fault_text (f : utf8_fault) : str :=
  if fault_len f =? 1 then
    lit "'utf-8' codec can't decode byte 0x" ++ hex2 (fault_byte f)
    ++ lit " in position " ++ str_of_Z (Z.of_N (fault_pos f))
    ++ lit ": " ++ reason_text (fault_reason f)
  else
    lit "'utf-8' codec can't decode bytes in position "
    ++ str_of_Z (Z.of_N (fault_pos f)) ++ lit "-"
    ++ str_of_Z (Z.of_N (fault_pos f + fault_len f - 1))
    ++ lit ": " ++ reason_text (fault_reason f).

(** [b.decode('utf-8')] *)
Definition decode_utf8 (b : bytes) : res str :=
  match utf8_scan b 0 with
  | inl s => Ok s
  | inr f => Raise (Exn (lit "UnicodeDecodeError") (fault_text f))
  end.

End Codec.

Export Codec.

(** ** Values, dictionaries and JSON payloads *)

Module Value.

(** The value of a tool argument as it arrives from the wire.  The schemas
    of the four tools declare integers and strings only; [None] is JSON
    [null]. *)
Inductive pyval :=
| VNone
| VBool (b : bool)
| VInt (z : Z)
| VStr (s : str).

(** What an f-string writes for [{v}]. *)
Definition py_str (v : pyval) : str :=
  match v with
  | VNone => lit "None"
  | VBool true => lit "True"
  | VBool false => lit "False"
  | VInt z => str_of_Z z
  | VStr s => s
  end.

(** A JSON-shaped Python value; an object keeps the insertion order of its
    keys, as a [dict] does. *)
#[local] Unset Elimination Schemes.
Inductive json :=
| JNull
| JBool (b : bool)
| JInt (z : Z)
| JStr (s : str)
| JArr (items : list json)
| JObj (fields : list (str * json)).
#[local] Set Elimination Schemes.

Definition json_of_pyval (v : pyval) : json :=
  match v with
  | VNone => JNull
  | VBool b => JBool b
  | VInt z => JInt z
  | VStr s => JStr s
  end.

(** A [dict] with [str] keys. *)
Definition dict (V : Type) := list (str * V).

(** [d.get(k)], [None] when the key is absent. *)
Fixpoint dict_find {V} (d : dict V) (k : str) : option V :=
  match d with
  | [] => None
  | (k', v) :: r => if str_eqb k' k then Some v else dict_find r k
  end.

(** [d.get(k, default)] *)
Definition dict_get {V} (d : dict V) (k : str) (default : V) : V :=
  match dict_find d k with
  | Some v => v
  | None => default
  end.

(** [k in d] *)
Definition dict_mem {V} (d : dict V) (k : str) : bool :=
  match dict_find d k with Some _ => true | None => false end.

(** [d[k] = v]: the value is replaced in place when the key exists and the
    pair is appended otherwise. *)
Fixpoint dict_set {V} (d : dict V) (k : str) (v : V) : dict V :=
  match d with
  | [] => [(k, v)]
  | (k', v') :: r =>
    if str_eqb k' k then (k', v) :: r else (k', v') :: dict_set r k v
  end.

(** The keys of a JSON object, in order. *)
Definition json_keys (j : json) : list str :=
  match j with
  | JObj f => map fst f
  | _ => []
  end.

(** [l[:c]] for an [int] [c]: a negative bound counts from the end. *)
Definition slice_to {A} (l : list A) (c : Z) : list A :=
  if (c <? 0)%Z
  then firstn (List.length l - Z.to_nat (- c)) l
  else firstn (Z.to_nat c) l.

(** [l[:v]] for any argument value: [None] keeps the whole list, a [bool]
    is an [int], a [str] is no index. *)
Definition py_slice_to {A} (l : list A) (v : pyval) : res (list A) :=
  match v with
  | VNone => Ok l
  | VBool b => Ok (slice_to l (if b then 1 else 0)%Z)
  | VInt z => Ok (slice_to l z)
  | VStr _ =>
    Raise (Exn (lit "TypeError")
      (lit "slice indices must be integers or None or have an __index__ method"))
  end.

End Value.

Export Value.

(** ** Messages of the Gmail API *)

Module Gmail.

Record header := Header { h_name : str; h_value : str }.

(** A MIME part ([payload] and every element of a [parts] list).  A field
    the code reads with [in] or [.get] is optional; [mimeType] and [body]
    are read with [[]] and always sent by the API.  [body_data] is
    [body['data']]. *)
#[local] Unset Elimination Schemes.
Inductive part :=
| Part (mimeType : str) (headers : option (list header))
       (body_data : option str) (parts : option (list part)).
#[local] Set Elimination Schemes.

Definition mimeType (p : part) : str :=
  match p with Part mt _ _ _ => mt end.
Definition headers (p : part) : option (list header) :=
  match p with Part _ hs _ _ => hs end.
Definition body_data (p : part) : option str :=
  match p with Part _ _ d _ => d end.
Definition parts (p : part) : option (list part) :=
  match p with Part _ _ _ ps => ps end.

(** The answer of [users().messages().get(...)]: ['payload'] and
    ['threadId'] are read with [[]], ['snippet'] and ['labelIds'] with
    [.get]. *)
Record message := Message
  { payload : part;
    threadId : str;
    snippet : option str;
    labelIds : option (list str) }.

(** A request sent to the remote API. *)
Inductive request :=
| ReqList (q : option pyval) (maxResults : pyval)
| ReqGet (id : pyval).

(** The handle [build('gmail', 'v1', ...)] returns, reduced to the two
    calls the server makes.  [messages_list q maxResults] is
    [users().messages().list(userId='me', q=q, maxResults=maxResults)
    .execute()], answered with the [id] of each entry of ['messages'], or
    [None] when the answer has no such key; [messages_get id] is
    [users().messages().get(userId='me', id=id).execute()]. *)
Record Service := MkService
  { messages_list : option pyval -> pyval -> res (option (list str));
    messages_get : pyval -> res message }.

End Gmail.

Export Gmail.

(** ** MIME body extraction *)

Module Mime.

Local Open Scope res_scope.

Definition text_plain : str := lit "text/plain".

(** [base64.urlsafe_b64decode(data).decode('utf-8')] *)
Definition decode_data (data : str) : res str :=
  b <- urlsafe_b64decode data ;; decode_utf8 b.

(** The [for] loop of [_extract_body] over [payload['parts']], with
    [extract] for the recursive call; its value is [body] when the loop is
    left, by [break] or at the end of the list. *)
Fixpoint scan_parts (extract : part -> res str) (l : list part) : res str :=
  match l with
  | [] => Ok []
  | p :: rest =>
    if str_eqb (mimeType p) text_plain then
      match body_data p with
      | Some d => decode_data d
      | None => scan_parts extract rest
      end
    else
      match parts p with
      | Some _ =>
        body <- extract p ;;
        if truthy body then Ok body else scan_parts extract rest
      | None => scan_parts extract rest
      end
  end.

(** [GmailMCPServer._extract_body] *)
Fixpoint _extract_body (payload : part) : res str :=
  match payload with
  | Part mt _ data ps =>
    body <-
      match ps with
      | Some children => scan_parts _extract_body children
      | None =>
        if str_eqb mt text_plain then
          match data with
          | Some d => decode_data d
          | None => Ok []
          end
        else Ok []
      end ;;
    Ok (strip body)
  end.

(** *** The algorithm as the specification words it *)

(** "Decoding is URL-safe base64 to UTF-8 text, then trimmed of
    leading/trailing whitespace." *)
Definition decode_trim (data : str) : res str :=
  s <- decode_data data ;; Ok (strip s).

(** The inline data of a part whose MIME type is [text/plain]. *)
Definition plain_data (p : part) : option str :=
  if str_eqb (mimeType p) text_plain then body_data p else None.

Section FirstLeaf.

(** Which children the scan recurses into. *)
Variable descend : part -> bool.

(** The children are examined in order: a [text/plain] child with inline
    data is decoded and the scan stops; a child to descend into is
    searched and the scan stops on a non-empty result; otherwise the next
    child is examined. *)
Fixpoint examine (search : part -> res str) (l : list part) : res str :=
  match l with
  | [] => Ok []
  | c :: rest =>
    match plain_data c with
    | Some d => decode_trim d
    | None =>
      if descend c then
        r <- search c ;;
        match r with
        | [] => examine search rest
        | _ => Ok r
        end
      else examine search rest
    end
  end.

(** If the payload has no parts, its own body is decoded when it is
    [text/plain] with data; otherwise its children are examined. *)
Fixpoint first_leaf (p : part) : res str :=
  match p with
  | Part _ _ _ ps =>
    match ps with
    | None =>
      match plain_data p with
      | Some d => decode_trim d
      | None => Ok []
      end
    | Some children => examine first_leaf children
    end
  end.

End FirstLeaf.

Definition has_parts (p : part) : bool :=
  match parts p with Some _ => true | None => false end.

(** The specification's wording: "if the child itself has sub-parts,
    recurse into it". *)
Definition spec_extract_body : part -> res str := first_leaf has_parts.

(** The same algorithm, recursing only into children that are not
    [text/plain]. *)
Definition nonplain_with_parts (p : part) : bool :=
  negb (str_eqb (mimeType p) text_plain) && has_parts p.

Definition first_plain_leaf : part -> res str := first_leaf nonplain_with_parts.

(** A [text/plain] part that carries no inline data and has sub-parts. *)
Definition plain_shell (p : part) : bool :=
  str_eqb (mimeType p) text_plain
  && match body_data p with Some _ => false | None => true end
  && has_parts p.

(** No child, at any depth, is such a shell. *)
Fixpoint regular (p : part) : bool :=
  match p with
  | Part _ _ _ None => true
  | Part _ _ _ (Some children) =>
    forallb (fun c => negb (plain_shell c) && regular c) children
  end.

(** [within q p]: [q] is [p] or a part below it. *)
Inductive within (q : part) : part -> Prop :=
| within_self : within q q
| within_child mt hs d children c :
    In c children -> within q c -> within q (Part mt hs d (Some children)).

(** [b] is empty, or the trimmed decoding of the inline data of one
    [text/plain] part of [p]. *)
Definition from_one_part (p : part) (b : str) : Prop :=
  b = [] \/
  exists q d, within q p /\ plain_data q = Some d /\ decode_trim d = Ok b.

(** A leaf, a container, and the two messages of the specification's
    examples. *)
Definition leaf (mt data : string) : part :=
  Part (lit mt) None (Some (lit data)) None.

Definition multipart (mt : string) (children : list part) : part :=
  Part (lit mt) None None (Some children).

Definition single_plain : part := leaf "text/plain" "SGVsbG8=".

Definition nested_alternative : part :=
  multipart "multipart/mixed"
    [ multipart "multipart/alternative" [ leaf "text/html" "PGI+aGk8L2I+" ];
      leaf "text/plain" "Cmk=" ].

(** A [text/plain] child without inline data that has sub-parts. *)
Definition plain_container : part :=
  multipart "multipart/mixed"
    [ Part text_plain None None (Some [ leaf "text/plain" "SGVsbG8=" ]) ].

End Mime.

Export Mime.

(** ** Text content blocks *)

Module Wire.

(** The [text] of a content block.  A text produced by [json.dumps] is kept
    as the value it serialises ([indent] and [ensure_ascii] change its
    characters, not the value [json.loads] reads back); any other text
    comes with the [JSONDecodeError] that [json.loads] raises on it. *)
Inductive wire_text :=
| JsonText (v : json)
| RawText (s : str) (err : exn).

(** [json.dumps(v, indent=..., ensure_ascii=...)] *)
Definition json_dumps (v : json) (indent : N) (ensure_ascii : bool) : wire_text :=
  JsonText v.

(** [json.loads(t)] *)
Definition json_loads (t : wire_text) : res json :=
  match t with
  | JsonText v => Ok v
  | RawText _ err => Raise err
  end.

(** [types.TextContent(type=..., text=...)] *)
Record TextContent := MkTextContent { content_type : str; text : wire_text }.

End Wire.

Export Wire.

(** ** Computations on a state that may raise *)

Module Eff.

Section Eff.

Variable S : Type.

(** A computation may change the state and raise; the changes made before
    an exception stay, as the assignments of a Python method do. *)
Definition eff (A : Type) : Type := S -> res A * S.

Definition ret {A} (a : A) : eff A := fun s => (Ok a, s).

Definition raise {A} (e : exn) : eff A := fun s => (Raise e, s).

Definition bind {A B} (m : eff A) (k : A -> eff B) : eff B :=
  fun s =>
    match m s with
    | (Ok a, s') => k a s'
    | (Raise e, s') => (Raise e, s')
    end.

(** [try: m except Exception as e: h e] *)
Definition try_ {A} (m : eff A) (h : exn -> eff A) : eff A :=
  fun s =>
    match m s with
    | (Ok a, s') => (Ok a, s')
    | (Raise e, s') => h e s'
    end.

Definition lift {A} (r : res A) : eff A := fun s => (r, s).

End Eff.

Arguments ret {S A} a.
Arguments raise {S A} e.
Arguments bind {S A B} m k.
Arguments try_ {S A} m h.
Arguments lift {S A} r.

End Eff.

Export Eff.

Declare Scope eff_scope.
Delimit Scope eff_scope with eff.
Notation "x <- c ;; k" := (bind c (fun x => k))
  (at level 61, c at next level, right associativity) : eff_scope.
Notation "c ;;; k" := (bind c (fun _ => k))
  (at level 61, right associativity) : eff_scope.

(** ** The server: [GmailMCPServer] *)

Module Server.

(** [google.oauth2.credentials.Credentials], reduced to what
    [_initialize_gmail] reads. *)
Record creds := Creds
  { valid : bool; expired : bool; refresh_token : option str }.

(** What [_initialize_gmail] finds outside the process. *)
Record Env := MkEnv
  { (** [creds.refresh(Request())] *)
    refresh : creds -> res creds;
    (** [os.path.exists(credentials_path)] *)
    credentials_file : bool;
    (** [InstalledAppFlow.from_client_secrets_file(...)] followed by
        [flow.run_local_server(port=0)] *)
    run_flow : res creds;
    (** [os.makedirs], [open] and [pickle.dump] of the token *)
    save_token : creds -> res unit;
    (** what a [save_token] that raises leaves at [token_path]: [None]
        when [os.makedirs] or [open] raised and the file is as it was,
        [Some e] when [pickle.dump] raised into the file that
        [open(token_path, 'wb')] had emptied, [e] being what [pickle.load]
        raises on what is left *)
    torn_token : creds -> option exn;
    (** [build('gmail', 'v1', credentials=creds)] *)
    build : creds -> res Service }.

(** The state the server works on: [self.service], the token file
    ([None] when [token_path] does not exist, otherwise what
    [pickle.load] makes of it) and the requests sent to the remote API,
    oldest first. *)
Record server := MkServer
  { service : option Service;
    token_file : option (res creds);
    trace : list request }.

(** [GmailMCPServer.__init__]: no service yet. *)
Definition new_server (token : option (res creds)) : server :=
  MkServer None token [].

Definition M : Type -> Type := eff server.

Local Open Scope eff_scope.

Definition get_service : M (option Service) := fun s => (Ok (service s), s).

Definition set_service (svc : Service) : M unit :=
  fun s => (Ok tt, MkServer (Some svc) (token_file s) (trace s)).

Definition load_token : M (option creds) :=
  fun s =>
    match token_file s with
    | None => (Ok None, s)
    | Some (Ok c) => (Ok (Some c), s)
    | Some (Raise e) => (Raise e, s)
    end.

Definition write_token (env : Env) (c : creds) : M unit :=
  fun s =>
    match save_token env c with
    | Ok _ => (Ok tt, MkServer (service s) (Some (Ok c)) (trace s))
    | Raise e =>
      (Raise e,
       MkServer (service s)
                (match torn_token env c with
                 | Some unreadable => Some (Raise unreadable)
                 | None => token_file s
                 end)
                (trace s))
    end.

Definition credentials_path : str := lit "credentials/credentials.json".

Definition has_refresh_token (c : creds) : bool :=
  match refresh_token c with
  | Some t => truthy t
  | None => false
  end.

(** The [else] branch of the refresh test: the interactive flow. *)
Definition authorize (env : Env) : M creds :=
  if credentials_file env
  then lift (run_flow env)
  else raise (Exn (lit "FileNotFoundError")
                  (lit "Credenciais não encontradas em " ++ credentials_path)).

(** [GmailMCPServer._initialize_gmail] *)
Definition _initialize_gmail (env : Env) : M unit :=
  try_
    (loaded <- load_token ;;
     c <- match loaded with
          | Some c0 =>
            if valid c0 then ret c0
            else
              c1 <- (if expired c0 && has_refresh_token c0
                     then lift (refresh env c0)
                     else authorize env) ;;
              write_token env c1 ;;;
              ret c1
          | None =>
            c1 <- authorize env ;;
            write_token env c1 ;;;
            ret c1
          end ;;
     svc <- lift (build env c) ;;
     set_service svc)
    (fun e =>
       raise (Exn (lit "Exception")
                  (lit "Erro ao inicializar Gmail: " ++ exc_msg e))).

(** [self.service.users()...]: an attribute of [None] cannot be read. *)
Definition the_service : M Service :=
  svc <- get_service ;;
  match svc with
  | Some v => ret v
  | None => raise (Exn (lit "AttributeError")
                       (lit "'NoneType' object has no attribute 'users'"))
  end.

(** Sending a request: it is recorded, then answered or refused. *)
Definition send {A} (r : request) (answer : res A) : M A :=
  fun s => (answer, MkServer (service s) (token_file s) (trace s ++ [r])).

Definition kept_headers : list str :=
  [lit "from"; lit "to"; lit "subject"; lit "date"].

(** The loop over [message['payload'].get('headers', [])]. *)
Definition collect_headers (hs : option (list header)) : dict str :=
  fold_left
    (fun acc h =>
       let name := lower (h_name h) in
       if existsb (str_eqb name) kept_headers
       then dict_set acc name (h_value h)
       else acc)
    (match hs with Some l => l | None => [] end) [].

Definition error_payload (msg : str) : json := JObj [(lit "error", JStr msg)].

(** The dictionary [_get_email_details] returns for a message. *)
Definition email_json (message_id : pyval) (message : Gmail.message)
    (hs : dict str) (body : str) : json :=
  JObj
    [ (lit "id", json_of_pyval message_id);
      (lit "thread_id", JStr (threadId message));
      (lit "from", JStr (dict_get hs (lit "from") []));
      (lit "to", JStr (dict_get hs (lit "to") []));
      (lit "subject", JStr (dict_get hs (lit "subject") []));
      (lit "date", JStr (dict_get hs (lit "date") []));
      (lit "body", JStr body);
      (lit "snippet", JStr (match snippet message with Some t => t | None => [] end));
      (lit "labels",
       JArr (map JStr (match labelIds message with Some l => l | None => [] end))) ].

(** [GmailMCPServer._get_email_details] *)
Definition _get_email_details (message_id : pyval) : M json :=
  try_
    (svc <- the_service ;;
     message <- send (ReqGet message_id) (messages_get svc message_id) ;;
     let hs := collect_headers (headers (payload message)) in
     body <- lift (_extract_body (payload message)) ;;
     ret (email_json message_id message hs body))
    (fun e =>
       ret (error_payload
              (lit "Erro ao buscar email " ++ py_str message_id
               ++ lit ": " ++ exc_msg e))).

(** [email_data and 'error' not in email_data], for the dictionaries
    [_get_email_details] returns. *)
Definition is_email (email_data : json) : bool :=
  match email_data with
  | JObj [] => false
  | JObj f => negb (dict_mem f (lit "error"))
  | _ => false
  end.

(** The loop shared by the three listing tools: [emails] after the last
    iteration. *)
Fixpoint fetch_emails (ids : list str) : M (list json) :=
  match ids with
  | [] => ret []
  | id :: rest =>
    email_data <- _get_email_details (VStr id) ;;
    emails <- fetch_emails rest ;;
    ret (if is_email email_data then email_data :: emails else emails)
  end.

(** [result.get('messages', [])] *)
Definition listed (result : option (list str)) : list str :=
  match result with Some l => l | None => [] end.

Definition count_of (emails : list json) : json :=
  JInt (Z.of_nat (List.length emails)).

(** [GmailMCPServer._get_recent_emails] *)
Definition _get_recent_emails (count : pyval) : M json :=
  try_
    (svc <- the_service ;;
     result <- send (ReqList None count) (messages_list svc None count) ;;
     ids <- lift (py_slice_to (listed result) count) ;;
     emails <- fetch_emails ids ;;
     ret (JObj
       [ (lit "tool", JStr (lit "get_recent_emails"));
         (lit "success", JBool true);
         (lit "count", count_of emails);
         (lit "emails", JArr emails) ]))
    (fun e =>
       ret (error_payload (lit "Erro ao buscar emails recentes: " ++ exc_msg e))).

Definition is_unread : pyval := VStr (lit "is:unread").

(** [GmailMCPServer._get_unread_emails] *)
Definition _get_unread_emails (count : pyval) : M json :=
  try_
    (svc <- the_service ;;
     result <- send (ReqList (Some is_unread) count)
                    (messages_list svc (Some is_unread) count) ;;
     emails <- fetch_emails (listed result) ;;
     ret (JObj
       [ (lit "tool", JStr (lit "get_unread_emails"));
         (lit "success", JBool true);
         (lit "count", count_of emails);
         (lit "emails", JArr emails) ]))
    (fun e =>
       ret (error_payload (lit "Erro ao buscar emails não lidos: " ++ exc_msg e))).

(** [GmailMCPServer._search_emails] *)
Definition _search_emails (query count : pyval) : M json :=
  try_
    (svc <- the_service ;;
     result <- send (ReqList (Some query) count)
                    (messages_list svc (Some query) count) ;;
     emails <- fetch_emails (listed result) ;;
     ret (JObj
       [ (lit "tool", JStr (lit "search_emails"));
         (lit "query", json_of_pyval query);
         (lit "success", JBool true);
         (lit "count", count_of emails);
         (lit "emails", JArr emails) ]))
    (fun e =>
       ret (error_payload
              (lit "Erro na busca '" ++ py_str query ++ lit "': " ++ exc_msg e))).

(** A parameter of an input schema. *)
Record property := MkProperty
  { p_type : str; p_description : str; p_default : option pyval }.

(** [types.Tool]: [t_required] is the ["required"] list of the schema, empty
    when the schema has none. *)
Record Tool := MkTool
  { t_name : str;
    t_description : str;
    t_properties : dict property;
    t_required : list str }.

(** [handle_list_tools] *)
Definition handle_list_tools : list Tool :=
  [ MkTool (lit "get_recent_emails")
      (lit "Busca emails recentes da caixa de entrada")
      [ (lit "count",
         MkProperty (lit "integer")
           (lit "Número de emails para buscar (padrão: 5)") (Some (VInt 5))) ]
      [];
    MkTool (lit "get_unread_emails")
      (lit "Busca emails não lidos")
      [ (lit "count",
         MkProperty (lit "integer")
           (lit "Número máximo de emails não lidos (padrão: 10)") (Some (VInt 10))) ]
      [];
    MkTool (lit "search_emails")
      (lit "Busca emails usando query do Gmail")
      [ (lit "query",
         MkProperty (lit "string")
           (lit "Query de busca do Gmail (ex: 'from:pessoa@email.com', 'subject:reunião')")
           None);
        (lit "count",
         MkProperty (lit "integer")
           (lit "Número máximo de emails para retornar (padrão: 10)") (Some (VInt 10))) ]
      [lit "query"];
    MkTool (lit "get_email_details")
      (lit "Busca detalhes completos de um email específico")
      [ (lit "message_id",
         MkProperty (lit "string") (lit "ID da mensagem no Gmail") None) ]
      [lit "message_id"] ].

(** [if not arguments: arguments = {}] *)
Definition or_empty (arguments : option (dict pyval)) : dict pyval :=
  match arguments with
  | Some d => d
  | None => []
  end.

Definition text_content (t : wire_text) : TextContent :=
  MkTextContent (lit "text") t.

(** [handle_call_tool].  The initialisation comes before the [try]. *)
Definition handle_call_tool (env : Env) (name : str)
    (arguments : option (dict pyval)) : M (list TextContent) :=
  let arguments := or_empty arguments in
  (svc <- get_service ;;
   match svc with
   | None => _initialize_gmail env
   | Some _ => ret tt
   end) ;;;
  try_
    (result <-
       (if str_eqb name (lit "get_recent_emails") then
          _get_recent_emails (dict_get arguments (lit "count") (VInt 5))
        else if str_eqb name (lit "get_unread_emails") then
          _get_unread_emails (dict_get arguments (lit "count") (VInt 10))
        else if str_eqb name (lit "search_emails") then
          _search_emails (dict_get arguments (lit "query") (VStr []))
                         (dict_get arguments (lit "count") (VInt 10))
        else if str_eqb name (lit "get_email_details") then
          _get_email_details (dict_get arguments (lit "message_id") (VStr []))
        else
          ret (error_payload (lit "Ferramenta desconhecida: " ++ name))) ;;
     ret [text_content (json_dumps result 2 false)])
    (fun e =>
       ret [text_content
              (json_dumps
                 (error_payload
                    (lit "Erro ao executar " ++ name ++ lit ": " ++ exc_msg e))
                 2 true)]).

End Server.

(** ** The dispatch the SDK registers: [@self.server.call_tool()]

    [mcp.server.lowlevel.Server.call_tool], in the versions of the SDK
    that validate the arguments of a call ([validate_input], [True]
    unless the decorator is told otherwise): the schema of the tool is
    looked up, the arguments are validated with [jsonschema], the
    decorated function is called, and every exception is turned into an
    error result. *)

Module Sdk.

Import Server.

Local Open Scope eff_scope.

(** [types.CallToolResult] as the server answers it. *)
Record ServerResult := MkServerResult
  { result_content : list TextContent; isError : bool }.

(** The tool cache, filled from [handle_list_tools]: a later tool of the
    same name replaces an earlier one. *)
Definition cached_tool (name : str) : option Tool :=
  find (fun t => str_eqb (t_name t) name) (rev handle_list_tools).

(** jsonschema's test of the keyword ["type"], for the two types the
    schemas of this server name and the values a [pyval] can be; [True]
    and [False] are no integers. *)
Definition has_type (t : str) (v : pyval) : bool :=
  if str_eqb t (lit "integer") then
    match v with VInt _ => true | _ => false end
  else if str_eqb t (lit "string") then
    match v with VStr _ => true | _ => false end
  else false.

(** The keyword ["properties"] on one parameter: an argument that is
    given has the type of the schema. *)
Definition property_ok (arguments : dict pyval) (kp : str * property) : bool :=
  match dict_find arguments (fst kp) with
  | Some v => has_type (p_type (snd kp)) v
  | None => true
  end.

(** [jsonschema.validate(instance=arguments, schema=tool.inputSchema)]
    raises no [ValidationError]. *)
Definition valid_input (tool : Tool) (arguments : dict pyval) : bool :=
  forallb (property_ok arguments) (t_properties tool)
  && forallb (dict_mem arguments) (t_required tool).

Section Registered.

(** [e.message] of the [ValidationError] that [jsonschema.validate]
    raises for arguments that do not fit the schema of a tool: that of
    the error [best_match] picks. *)
Variable message : Tool -> dict pyval -> str.

(** The text of a block [types.TextContent(type="text", text=t)] that
    [json.dumps] did not write, by what [json.loads] makes of [t]. *)
Variable plain : str -> wire_text.

(** [Server._make_error_result] *)
Definition _make_error_result (error_message : str) : ServerResult :=
  MkServerResult [text_content (plain error_message)] true.

(** The handler that [call_tool()], with [validate_input] left at [True],
    registers for [CallToolRequest] around [handle_call_tool], whose list
    of blocks it passes on as it is. *)
Definition call_tool_handler (env : Env) (name : str)
    (arguments : option (dict pyval)) : M ServerResult :=
  try_
    (let arguments := or_empty arguments in
     match cached_tool name with
     | Some tool =>
       if valid_input tool arguments then
         results <- handle_call_tool env name (Some arguments) ;;
         ret (MkServerResult results false)
       else
         ret (_make_error_result
                (lit "Input validation error: " ++ message tool arguments))
     | None =>
       results <- handle_call_tool env name (Some arguments) ;;
       ret (MkServerResult results false)
     end)
    (fun e => ret (_make_error_result (exc_msg e))).

End Registered.

End Sdk.

(** ** The client: [GmailMCPClient] *)

Module Client.

Local Open Scope eff_scope.

(** What [session.call_tool] returns; the content blocks are text blocks,
    the only kind the server sends. *)
Record CallToolResult := MkResult { content : list TextContent }.

(** A [ClientSession], by the outcome of each call made on it.  A call of
    a tool may also be cancelled while it waits for its answer, as when the
    task of the transport dies. *)
Record Session := MkSession
  { initialize : res unit;
    list_tools : res (list Server.Tool);
    call_tool : str -> dict pyval -> awaited CallToolResult }.

(** The endpoint behind [server_script_path]: what entering
    [stdio_client(server_params)] and [ClientSession(read, write)] gives,
    and what [exit_stack.aclose()] does. *)
Record Endpoint := MkEndpoint
  { stdio_client : res unit;
    client_session : res Session;
    aclose : res unit }.

(** A context entered on the exit stack. *)
Inductive resource := StdioTransport | SessionContext.

Record client := MkClient
  { server_script_path : str;
    session : option Session;
    exit_stack : list resource;
    connected : bool }.

(** [GmailMCPClient.__init__] *)
Definition new_client (path : str) : client := MkClient path None [] false.

Definition C : Type -> Type := eff client.

(** [await self.exit_stack.enter_async_context(cm)]: the context is kept
    on the stack once entered. *)
Definition enter_async_context {A} (r : resource) (cm : res A) : C A :=
  fun c =>
    match cm with
    | Ok a =>
      (Ok a, MkClient (server_script_path c) (session c)
                      (r :: exit_stack c) (connected c))
    | Raise e => (Raise e, c)
    end.

Definition set_session (s : Session) : C unit :=
  fun c => (Ok tt, MkClient (server_script_path c) (Some s)
                            (exit_stack c) (connected c)).

Definition set_connected (b : bool) : C unit :=
  fun c => (Ok tt, MkClient (server_script_path c) (session c)
                            (exit_stack c) b).

(** [GmailMCPClient.connect]; the two [print] calls are left out. *)
Definition connect (ep : Endpoint) : C bool :=
  try_
    (enter_async_context StdioTransport (stdio_client ep) ;;;
     s <- enter_async_context SessionContext (client_session ep) ;;
     set_session s ;;;
     lift (initialize s) ;;;
     tools_response <- lift (list_tools s) ;;
     let available_tools := map Server.t_name tools_response in
     set_connected true ;;;
     ret true)
    (fun e => ret false).

(** [GmailMCPClient.disconnect]: [aclose] unwinds the whole stack, also
    when one of the exits raises. *)
Definition disconnect (ep : Endpoint) : C unit :=
  (fun c =>
     (aclose ep, MkClient (server_script_path c) (session c) [] (connected c))) ;;;
  set_connected false.

(** [raise Exception("Cliente MCP não está conectado")] *)
Definition not_connected : exn :=
  Exn (lit "Exception") (lit "Cliente MCP não está conectado").

Definition empty_response : json :=
  Server.error_payload (lit "Resposta vazia do servidor MCP").

(** The body the four tool methods share; they differ in the tool name and
    in the arguments mapping.  The [except Exception] of the method does
    not catch the cancellation of the call. *)
Definition invoke (tool : str) (arguments : dict pyval) (c : client)
  : awaited json :=
  match connected c, session c with
  | true, Some s =>
    match call_tool s tool arguments with
    | Completed called =>
      Completed
        (rcatch
           (result <- called ;;
            match content result with
            | block :: _ => json_loads (text block)
            | [] => Ok empty_response
            end)%res
           (fun e =>
              Ok (Server.error_payload
                    (lit "Erro ao chamar " ++ tool ++ lit ": " ++ exc_msg e))))
    | Cancelled => Cancelled
    end
  | _, _ => Raise not_connected
  end.

(** [GmailMCPClient.get_recent_emails] *)
Definition get_recent_emails (count : pyval) : client -> awaited json :=
  invoke (lit "get_recent_emails") [(lit "count", count)].

(** [GmailMCPClient.get_unread_emails] *)
Definition get_unread_emails (count : pyval) : client -> awaited json :=
  invoke (lit "get_unread_emails") [(lit "count", count)].

(** [GmailMCPClient.search_emails] *)
Definition search_emails (query count : pyval) : client -> awaited json :=
  invoke (lit "search_emails") [(lit "query", query); (lit "count", count)].

(** [GmailMCPClient.get_email_details] *)
Definition get_email_details (message_id : pyval) : client -> awaited json :=
  invoke (lit "get_email_details") [(lit "message_id", message_id)].

(** A call of one of the four tool methods. *)
Inductive tool_request :=
| GetRecent (count : pyval)
| GetUnread (count : pyval)
| Search (query count : pyval)
| GetDetails (message_id : pyval).

Definition run_method (r : tool_request) : client -> awaited json :=
  match r with
  | GetRecent count => get_recent_emails count
  | GetUnread count => get_unread_emails count
  | Search query count => search_emails query count
  | GetDetails message_id => get_email_details message_id
  end.

(** The tool a method names in [call_tool], and the arguments it sends. *)
Definition tool_name (r : tool_request) : str :=
  match r with
  | GetRecent _ => lit "get_recent_emails"
  | GetUnread _ => lit "get_unread_emails"
  | Search _ _ => lit "search_emails"
  | GetDetails _ => lit "get_email_details"
  end.

Definition tool_arguments (r : tool_request) : dict pyval :=
  match r with
  | GetRecent count => [(lit "count", count)]
  | GetUnread count => [(lit "count", count)]
  | Search query count => [(lit "query", query); (lit "count", count)]
  | GetDetails message_id => [(lit "message_id", message_id)]
  end.

(** The endpoint is reached, the handshake accepted and the tools listed. *)
Definition handshake_ok (ep : Endpoint) : bool :=
  match stdio_client ep, client_session ep with
  | Ok _, Ok s => negb (raised (initialize s)) && negb (raised (list_tools s))
  | _, _ => false
  end.


End Client.


(** ** What the listing tools are expected to return *)

Module Expect.

Import Server.

(** The elements [f] maps to a value, in order. *)
Fixpoint filter_map {A B} (f : A -> option B) (l : list A) : list B :=
  match l with
  | [] => []
  | a :: r =>
    match f a with
    | Some b => b :: filter_map f r
    | None => filter_map f r
    end
  end.

(** The e-mail a detail fetch yields: the remote call and the extraction
    of the body must both succeed. *)
Definition fetched (svc : Service) (id : str) : option json :=
  match messages_get svc (VStr id) with
  | Ok m =>
    match _extract_body (payload m) with
    | Ok body =>
      Some (email_json (VStr id) m (collect_headers (headers (payload m))) body)
    | Raise _ => None
    end
  | Raise _ => None
  end.

(** The payload [{tool, success, count, emails}]. *)
Definition listing_payload (tool : str) (emails : list json) : json :=
  JObj
    [ (lit "tool", JStr tool);
      (lit "success", JBool true);
      (lit "count", JInt (Z.of_nat (List.length emails)));
      (lit "emails", JArr emails) ].

(** The payload of a search, which also carries the query. *)
Definition search_payload (query : pyval) (emails : list json) : json :=
  JObj
    [ (lit "tool", JStr (lit "search_emails"));
      (lit "query", json_of_pyval query);
      (lit "success", JBool true);
      (lit "count", JInt (Z.of_nat (List.length emails)));
      (lit "emails", JArr emails) ].

(** The server after the requests [rs] have been sent. *)
Definition sent (s : server) (rs : list request) : server :=
  MkServer (service s) (token_file s) (trace s ++ rs).

Definition get_request (id : str) : request := ReqGet (VStr id).

(** Computations that send nothing to the mail API. *)
Definition keeps_trace {A} (m : M A) : Prop :=
  forall s, trace (snd (m s)) = trace s.

(** Computations that return, whatever the state. *)
Definition never_raises {A} (m : M A) : Prop :=
  forall s, exists a s', m s = (Ok a, s').

(** The names of the registered tools. *)
Definition tool_names : list str := map t_name handle_list_tools.

(** The schema of a tool, by name. *)
Definition required_of (name : str) : list str :=
  match find (fun t => str_eqb (t_name t) name) handle_list_tools with
  | Some t => t_required t
  | None => []
  end.

(** The one-block envelope around a payload. *)
Definition envelope (payload : json) : list TextContent :=
  [MkTextContent (lit "text") (JsonText payload)].

End Expect.

(** ** Concrete backends and endpoints *)

Module Scenario.

Import Server Client.

(** A host without [token.pickle] and without [credentials.json]. *)
Definition no_credentials : Env :=
  MkEnv (fun c => Ok c) false
        (Raise (Exn (lit "FileNotFoundError") (lit "credentials/credentials.json")))
        (fun _ => Ok tt) (fun _ => None)
        (fun _ => Raise (Exn (lit "Exception") (lit "no credentials"))).

Definition hello_message : message :=
  Message single_plain (lit "t1") (Some (lit "Hello")) (Some [lit "INBOX"]).

(** A mailbox that lists three messages whatever is asked and serves each
    of them. *)
Definition three_messages : Service :=
  MkService (fun _ _ => Ok (Some [lit "m1"; lit "m2"; lit "m3"]))
            (fun _ => Ok hello_message).

(** A mailbox whose second message cannot be fetched. *)
Definition second_fails : Service :=
  MkService (fun _ _ => Ok (Some [lit "m1"; lit "m2"; lit "m3"]))
            (fun id =>
               match id with
               | VStr s =>
                 if str_eqb s (lit "m2")
                 then Raise (Exn (lit "HttpError") (lit "404"))
                 else Ok hello_message
               | _ => Raise (Exn (lit "HttpError") (lit "400"))
               end).

Definition running (svc : Service) : server := MkServer (Some svc) None [].

(** A token that is still valid, and a host on which the service can be
    built from it. *)
Definition valid_token : creds := Creds true false (Some (lit "1//refresh")).

Definition ready_host : Env :=
  MkEnv (fun c => Ok c) true (Ok valid_token) (fun _ => Ok tt) (fun _ => None)
        (fun _ => Ok three_messages).

(** What [_initialize_gmail] raises on a host without credentials. *)
Definition init_failure : exn :=
  Exn (lit "Exception")
      (lit "Erro ao inicializar Gmail: Credenciais não encontradas em credentials/credentials.json").

Definition connection_lost : exn :=
  Exn (lit "ConnectionError") (lit "Connection closed").

(** A session on which every call fails in the transport. *)
Definition broken_session : Session :=
  MkSession (Ok tt) (Ok []) (fun _ _ => Raise connection_lost).

Definition script : str := lit "src/mcp/gmail_server.py".

(** A connected client over a broken transport. *)
Definition broken_client : client :=
  MkClient script (Some broken_session) [SessionContext; StdioTransport] true.


(** An endpoint that is spawned and rejects the handshake. *)
Definition rejects_handshake : Endpoint :=
  MkEndpoint (Ok tt)
             (Ok (MkSession (Raise connection_lost) (Ok []) (fun _ _ => Raise connection_lost)))
             (Ok tt).

(** A session that answers every call with an empty listing. *)
Definition quiet_session : Session :=
  MkSession (Ok tt) (Ok Server.handle_list_tools)
            (fun tool _ =>
               Ok (MkResult (Expect.envelope (Expect.listing_payload tool [])))).



(** A session on which every call of a tool is cancelled, and a client
    connected to it. *)
Definition cancelled_session : Session :=
  MkSession (Ok tt) (Ok []) (fun _ _ => Cancelled).

Definition cancelled_client : client :=
  MkClient script (Some cancelled_session) [SessionContext; StdioTransport] true.


(** The message of jsonschema for a call of [search_emails] without
    [query], and the text of a block that opens with a letter of no JSON
    literal, on which [json.loads] raises at the first character. *)
Definition query_required : Tool -> dict pyval -> str :=
  fun _ _ => lit "'query' is a required property".

Definition not_json : exn :=
  Exn (lit "JSONDecodeError") (lit "Expecting value: line 1 column 1 (char 0)").

Definition unparsed (t : str) : wire_text := RawText t not_json.

End Scenario.

(** ** Notions for the properties of the codecs and of the handlers *)

Module Notion.

Import Server Expect Scenario.

(** A Unicode scalar value: below U+110000 and no surrogate. *)
Definition scalar_value (c : N) : Prop :=
  c < 0x110000 /\ ~ (0xD800 <= c <= 0xDFFF).

(** An octet. *)
Definition octet (b : N) : Prop := b < 256.

(** The value the code keeps for the header [k]: that of the last header
    whose name is [k] up to the case of its ASCII letters, and the empty
    string without one. *)
Definition header_value (hs : list header) (k : str) : str :=
  match find (fun h => str_eqb (lower (h_name h)) k) (rev hs) with
  | Some h => h_value h
  | None => []
  end.

(** A character of the URL-safe or of the standard base64 alphabet. *)
Definition b64_char (c : N) : bool :=
  (c <? 0x80)
  && match b64_value (urlsafe_translate c) with Some _ => true | None => false end.

(** An ASCII character that is neither of an alphabet nor the padding: a
    line break, a blank. *)
Definition b64_noise (c : N) : bool :=
  (c <? 0x80) && negb (c =? 0x3D)
  && match b64_value (urlsafe_translate c) with Some _ => false | None => true end.

(** What the loop of [a2b_base64] holds between two characters. *)
Definition carry_ok (quad left : N) : Prop :=
  quad <= 3
  /\ (quad = 1 -> left < 64) /\ (quad = 2 -> left < 16) /\ (quad = 3 -> left < 4).

(** The exception [e] is what decoding the inline data of a [text/plain]
    part of [p] raises. *)
Definition raise_from (p : part) (e : exn) : Prop :=
  exists q d, within q p /\ plain_data q = Some d /\ decode_data d = Raise e.

(** The classes of the exceptions the two codecs raise. *)
Definition codec_classes : list str :=
  [lit "ValueError"; lit "binascii.Error"; lit "UnicodeDecodeError"].

(** A child the scan of [_extract_body] passes over: it has no inline
    plain text, and when it is searched nothing is found in it. *)
Definition silent (c : part) : Prop :=
  plain_data c = None
  /\ (nonplain_with_parts c = true -> _extract_body c = Ok []).

(** A [text/plain] leaf whose data lacks its padding, and an HTML-only
    message. *)
Definition bad_padding : part := leaf "text/plain" "Cmk".

Definition html_only : part :=
  multipart "multipart/alternative" [ leaf "text/html" "PGI+aGk8L2I+" ].

(** A message that opens with an empty related part and an attachment. *)
Definition text_after_silent : part :=
  multipart "multipart/mixed"
    [ html_only; leaf "application/pdf" "JVBERi0="; leaf "text/plain" "Cmk=" ].

(** [message['payload'].get('headers', [])] *)
Definition header_list (p : part) : list header :=
  match headers p with Some l => l | None => [] end.

(** The e-mail [_get_email_details] builds, field by field. *)
Definition email_fields (v : pyval) (m : message) (body : str) : json :=
  JObj
    [ (lit "id", json_of_pyval v);
      (lit "thread_id", JStr (threadId m));
      (lit "from", JStr (header_value (header_list (payload m)) (lit "from")));
      (lit "to", JStr (header_value (header_list (payload m)) (lit "to")));
      (lit "subject", JStr (header_value (header_list (payload m)) (lit "subject")));
      (lit "date", JStr (header_value (header_list (payload m)) (lit "date")));
      (lit "body", JStr body);
      (lit "snippet", JStr (match snippet m with Some t => t | None => [] end));
      (lit "labels",
       JArr (map JStr (match labelIds m with Some l => l | None => [] end))) ].

(** The error dictionary of [_get_email_details]. *)
Definition details_error (v : pyval) (e : exn) : json :=
  error_payload (lit "Erro ao buscar email " ++ py_str v ++ lit ": " ++ exc_msg e).

(** A message with headers in mixed case, one of them repeated, and a
    mailbox that serves it under every identifier. *)
Definition headed_message : message :=
  Message
    (Part text_plain
       (Some [ Header (lit "From") (lit "ana@example.com");
               Header (lit "SUBJECT") (lit "first");
               Header (lit "X-Mailer") (lit "mutt");
               Header (lit "subject") (lit "second") ])
       (Some (lit "SGVsbG8=")) None)
    (lit "t7") None None.

Definition mailbox_of (m : message) : Service :=
  MkService (fun _ _ => Ok (Some [lit "m1"; lit "m2"; lit "m3"])) (fun _ => Ok m).

(** A mailbox whose listing fails. *)
Definition quota_exceeded : exn := Exn (lit "HttpError") (lit "429").

Definition no_listing : Service :=
  MkService (fun _ _ => Raise quota_exceeded) (fun _ => Ok hello_message).

(** The [TypeError] of a slice bound that is a string. *)
Definition slice_type_error : exn :=
  Exn (lit "TypeError")
      (lit "slice indices must be integers or None or have an __index__ method").

(** The [try] statement of [handle_call_tool], which runs once the
    service is there. *)
Definition dispatch_body (name : str) (arguments : dict pyval)
  : M (list TextContent) :=
  try_
    (bind
       (if str_eqb name (lit "get_recent_emails") then
          _get_recent_emails (dict_get arguments (lit "count") (VInt 5))
        else if str_eqb name (lit "get_unread_emails") then
          _get_unread_emails (dict_get arguments (lit "count") (VInt 10))
        else if str_eqb name (lit "search_emails") then
          _search_emails (dict_get arguments (lit "query") (VStr []))
                         (dict_get arguments (lit "count") (VInt 10))
        else if str_eqb name (lit "get_email_details") then
          _get_email_details (dict_get arguments (lit "message_id") (VStr []))
        else
          ret (error_payload (lit "Ferramenta desconhecida: " ++ name)))
       (fun result => ret [text_content (json_dumps result 2 false)]))
    (fun e =>
       ret [text_content
              (json_dumps
                 (error_payload
                    (lit "Erro ao executar " ++ name ++ lit ": " ++ exc_msg e))
                 2 true)]).

(** Computations that leave [self.service] and the token file alone. *)
Definition keeps_config {A} (m : M A) : Prop :=
  forall s,
    service (snd (m s)) = service s /\ token_file (snd (m s)) = token_file s.

(** The detail requests that follow a listing: one for each identifier
    that [keep] leaves of the listed ones, in that order, and none when
    the listing or [keep] raised. *)
Definition fetches (listing : res (option (list str)))
    (keep : list str -> res (list str)) : list request :=
  match listing with
  | Ok result =>
    match keep (listed result) with
    | Ok ids => map get_request ids
    | Raise _ => []
    end
  | Raise _ => []
  end.

(** The requests a call of the tool [name] sends to the service [svc]:
    for a listing tool the list request and the detail requests for what
    this very listing answered, for [get_email_details] the one detail
    request, for any other name none. *)
Definition tool_requests (svc : Service) (name : str) (arguments : dict pyval)
  : list request :=
  if str_eqb name (lit "get_recent_emails") then
    let count := dict_get arguments (lit "count") (VInt 5) in
    ReqList None count
    :: fetches (messages_list svc None count) (fun l => py_slice_to l count)
  else if str_eqb name (lit "get_unread_emails") then
    let count := dict_get arguments (lit "count") (VInt 10) in
    ReqList (Some is_unread) count
    :: fetches (messages_list svc (Some is_unread) count) Ok
  else if str_eqb name (lit "search_emails") then
    let query := dict_get arguments (lit "query") (VStr []) in
    let count := dict_get arguments (lit "count") (VInt 10) in
    ReqList (Some query) count
    :: fetches (messages_list svc (Some query) count) Ok
  else if str_eqb name (lit "get_email_details") then
    [ReqGet (dict_get arguments (lit "message_id") (VStr []))]
  else [].

(** The exception [_initialize_gmail] raises for the failure [e]. *)
Definition init_error (e : exn) : exn :=
  Exn (lit "Exception") (lit "Erro ao inicializar Gmail: " ++ exc_msg e).

(** The [FileNotFoundError] raised for a missing [credentials.json]. *)
Definition missing_credentials : exn :=
  Exn (lit "FileNotFoundError")
      (lit "Credenciais não encontradas em " ++ credentials_path).

(** The state [s'] in which [_initialize_gmail] returns from [s]. *)
Definition init_returned (env : Env) (s s' : server) : Prop :=
  exists c svc,
    build env c = Ok svc
    /\ service s' = Some svc
    /\ trace s' = trace s
    /\ ((token_file s = Some (Ok c) /\ valid c = true
         /\ token_file s' = token_file s)
        \/ ((exists c0,
               token_file s = Some (Ok c0) /\ valid c0 = false
               /\ expired c0 = true /\ has_refresh_token c0 = true
               /\ refresh env c0 = Ok c)
            /\ save_token env c = Ok tt
            /\ token_file s' = Some (Ok c))
        \/ ((token_file s = None
             \/ exists c0,
                  token_file s = Some (Ok c0) /\ valid c0 = false
                  /\ (expired c0 && has_refresh_token c0) = false)
            /\ credentials_file env = true
            /\ run_flow env = Ok c
            /\ save_token env c = Ok tt
            /\ token_file s' = Some (Ok c))).

(** The exception [e] and the state [s'] with which [_initialize_gmail]
    raises from [s]. *)
Definition init_raised (env : Env) (s : server) (e : exn) (s' : server) : Prop :=
  (exists cause, e = init_error cause)
  /\ service s' = service s
  /\ trace s' = trace s
  /\ (token_file s' = token_file s
      \/ (exists c, token_file s' = Some (Ok c) /\ save_token env c = Ok tt)
      \/ (exists c cause unreadable,
            save_token env c = Raise cause
            /\ torn_token env c = Some unreadable
            /\ token_file s' = Some (Raise unreadable))).

(** Expired credentials that can be refreshed, and a host on which the
    refresh gives valid ones and no [credentials.json] exists. *)
Definition expired_token : creds := Creds false true (Some (lit "1//refresh")).

Definition refreshing_host : Env :=
  MkEnv (fun _ => Ok valid_token) false
        (Raise (Exn (lit "FileNotFoundError") (lit "credentials/credentials.json")))
        (fun _ => Ok tt) (fun _ => None)
        (fun _ => Ok three_messages).

(** A host with [credentials.json] whose disk is full: the token file is
    opened and the dump into it fails, which leaves an empty file. *)
Definition disk_full : exn := Exn (lit "OSError") (lit "[Errno 28] No space left on device").

Definition empty_pickle : exn := Exn (lit "EOFError") (lit "Ran out of input").

Definition full_disk_host : Env :=
  MkEnv (fun c => Ok c) true (Ok valid_token)
        (fun _ => Raise disk_full) (fun _ => Some empty_pickle)
        (fun _ => Ok three_messages).

End Notion.

(** ** The stand-alone test of the client *)

Module ClientTest.

Import Client.










End ClientTest.

(** ** Notions for the properties of the client *)

Module ClientNotion.

Import Server Client.

(** The contexts [connect] enters before it returns. *)
Definition entered (ep : Endpoint) : list resource :=
  match stdio_client ep, client_session ep with
  | Raise _, _ => []
  | Ok _, Raise _ => [StdioTransport]
  | Ok _, Ok _ => [SessionContext; StdioTransport]
  end.

(** The session of the client after [connect]. *)
Definition session_after (ep : Endpoint) (c : client) : option Session :=
  match stdio_client ep, client_session ep with
  | Ok _, Ok s => Some s
  | _, _ => session c
  end.

(** What a tool method makes of the result of [call_tool]. *)
Definition decoded (tool : str) (result : CallToolResult) : json :=
  match content result with
  | [] => empty_response
  | block :: _ =>
    match text block with
    | JsonText v => v
    | RawText _ err =>
      error_payload (lit "Erro ao chamar " ++ tool ++ lit ": " ++ exc_msg err)
    end
  end.

(** The handler the dispatcher runs for a call of a tool method. *)
Definition handler_of (r : tool_request) : M json :=
  match r with
  | GetRecent count => _get_recent_emails count
  | GetUnread count => _get_unread_emails count
  | Search query count => _search_emails query count
  | GetDetails message_id => _get_email_details message_id
  end.

(** What a session gives back when the blocks of the dispatcher, or its
    exception, come through unchanged. *)
Definition transported (r : res (list TextContent)) : res CallToolResult :=
  match r with
  | Ok blocks => Ok (MkResult blocks)
  | Raise e => Raise e
  end.

(** A session that answers with two blocks, and the client connected to
    a session. *)
Definition two_blocks : Session :=
  MkSession (Ok tt) (Ok [])
    (fun _ _ =>
       Ok (MkResult [ MkTextContent (lit "text") (JsonText (JInt 1));
                      MkTextContent (lit "text") (JsonText (JInt 2)) ])).

Definition connected_to (s : Session) : client :=
  MkClient Scenario.script (Some s) [SessionContext; StdioTransport] true.


(** A session served by the server in the state [s]: a call goes through
    the handler the SDK registered, and its blocks come back. *)
Definition served_by (message : Tool -> dict pyval -> str)
    (plain : str -> wire_text) (env : Env) (s : server) : Session :=
  MkSession (Ok tt) (Ok handle_list_tools)
    (fun name arguments =>
       match fst (Sdk.call_tool_handler message plain env name (Some arguments) s) with
       | Ok result => Ok (MkResult (Sdk.result_content result))
       | Raise e => Raise e
       end).



End ClientNotion.

(** ** The agent: [src/agents/gmail_agent.py] *)

Module Agent.

Definition nl : str := [10].

(** [p] is a prefix of [s]. *)
Fixpoint starts_with (p s : str) : bool :=
  match p, s with
  | [], _ => true
  | x :: p', y :: s' => (x =? y) && starts_with p' s'
  | _ :: _, [] => false
  end.

(** [needle in hay], for two [str]. *)
Fixpoint contains (needle hay : str) : bool :=
  starts_with needle hay
  || match hay with
     | [] => false
     | _ :: rest => contains needle rest
     end.

(** A row of the e-mail table and the dictionary [gmail_data], with the
    keys the code gives them. *)
Record email_row := Row { e_from : str; e_subject : str; e_date : str }.

Record gmail_data := Data
  { g_count : Z; g_emails : list email_row; g_message : option str }.

(** [AgentState]; [messages] stays the empty list and is left out, and
    [gmail_data] is [None] while it is the empty dictionary. *)
Record AgentState := State
  { user_query : str;
    intent : str;
    agent_data : option gmail_data;
    formatted_response : str }.

Definition with_intent (st : AgentState) (i : str) : AgentState :=
  State (user_query st) i (agent_data st) (formatted_response st).

Definition with_data (st : AgentState) (d : gmail_data) : AgentState :=
  State (user_query st) (intent st) (Some d) (formatted_response st).

Definition with_response (st : AgentState) (r : str) : AgentState :=
  State (user_query st) (intent st) (agent_data st) r.

Section Lower.

(** [str.lower()] of the standard library, over all of Unicode. *)
Variable py_lower : str -> str.

(** [analyze_intent] *)
Definition analyze_intent (st : AgentState) : AgentState :=
  let query := py_lower (user_query st) in
  with_intent st
    (if contains (lit "últimos") query || contains (lit "recentes") query
     then lit "recent_emails"
     else if contains (lit "não lidos") query || contains (lit "unread") query
     then lit "unread_emails"
     else if contains (lit "de:") query || contains (lit "from:") query
     then lit "search_by_sender"
     else if contains (lit "assunto") query || contains (lit "subject:") query
     then lit "search_by_subject"
     else lit "general_search").

End Lower.

(** [mock_gmail_data] *)
Definition mock_gmail_data : dict gmail_data :=
  [ (lit "recent_emails",
     Data 5
       [ Row (lit "joão@example.com") (lit "Reunião amanhã") (lit "2025-09-13");
         Row (lit "maria@example.com") (lit "Relatório mensal") (lit "2025-09-12") ]
       None);
    (lit "unread_emails",
     Data 3
       [ Row (lit "sistema@bank.com") (lit "Extrato disponível") (lit "2025-09-13") ]
       None) ].

(** [search_gmail] *)
Definition search_gmail (st : AgentState) : AgentState :=
  with_data st
    (match dict_find mock_gmail_data (intent st) with
     | Some d => d
     | None => Data 0 [] (Some (lit "Nenhum email encontrado"))
     end).

(** The three lines [format_response] writes for an e-mail. *)
Definition email_lines (e : email_row) : str :=
  lit "• **De:** " ++ e_from e ++ nl
  ++ lit "  **Assunto:** " ++ e_subject e ++ nl
  ++ lit "  **Data:** " ++ e_date e ++ nl ++ nl.

(** [format_response]; reading ["count"] in the empty dictionary raises. *)
Definition format_response (st : AgentState) : res AgentState :=
  match agent_data st with
  | None => Raise (Exn (lit "KeyError") (lit "'count'"))
  | Some d =>
    Ok (with_response st
          (if (g_count d =? 0)%Z
           then lit "Não encontrei emails com esses critérios."
           else
             fold_left (fun response e => response ++ email_lines e)
               (g_emails d)
               (lit "Encontrei " ++ str_of_Z (g_count d) ++ lit " email(s):"
                ++ nl ++ nl)))
  end.

(** [GmailAgent.process_query]: the compiled graph runs [analyze], then
    [search], then [format]. *)
Definition process_query (py_lower : str -> str) (user_query : str) : res str :=
  let initial_state := State user_query [] None [] in
  rbind (format_response (search_gmail (analyze_intent py_lower initial_state)))
        (fun result => Ok (formatted_response result)).

(** The two answers read off the table, and the answer without e-mails. *)
Definition recent_answer : str :=
  lit "Encontrei 5 email(s):" ++ nl ++ nl
  ++ lit "• **De:** joão@example.com" ++ nl
  ++ lit "  **Assunto:** Reunião amanhã" ++ nl
  ++ lit "  **Data:** 2025-09-13" ++ nl ++ nl
  ++ lit "• **De:** maria@example.com" ++ nl
  ++ lit "  **Assunto:** Relatório mensal" ++ nl
  ++ lit "  **Data:** 2025-09-12" ++ nl ++ nl.

Definition unread_answer : str :=
  lit "Encontrei 3 email(s):" ++ nl ++ nl
  ++ lit "• **De:** sistema@bank.com" ++ nl
  ++ lit "  **Assunto:** Extrato disponível" ++ nl
  ++ lit "  **Data:** 2025-09-13" ++ nl ++ nl.

Definition no_email_answer : str :=
  lit "Não encontrei emails com esses critérios.".

(** The query asks for recent, or else for unread, e-mails. *)
Definition asks_recent (query : str) : bool :=
  contains (lit "últimos") query || contains (lit "recentes") query.

Definition asks_unread (query : str) : bool :=
  contains (lit "não lidos") query || contains (lit "unread") query.

End Agent.

(** ** The language-model client: [src/llm/ollama_client.py] *)

Module Ollama.

(** What [requests.post(url, json=payload, timeout=120)],
    [raise_for_status()] and [response.json()] come to: a JSON object, an
    exception of a class below [RequestException] (no connection, a
    timeout, an error status, a body that is no JSON), or another
    exception. *)
Inductive outcome :=
| Replied (result : dict json)
| RequestFailed (e : exn)
| OtherFailure (e : exn).

(** [OllamaClient], by its three attributes. *)
Record client := MkOllama { base_url : str; model : str; context : json }.

(** [OllamaClient.__init__] with its defaults. *)
Definition new_client : client :=
  MkOllama (lit "http://localhost:11434") (lit "llama3.1:8b") (JArr []).

Definition request_url (c : client) : str := base_url c ++ lit "/api/generate".

Definition request_payload (c : client) (prompt : str) (stream : bool) : json :=
  JObj [ (lit "model", JStr (model c));
         (lit "prompt", JStr prompt);
         (lit "stream", JBool stream);
         (lit "context", context c) ].

Section Http.

(** The server behind [base_url], by what it makes of a request. *)
Variable post : str -> json -> outcome.

(** [str(v)] of a JSON-shaped value that is no [str]. *)
Variable py_repr : json -> str.

(** [OllamaClient.generate] *)
Definition generate (prompt : str) (stream : bool) (c : client)
  : res (dict json) * client :=
  match post (request_url c) (request_payload c prompt stream) with
  | Replied result =>
    (Ok result,
     match dict_find result (lit "context") with
     | Some ctx => MkOllama (base_url c) (model c) ctx
     | None => c
     end)
  | RequestFailed e =>
    (Ok [(lit "error", JStr (lit "Erro na API Ollama: " ++ exc_msg e))], c)
  | OtherFailure e => (Raise e, c)
  end.

(** What an f-string writes for a JSON-shaped value. *)
Definition format_json (v : json) : str :=
  match v with
  | JStr s => s
  | _ => py_repr v
  end.

(** [OllamaClient.chat] *)
Definition chat (message : str) (c : client) : res json * client :=
  match generate message false c with
  | (Ok result, c') =>
    (Ok (match dict_find result (lit "error") with
         | Some err => JStr (lit "Erro: " ++ format_json err)
         | None => dict_get result (lit "response") (JStr (lit "Sem resposta"))
         end),
     c')
  | (Raise e, c') => (Raise e, c')
  end.

(** A conversation: [chat] on each message in turn, as the module's own
    test does with two; an exception ends it. *)
Fixpoint conversation (messages : list str) (c : client)
  : res (list json) * client :=
  match messages with
  | [] => (Ok [], c)
  | message :: rest =>
    match chat message c with
    | (Ok answer, c') =>
      match conversation rest c' with
      | (Ok answers, c'') => (Ok (answer :: answers), c'')
      | (Raise e, c'') => (Raise e, c'')
      end
    | (Raise e, c') => (Raise e, c')
    end
  end.

End Http.

(** [OllamaClient.reset_context] *)
Definition reset_context (c : client) : client :=
  MkOllama (base_url c) (model c) (JArr []).

(** A server that is down, and one that answers with a context. *)
Definition server_down : str -> json -> outcome :=
  fun _ _ => RequestFailed (Exn (lit "ConnectionError") (lit "Connection refused")).

Definition answering : str -> json -> outcome :=
  fun _ _ =>
    Replied [ (lit "response", JStr (lit "Olá"));
              (lit "context", JArr [JInt 1; JInt 2]) ].

End Ollama.
(** * Properties *)

(** ** Text *)

Module TextFacts.

Lemma str_eqb_refl (a : str) : str_eqb a a = true.
Proof.
  induction a as [|x a IH]; simpl; [reflexivity|].
  now rewrite N.eqb_refl, IH.
Qed.

Lemma str_eqb_eq (a b : str) : str_eqb a b = true <-> a = b.
Proof.
  split.
  - revert b; induction a as [|x a IH]; intros [|y b] H; simpl in H;
      try discriminate; [reflexivity|].
    apply andb_true_iff in H as [Hx Hr].
    apply N.eqb_eq in Hx. apply IH in Hr. now subst.
  - intros ->. apply str_eqb_refl.
Qed.

Lemma str_eqb_neq (a b : str) : a <> b -> str_eqb a b = false.
Proof.
  intros H. destruct (str_eqb a b) eqn:E; [|reflexivity].
  apply str_eqb_eq in E. contradiction.
Qed.

Lemma lstrip_clean_head (s : str) : clean_head (lstrip s).
Proof.
  induction s as [|c r IH]; simpl; [exact I|].
  destruct (isspace c) eqn:E; [exact IH | exact E].
Qed.

Lemma lstrip_fixed (s : str) : clean_head s -> lstrip s = s.
Proof.
  destruct s as [|c r]; simpl; [reflexivity|].
  now intros ->.
Qed.

Lemma lstrip_suffix (s : str) : exists w, s = w ++ lstrip s.
Proof.
  induction s as [|c r [w Hw]]; simpl.
  - now exists [].
  - destruct (isspace c).
    + exists (c :: w). simpl. now rewrite <- Hw.
    + now exists [].
Qed.

Lemma rstrip_prefix (s : str) : exists w, s = rstrip s ++ w.
Proof.
  unfold rstrip. destruct (lstrip_suffix (rev s)) as [w Hw].
  exists (rev w).
  rewrite <- rev_app_distr, <- Hw. now rewrite rev_involutive.
Qed.

Lemma rstrip_clean_head (s : str) : clean_head s -> clean_head (rstrip s).
Proof.
  intros H. destruct (rstrip_prefix s) as [w Hw].
  destruct (rstrip s) as [|c r]; [exact I|].
  rewrite Hw in H. exact H.
Qed.

Lemma rstrip_idem (s : str) : rstrip (rstrip s) = rstrip s.
Proof.
  unfold rstrip. rewrite rev_involutive.
  now rewrite (lstrip_fixed _ (lstrip_clean_head _)).
Qed.

(** Trimming twice is trimming once. *)
Lemma strip_idem (s : str) : strip (strip s) = strip s.
Proof.
  unfold strip.
  rewrite (lstrip_fixed (rstrip (lstrip s))).
  - apply rstrip_idem.
  - apply rstrip_clean_head, lstrip_clean_head.
Qed.

End TextFacts.

Import TextFacts.

(** ** MIME body extraction *)

Module MimeFacts.

Local Open Scope res_scope.

(** Induction over a part and the parts below it. *)
Section PartInduction.

Variable P : part -> Prop.
Hypothesis on_leaf : forall mt hs d, P (Part mt hs d None).
Hypothesis on_node :
  forall mt hs d children, Forall P children -> P (Part mt hs d (Some children)).

Fixpoint part_induction (p : part) : P p :=
  match p with
  | Part mt hs d None => on_leaf mt hs d
  | Part mt hs d (Some children) =>
    on_node mt hs d children
      ((fix all (l : list part) : Forall P l :=
          match l with
          | [] => Forall_nil P
          | c :: r => Forall_cons c (part_induction c) (all r)
          end) children)
  end.

End PartInduction.

Lemma extract_body_unfold mt hs data ps :
  _extract_body (Part mt hs data ps) =
  (body <-
     match ps with
     | Some children => scan_parts _extract_body children
     | None =>
       if str_eqb mt text_plain then
         match data with
         | Some d => decode_data d
         | None => Ok []
         end
       else Ok []
     end ;;
   Ok (strip body)).
Proof. reflexivity. Qed.

(** What [_extract_body] returns is trimmed. *)
Lemma extract_body_stripped (p : part) (b : str) :
  _extract_body p = Ok b -> strip b = b.
Proof.
  destruct p as [mt hs data ps]. rewrite extract_body_unfold.
  match goal with |- (rbind ?x _) = _ -> _ => destruct x as [body|e] end;
    simpl; intros H; inversion H.
  apply strip_idem.
Qed.

Lemma strip_nil : strip [] = [].
Proof. reflexivity. Qed.

(** The loop of the code, trimmed at the end, is the examination of the
    children, once the recursive calls agree. *)
Lemma scan_parts_examine (l : list part) :
  Forall (fun p => _extract_body p = first_plain_leaf p) l ->
  (body <- scan_parts _extract_body l ;; Ok (strip body)) =
  examine nonplain_with_parts first_plain_leaf l.
Proof.
  induction 1 as [|c rest Hc _ IH]; [reflexivity|].
  simpl. unfold plain_data, nonplain_with_parts, has_parts.
  destruct (str_eqb (mimeType c) text_plain) eqn:Emt; simpl.
  - destruct (body_data c) as [d|]; [|exact IH].
    unfold decode_trim. reflexivity.
  - destruct (parts c) as [sub|]; [|exact IH].
    rewrite <- Hc.
    destruct (_extract_body c) as [b|e] eqn:Eb; [|reflexivity].
    simpl. destruct b as [|x b']; simpl; [exact IH|].
    now rewrite (extract_body_stripped _ _ Eb).
Qed.

Lemma extract_body_refines (p : part) : _extract_body p = first_plain_leaf p.
Proof.
  induction p as [mt hs d | mt hs d children IH] using part_induction.
  - rewrite extract_body_unfold. unfold first_plain_leaf. simpl.
    unfold plain_data. simpl.
    destruct (str_eqb mt text_plain); [|reflexivity].
    destruct d as [d|]; reflexivity.
  - rewrite extract_body_unfold.
    now rewrite scan_parts_examine.
Qed.

(** On a regular payload the two readings of "recurse into a child with
    sub-parts" select the same children. *)
Lemma examine_regular (l : list part) :
  Forall (fun p => regular p = true ->
                   spec_extract_body p = first_plain_leaf p) l ->
  forallb (fun c => negb (plain_shell c) && regular c) l = true ->
  examine has_parts spec_extract_body l =
  examine nonplain_with_parts first_plain_leaf l.
Proof.
  induction 1 as [|c rest Hc _ IH]; [reflexivity|].
  simpl. intros Hreg.
  apply andb_true_iff in Hreg as [Hhead Hrest].
  apply andb_true_iff in Hhead as [Hshell Hregc].
  specialize (IH Hrest). specialize (Hc Hregc).
  unfold plain_shell in Hshell. unfold plain_data, nonplain_with_parts.
  destruct (str_eqb (mimeType c) text_plain); simpl in *.
  - destruct (body_data c) as [d|]; [reflexivity|].
    simpl in Hshell. apply negb_true_iff in Hshell.
    now rewrite Hshell.
  - destruct (has_parts c); [|exact IH].
    rewrite Hc. destruct (first_plain_leaf c) as [[|x r]|e]; simpl;
      [exact IH | reflexivity | reflexivity].
Qed.

Lemma spec_agrees_on_regular (p : part) :
  regular p = true -> spec_extract_body p = first_plain_leaf p.
Proof.
  induction p as [mt hs d | mt hs d children IH] using part_induction.
  - reflexivity.
  - intros Hreg. apply (examine_regular children IH Hreg).
Qed.

Lemma scan_parts_one_part mt hs d0 (l : list part) :
  Forall (fun c => forall b, _extract_body c = Ok b -> from_one_part c b) l ->
  forall pre body,
    scan_parts _extract_body l = Ok body ->
    from_one_part (Part mt hs d0 (Some (pre ++ l))) (strip body).
Proof.
  induction 1 as [|c rest Hc _ IH]; intros pre body Hscan.
  - inversion Hscan. now left.
  - assert (Hnext : forall body',
              scan_parts _extract_body rest = Ok body' ->
              from_one_part (Part mt hs d0 (Some (pre ++ c :: rest))) (strip body')).
    { intros body' H'.
      replace (pre ++ c :: rest) with ((pre ++ [c]) ++ rest)
        by (now rewrite <- app_assoc).
      now apply IH. }
    assert (Hin : In c (pre ++ c :: rest)) by (apply in_elt).
    simpl in Hscan.
    destruct (str_eqb (mimeType c) text_plain) eqn:Emt.
    + destruct (body_data c) as [d|] eqn:Ed; [|now apply Hnext].
      right. exists c, d. repeat split.
      * eapply within_child; [exact Hin | apply within_self].
      * unfold plain_data. now rewrite Emt.
      * unfold decode_trim. now rewrite Hscan.
    + destruct (parts c) as [sub|]; [|now apply Hnext].
      destruct (_extract_body c) as [b|e] eqn:Eb; [|discriminate].
      simpl in Hscan. destruct (truthy b) eqn:Et; [|now apply Hnext].
      inversion Hscan; subst body.
      rewrite (extract_body_stripped _ _ Eb).
      destruct (Hc b eq_refl) as [Hnil | [q [d [Hq [Hd Hdec]]]]]; [now left|].
      right. exists q, d. repeat split; try assumption.
      eapply within_child; eassumption.
Qed.

Lemma extract_body_one_part (p : part) :
  forall b, _extract_body p = Ok b -> from_one_part p b.
Proof.
  induction p as [mt hs d | mt hs d children IH] using part_induction;
    intros b; rewrite extract_body_unfold.
  - destruct (str_eqb mt text_plain) eqn:Emt.
    + destruct d as [d|]; simpl.
      * destruct (decode_data d) as [s|e] eqn:Ed; simpl; intros H; inversion H.
        right. exists (Part mt hs (Some d) None), d. repeat split.
        -- apply within_self.
        -- unfold plain_data. simpl. now rewrite Emt.
        -- unfold decode_trim. now rewrite Ed.
      * intros H; inversion H. now left.
    + simpl. intros H; inversion H. now left.
  - destruct (scan_parts _extract_body children) as [body|e] eqn:Es; simpl;
      intros H; inversion H.
    apply (scan_parts_one_part mt hs d children IH [] body Es).
Qed.

(** C2, as amended: for every payload, [_extract_body] computes the
    first-leaf algorithm in which the scan of the children decodes a
    [text/plain] child carrying inline data and stops, recurses into a
    child that is not [text/plain] and has sub-parts and stops on a
    non-empty result, and otherwise moves to the next child; a payload
    without parts is decoded when it is [text/plain] with data.  This is
    the algorithm as the specification words it on every payload in
    which no [text/plain] part without inline data has sub-parts.  The
    result is empty or the URL-safe base64, UTF-8 decoding, trimmed, of
    the data of one [text/plain] part of the payload. *)
Theorem extract_body_first_plain_leaf (p : part) :
  _extract_body p = first_plain_leaf p
  /\ (regular p = true -> _extract_body p = spec_extract_body p)
  /\ (forall b, _extract_body p = Ok b -> from_one_part p b).
Proof.
  split; [apply extract_body_refines|]. split.
  - intros Hreg. rewrite extract_body_refines.
    symmetry. now apply spec_agrees_on_regular.
  - apply extract_body_one_part.
Qed.

(** A run of the theorem on the second example of the specification. *)
Lemma extract_body_first_plain_leaf_witness :
  _extract_body nested_alternative = first_plain_leaf nested_alternative
  /\ _extract_body nested_alternative = spec_extract_body nested_alternative
  /\ from_one_part nested_alternative (lit "i").
Proof.
  destruct (extract_body_first_plain_leaf nested_alternative) as [H1 [H2 H3]].
  split; [exact H1|]. split; [apply H2; reflexivity|].
  apply H3. vm_compute. reflexivity.
Defined.

(** C2, the claim as worded fails: a [text/plain] child without inline
    data is not recursed into, although it has sub-parts. *)
Lemma extract_body_skips_plain_container :
  _extract_body plain_container = Ok []
  /\ spec_extract_body plain_container = Ok (lit "Hello")
  /\ _extract_body plain_container <> spec_extract_body plain_container.
Proof.
  assert (H1 : _extract_body plain_container = Ok []) by (vm_compute; reflexivity).
  assert (H2 : spec_extract_body plain_container = Ok (lit "Hello"))
    by (vm_compute; reflexivity).
  repeat split; trivial.
  rewrite H1, H2. vm_compute. discriminate.
Qed.

(** C3, as amended: a single-part [text/plain] payload with data
    ["SGVsbG8="] yields ["Hello"]; a multipart payload whose first child
    is a [multipart/alternative] holding only a [text/html] leaf and
    whose second child is [text/plain] with data ["Cmk="] yields ["i"]:
    the data decodes to a line feed followed by [i], and the line feed is
    trimmed. *)
Theorem extract_body_examples :
  (forall hs,
     _extract_body (Part text_plain hs (Some (lit "SGVsbG8=")) None) =
     Ok (lit "Hello"))
  /\ (forall mt hs d h1 d1 h2 d2 h3 sub,
        _extract_body
          (Part mt hs d
             (Some [ Part (lit "multipart/alternative") h1 d1
                       (Some [Part (lit "text/html") h2 d2 None]);
                     Part text_plain h3 (Some (lit "Cmk=")) sub ])) =
        Ok (lit "i")).
Proof.
  split.
  - intros hs. rewrite extract_body_unfold.
    change (str_eqb text_plain text_plain) with true. cbv iota.
    change (decode_data (lit "SGVsbG8=")) with (Ok (lit "Hello")).
    reflexivity.
  - intros mt hs d h1 d1 h2 d2 h3 sub.
    rewrite extract_body_unfold. cbn [scan_parts mimeType parts body_data].
    change (str_eqb (lit "multipart/alternative") text_plain) with false.
    cbv iota. rewrite extract_body_unfold.
    cbn [scan_parts mimeType parts body_data].
    change (str_eqb (lit "text/html") text_plain) with false.
    change (str_eqb text_plain text_plain) with true.
    cbv iota.
    change (decode_data (lit "Cmk=")) with (Ok [10; 105]).
    reflexivity.
Qed.

(** C3, the claim as worded fails: the second message does not yield
    ["oi"], which would be the data ["b2k="]. *)
Lemma extract_body_second_example_is_not_oi :
  _extract_body nested_alternative = Ok (lit "i")
  /\ _extract_body nested_alternative <> Ok (lit "oi")
  /\ decode_data (lit "b2k=") = Ok (lit "oi").
Proof.
  assert (H : _extract_body nested_alternative = Ok (lit "i"))
    by (vm_compute; reflexivity).
  split; [exact H|]. split.
  - rewrite H. vm_compute. discriminate.
  - vm_compute. reflexivity.
Qed.

End MimeFacts.

(** ** The server *)

Module ServerFacts.

Import Server Expect Scenario.

Local Open Scope eff_scope.

Lemma sent_sent s a b : sent (sent s a) b = sent s (a ++ b).
Proof. unfold sent; simpl. now rewrite <- app_assoc. Qed.

Lemma sent_nil s : sent s [] = s.
Proof. destruct s; unfold sent; simpl. now rewrite app_nil_r. Qed.

Lemma is_email_email_json v m hs body : is_email (email_json v m hs body) = true.
Proof. reflexivity. Qed.

Lemma is_email_error msg : is_email (error_payload msg) = false.
Proof. reflexivity. Qed.

Lemma fetched_is_email svc id e : fetched svc id = Some e -> is_email e = true.
Proof.
  unfold fetched.
  destruct (messages_get svc (VStr id)) as [m|]; [|discriminate].
  destruct (_extract_body (payload m)); [|discriminate].
  intros H; inversion H. apply is_email_email_json.
Qed.

(** One detail fetch on a running server: the request goes out, and the
    result is the e-mail when there is one and an error payload
    otherwise. *)
Lemma get_email_details_run svc s id :
  service s = Some svc ->
  exists j,
    _get_email_details (VStr id) s = (Ok j, sent s [get_request id])
    /\ match fetched svc id with
       | Some e => j = e
       | None => is_email j = false
       end.
Proof.
  intros Hs.
  cbv [_get_email_details try_ bind the_service get_service send lift ret
       raise fetched].
  rewrite Hs. cbv beta iota. fold (sent s [get_request id]). unfold get_request.
  destruct (messages_get svc (VStr id)) as [m|e].
  - destruct (_extract_body (payload m)) as [body|e].
    + eexists; split; reflexivity.
    + eexists; split; [reflexivity|]. apply is_email_error.
  - eexists; split; [reflexivity|]. apply is_email_error.
Qed.

(** The loop of the listing tools keeps the fetched e-mails, in the order
    of the identifiers, and sends one request per identifier. *)
Lemma fetch_emails_run svc ids : forall s,
  service s = Some svc ->
  fetch_emails ids s =
  (Ok (filter_map (fetched svc) ids), sent s (map get_request ids)).
Proof.
  induction ids as [|id rest IH]; intros s Hs.
  - simpl. unfold ret. now rewrite sent_nil.
  - simpl fetch_emails. unfold bind at 1.
    destruct (get_email_details_run svc s id Hs) as [j [Hrun Hj]].
    rewrite Hrun. unfold bind at 1.
    rewrite (IH (sent s [get_request id])) by exact Hs.
    unfold ret. rewrite sent_sent. simpl.
    destruct (fetched svc id) as [e|] eqn:Ef.
    + subst j. now rewrite (fetched_is_email _ _ _ Ef).
    + now rewrite Hj.
Qed.

Lemma filter_map_length {A B} (f : A -> option B) l :
  (List.length (filter_map f l) <= List.length l)%nat.
Proof.
  induction l as [|a r IH]; simpl; [lia|].
  destruct (f a); simpl; lia.
Qed.

Lemma slice_to_nonneg {A} (l : list A) (c : Z) :
  (0 <= c)%Z -> slice_to l c = firstn (Z.to_nat c) l.
Proof.
  intros H. unfold slice_to.
  destruct (Z.ltb_spec c 0); [lia | reflexivity].
Qed.

(** C4, as amended: for every count that is not negative and every
    listing of the backend, [_get_recent_emails] sends the list request,
    fetches the first [count] listed identifiers in the order listed, and
    returns [{tool: "get_recent_emails", success: true, count, emails}]
    where [emails] holds exactly the fetched messages, in that order, at
    most [count] of them, and the [count] field is their number. *)
Theorem recent_emails_payload svc s c result :
  service s = Some svc ->
  (0 <= c)%Z ->
  messages_list svc None (VInt c) = Ok result ->
  _get_recent_emails (VInt c) s =
    (Ok (listing_payload (lit "get_recent_emails")
           (filter_map (fetched svc) (firstn (Z.to_nat c) (listed result)))),
     sent s (ReqList None (VInt c)
             :: map get_request (firstn (Z.to_nat c) (listed result))))
  /\ (Z.of_nat (List.length
         (filter_map (fetched svc) (firstn (Z.to_nat c) (listed result)))) <= c)%Z.
Proof.
  intros Hs Hc Hlist. split.
  - cbv [_get_recent_emails try_ bind the_service get_service send lift ret
         py_slice_to].
    rewrite Hs, Hlist. cbv beta iota.
    rewrite slice_to_nonneg by exact Hc.
    fold (sent s [ReqList None (VInt c)]).
    rewrite (fetch_emails_run svc) by exact Hs.
    rewrite sent_sent. reflexivity.
  - pose proof (filter_map_length (fetched svc)
                  (firstn (Z.to_nat c) (listed result))) as H1.
    pose proof (firstn_le_length (Z.to_nat c) (listed result)) as H2.
    lia.
Qed.

(** A run of the theorem: two of three listed messages are asked for and
    the second cannot be fetched. *)
Lemma recent_emails_payload_witness :
  _get_recent_emails (VInt 2) (running second_fails) =
    (Ok (listing_payload (lit "get_recent_emails")
           (filter_map (fetched second_fails) [lit "m1"; lit "m2"])),
     sent (running second_fails)
          [ReqList None (VInt 2); get_request (lit "m1"); get_request (lit "m2")])
  /\ (Z.of_nat (List.length
         (filter_map (fetched second_fails) [lit "m1"; lit "m2"])) <= 2)%Z.
Proof.
  apply (recent_emails_payload second_fails (running second_fails) 2
           (Some [lit "m1"; lit "m2"; lit "m3"]));
    [reflexivity | lia | reflexivity].
Defined.

(** C4, the claim as worded fails for a negative count: [messages[:-1]]
    drops the last listed message only, so two e-mails come back where at
    most [-1] were claimed. *)
Lemma recent_emails_negative_count :
  _get_recent_emails (VInt (-1)) (running three_messages) =
    (Ok (listing_payload (lit "get_recent_emails")
           (filter_map (fetched three_messages) [lit "m1"; lit "m2"])),
     sent (running three_messages)
          [ReqList None (VInt (-1)); get_request (lit "m1"); get_request (lit "m2")])
  /\ List.length (filter_map (fetched three_messages) [lit "m1"; lit "m2"]) = 2%nat
  /\ ~ (Z.of_nat (List.length
           (filter_map (fetched three_messages) [lit "m1"; lit "m2"])) <= -1)%Z.
Proof.
  split; [|split].
  - vm_compute. reflexivity.
  - vm_compute. reflexivity.
  - vm_compute. intros H. apply H. reflexivity.
Qed.

(** C5, as amended: for every query string, the empty one included,
    [_search_emails] sends the list request with that very string as [q],
    whatever the remote makes of it, and when the listing succeeds it
    returns [{tool: "search_emails", query, success: true, count,
    emails}], the [query] field being the caller's query again. *)
Theorem search_emails_verbatim svc s q count :
  service s = Some svc ->
  (exists rest,
     trace (snd (_search_emails (VStr q) count s)) =
     trace s ++ ReqList (Some (VStr q)) count :: rest)
  /\ (forall result,
        messages_list svc (Some (VStr q)) count = Ok result ->
        _search_emails (VStr q) count s =
        (Ok (search_payload (VStr q) (filter_map (fetched svc) (listed result))),
         sent s (ReqList (Some (VStr q)) count :: map get_request (listed result)))).
Proof.
  intros Hs.
  assert (Hrun : forall result,
    messages_list svc (Some (VStr q)) count = Ok result ->
    _search_emails (VStr q) count s =
    (Ok (search_payload (VStr q) (filter_map (fetched svc) (listed result))),
     sent s (ReqList (Some (VStr q)) count :: map get_request (listed result)))).
  { intros result Hlist.
    cbv [_search_emails try_ bind the_service get_service send lift ret].
    rewrite Hs, Hlist. cbv beta iota.
    fold (sent s [ReqList (Some (VStr q)) count]).
    rewrite (fetch_emails_run svc) by exact Hs.
    rewrite sent_sent. reflexivity. }
  split; [|exact Hrun].
  destruct (messages_list svc (Some (VStr q)) count) as [result|e] eqn:Hlist.
  - rewrite (Hrun result eq_refl). simpl. eauto.
  - cbv [_search_emails try_ bind the_service get_service send lift ret].
    rewrite Hs, Hlist. simpl. now exists [].
Qed.

(** A run of the theorem on the empty query. *)
Lemma search_emails_verbatim_witness :
  (exists rest,
     trace (snd (_search_emails (VStr []) (VInt 10) (running second_fails))) =
     [] ++ ReqList (Some (VStr [])) (VInt 10) :: rest)
  /\ (forall result,
        Ok (Some [lit "m1"; lit "m2"; lit "m3"]) = Ok result ->
        _search_emails (VStr []) (VInt 10) (running second_fails) =
        (Ok (search_payload (VStr []) (filter_map (fetched second_fails) (listed result))),
         sent (running second_fails)
              (ReqList (Some (VStr [])) (VInt 10) :: map get_request (listed result)))).
Proof.
  apply (search_emails_verbatim second_fails (running second_fails) [] (VInt 10)).
  reflexivity.
Defined.

(** C5, the claim as worded fails: the payload of a successful search has
    a fifth field, [query], between [tool] and [success]. *)
Lemma search_payload_has_query_field :
  exists j,
    fst (_search_emails (VStr []) (VInt 10) (running three_messages)) = Ok j
    /\ json_keys j =
       [lit "tool"; lit "query"; lit "success"; lit "count"; lit "emails"]
    /\ json_keys j <> [lit "tool"; lit "success"; lit "count"; lit "emails"].
Proof.
  eexists. split; [vm_compute; reflexivity|].
  split; [vm_compute; reflexivity|].
  vm_compute. discriminate.
Qed.

Lemma keeps_ret {A} (a : A) : keeps_trace (ret a).
Proof. intros s. reflexivity. Qed.

Lemma keeps_raise {A} (e : exn) : keeps_trace (@raise server A e).
Proof. intros s. reflexivity. Qed.

Lemma keeps_lift {A} (r : res A) : keeps_trace (lift r).
Proof. intros s. reflexivity. Qed.

Lemma keeps_bind {A B} (m : M A) (k : A -> M B) :
  keeps_trace m -> (forall a, keeps_trace (k a)) -> keeps_trace (bind m k).
Proof.
  intros Hm Hk s. unfold bind. specialize (Hm s).
  destruct (m s) as [[a|e] s1]; simpl in *; [|exact Hm].
  now rewrite Hk.
Qed.

Lemma keeps_try {A} (m : M A) (h : exn -> M A) :
  keeps_trace m -> (forall e, keeps_trace (h e)) -> keeps_trace (try_ m h).
Proof.
  intros Hm Hh s. unfold try_. specialize (Hm s).
  destruct (m s) as [[a|e] s1]; simpl in *; [exact Hm|].
  now rewrite Hh.
Qed.

Lemma keeps_load_token : keeps_trace load_token.
Proof. intros s. unfold load_token. now destruct (token_file s) as [[c|e]|]. Qed.

Lemma keeps_write_token env c : keeps_trace (write_token env c).
Proof. intros s. unfold write_token. now destruct (save_token env c). Qed.

Lemma keeps_set_service svc : keeps_trace (set_service svc).
Proof. intros s. reflexivity. Qed.

Ltac keeps_trace_step :=
  first
    [ apply keeps_bind; [|intros ?]
    | apply keeps_try; [|intros ?]
    | apply keeps_ret
    | apply keeps_raise
    | apply keeps_lift
    | apply keeps_load_token
    | apply keeps_write_token
    | apply keeps_set_service
    | match goal with
      | |- keeps_trace (match ?x with _ => _ end) => destruct x
      end ].

(** [_initialize_gmail] sends nothing to the mail API. *)
Lemma initialize_keeps_trace env : keeps_trace (_initialize_gmail env).
Proof.
  unfold _initialize_gmail, authorize. repeat keeps_trace_step.
Qed.

Lemma tool_names_eq :
  tool_names =
  [lit "get_recent_emails"; lit "get_unread_emails"; lit "search_emails";
   lit "get_email_details"].
Proof. reflexivity. Qed.

(** The dispatch on a name that is no tool, once past the initialisation. *)
Lemma unknown_tool_run env name arguments s :
  ~ In name tool_names ->
  service s <> None ->
  handle_call_tool env name arguments s =
  (Ok (envelope (error_payload (lit "Ferramenta desconhecida: " ++ name))), s).
Proof.
  rewrite tool_names_eq. cbn [In]. intros Hn Hs.
  cbv [handle_call_tool bind get_service try_].
  destruct (service s) as [svc|]; [|contradiction].
  cbv [ret].
  rewrite !str_eqb_neq by (intros E; apply Hn; rewrite E; tauto).
  reflexivity.
Qed.

(** C6, as amended: when the mail service is up, or is brought up by the
    first call, dispatching a name that is none of the four tools returns
    a one-block envelope around [{error: "Ferramenta desconhecida:
    <name>"}], and nothing is sent to the mail API. *)
Theorem unknown_tool_payload env name arguments s :
  ~ In name tool_names ->
  service s <> None \/ fst (_initialize_gmail env s) = Ok tt ->
  exists s',
    handle_call_tool env name arguments s =
    (Ok (envelope (error_payload (lit "Ferramenta desconhecida: " ++ name))), s')
    /\ trace s' = trace s.
Proof.
  intros Hn Hup.
  destruct (service s) as [svc|] eqn:Hs.
  - exists s. split; [|reflexivity].
    apply unknown_tool_run; [exact Hn | congruence].
  - destruct Hup as [Hup|Hup]; [congruence|].
    pose proof (initialize_keeps_trace env s) as Ht.
    rewrite tool_names_eq in Hn. cbn [In] in Hn.
    cbv [handle_call_tool bind get_service try_]. rewrite Hs.
    destruct (_initialize_gmail env s) as [[u|e] s1]; simpl in Hup, Ht;
      [|discriminate].
    exists s1. split; [|exact Ht].
    cbv [ret].
    rewrite !str_eqb_neq by (intros E; apply Hn; rewrite E; tauto).
    reflexivity.
Qed.

(** A run of the theorem: the first call of a server whose token is valid. *)
Lemma unknown_tool_payload_witness :
  exists s',
    handle_call_tool ready_host (lit "frobnicate") None
                     (new_server (Some (Ok valid_token))) =
    (Ok (envelope (error_payload
                     (lit "Ferramenta desconhecida: " ++ lit "frobnicate"))), s')
    /\ trace s' = trace (new_server (Some (Ok valid_token))).
Proof.
  apply (unknown_tool_payload ready_host (lit "frobnicate") None
           (new_server (Some (Ok valid_token)))).
  - vm_compute. intros [H|[H|[H|[H|[]]]]]; discriminate H.
  - right. reflexivity.
Defined.

(** C6, the claim as worded fails: on a server that is not initialised and
    cannot be, the dispatch of an unknown name raises; and on a running
    server the error text is not ["unknown tool: frobnicate"]. *)
Lemma unknown_tool_raises_without_credentials :
  handle_call_tool no_credentials (lit "frobnicate") None (new_server None) =
    (Raise init_failure, new_server None)
  /\ handle_call_tool ready_host (lit "frobnicate") None (running three_messages) =
     (Ok (envelope (error_payload (lit "Ferramenta desconhecida: frobnicate"))),
      running three_messages)
  /\ lit "Ferramenta desconhecida: frobnicate" <> lit "unknown tool: frobnicate".
Proof.
  split; [vm_compute; reflexivity|].
  split; [vm_compute; reflexivity|].
  vm_compute. discriminate.
Qed.

Lemma try_never_raises {A} (m : M A) (h : exn -> A) :
  never_raises (try_ m (fun e => ret (h e))).
Proof.
  intros s. unfold try_, ret. destruct (m s) as [[a|e] s']; eauto.
Qed.

Lemma get_email_details_never_raises v : never_raises (_get_email_details v).
Proof. apply try_never_raises. Qed.

Lemma get_recent_emails_never_raises c : never_raises (_get_recent_emails c).
Proof. apply try_never_raises. Qed.

Lemma get_unread_emails_never_raises c : never_raises (_get_unread_emails c).
Proof. apply try_never_raises. Qed.

Lemma search_emails_never_raises q c : never_raises (_search_emails q c).
Proof. apply try_never_raises. Qed.

(** Once the service is there, the dispatcher returns an envelope for every
    name and every arguments mapping. *)
Lemma dispatch_returns_when_running env name arguments s :
  service s <> None ->
  exists blocks s', handle_call_tool env name arguments s = (Ok blocks, s').
Proof.
  intros Hs. unfold handle_call_tool.
  unfold bind at 1. unfold bind at 1. unfold get_service.
  destruct (service s) as [svc|]; [|contradiction].
  cbv [ret]. apply try_never_raises.
Qed.

(** An exception of the initialisation leaves the dispatcher as it is. *)
Lemma dispatch_raises_when_init_raises env name arguments s e s1 :
  service s = None ->
  _initialize_gmail env s = (Raise e, s1) ->
  handle_call_tool env name arguments s = (Raise e, s1).
Proof.
  intros Hs Hi. unfold handle_call_tool.
  unfold bind at 1. unfold bind at 1. unfold get_service.
  now rewrite Hs, Hi.
Qed.

(** C1, the failing call: a first [get_recent_emails] on a host without
    credentials.  [_initialize_gmail] raises before the [try] of
    [handle_call_tool] is entered, and the exception leaves the
    dispatcher instead of becoming an error payload. *)
Theorem dispatch_raises_on_failed_init :
  handle_call_tool no_credentials (lit "get_recent_emails")
                   (Some [(lit "count", VInt 5)]) (new_server None) =
  (Raise init_failure, new_server None).
Proof.
  apply dispatch_raises_when_init_raises; [reflexivity|].
  vm_compute. reflexivity.
Qed.

Lemma dict_get_other {V} (d : dict V) (k k' : str) (v default : V) :
  str_eqb k' k = false ->
  dict_get ((k', v) :: d) k default = dict_get d k default.
Proof. intros H. unfold dict_get. simpl. now rewrite H. Qed.

Lemma dict_get_absent {V} (d : dict V) (k : str) (default : V) :
  dict_find d k = None -> dict_get d k default = default.
Proof. intros H. unfold dict_get. now rewrite H. Qed.

Lemma dict_get_head {V} (d : dict V) (k : str) (v default : V) :
  dict_get ((k, v) :: d) k default = v.
Proof. unfold dict_get. simpl. now rewrite str_eqb_refl. Qed.

(** The dispatch of [search_emails] and [get_email_details] on a running
    server, by the handler it calls. *)
Lemma dispatch_search_run env arguments s :
  service s <> None ->
  handle_call_tool env (lit "search_emails") arguments s =
  (let (r, s') :=
     _search_emails (dict_get (or_empty arguments) (lit "query") (VStr []))
                    (dict_get (or_empty arguments) (lit "count") (VInt 10)) s in
   match r with
   | Ok j => (Ok (envelope j), s')
   | Raise e =>
     (Ok (envelope (error_payload
            (lit "Erro ao executar " ++ lit "search_emails" ++ lit ": " ++ exc_msg e))),
      s')
   end).
Proof.
  intros Hs. cbv [handle_call_tool bind get_service try_ ret].
  destruct (service s); [|contradiction].
  change (str_eqb (lit "search_emails") (lit "get_recent_emails")) with false.
  change (str_eqb (lit "search_emails") (lit "get_unread_emails")) with false.
  change (str_eqb (lit "search_emails") (lit "search_emails")) with true.
  cbv iota.
  destruct (_search_emails _ _ s) as [[j|e] s']; reflexivity.
Qed.

Lemma dispatch_details_run env arguments s :
  service s <> None ->
  handle_call_tool env (lit "get_email_details") arguments s =
  (let (r, s') :=
     _get_email_details (dict_get (or_empty arguments) (lit "message_id") (VStr [])) s in
   match r with
   | Ok j => (Ok (envelope j), s')
   | Raise e =>
     (Ok (envelope (error_payload
            (lit "Erro ao executar " ++ lit "get_email_details" ++ lit ": "
             ++ exc_msg e))),
      s')
   end).
Proof.
  intros Hs. cbv [handle_call_tool bind get_service try_ ret].
  destruct (service s); [|contradiction].
  change (str_eqb (lit "get_email_details") (lit "get_recent_emails")) with false.
  change (str_eqb (lit "get_email_details") (lit "get_unread_emails")) with false.
  change (str_eqb (lit "get_email_details") (lit "search_emails")) with false.
  change (str_eqb (lit "get_email_details") (lit "get_email_details")) with true.
  cbv iota.
  destruct (_get_email_details _ s) as [[j|e] s']; reflexivity.
Qed.

(** Every run of [_search_emails] on a running server starts with the list
    request for the query it was given. *)
Lemma search_emails_sends svc s query count :
  service s = Some svc ->
  exists r rest,
    _search_emails query count s =
    (Ok r, sent s (ReqList (Some query) count :: rest)).
Proof.
  intros Hs.
  cbv [_search_emails try_ bind the_service get_service send lift ret].
  rewrite Hs. cbv beta iota.
  fold (sent s [ReqList (Some query) count]).
  destruct (messages_list svc (Some query) count) as [result|e].
  - rewrite (fetch_emails_run svc) by exact Hs.
    rewrite sent_sent. simpl. eauto.
  - eexists. exists []. reflexivity.
Qed.

Lemma get_email_details_sends svc s v :
  service s = Some svc ->
  exists r, _get_email_details v s = (Ok r, sent s [ReqGet v]).
Proof.
  intros Hs.
  cbv [_get_email_details try_ bind the_service get_service send lift ret].
  rewrite Hs. cbv beta iota. fold (sent s [ReqGet v]).
  destruct (messages_get svc v) as [m|e]; [|eauto].
  destruct (_extract_body (payload m)); eauto.
Qed.

(** Decides the comparisons of the dispatcher on a literal tool name. *)
Ltac pick_tool :=
  repeat match goal with
         | |- context [str_eqb (lit ?a) (lit ?b)] =>
           let v := eval vm_compute in (str_eqb (lit a) (lit b)) in
           change (str_eqb (lit a) (lit b)) with v
         end;
  cbv iota.

(** The handler validates nothing: a missing arguments mapping is the
    empty one, and each absent argument is replaced by the default of its
    [dict.get]. *)
Lemma handler_defaults env s args :
  (forall name,
     handle_call_tool env name None s = handle_call_tool env name (Some []) s)
  /\ (dict_find args (lit "count") = None ->
      handle_call_tool env (lit "get_recent_emails") (Some args) s =
      handle_call_tool env (lit "get_recent_emails")
                       (Some ((lit "count", VInt 5) :: args)) s
      /\ handle_call_tool env (lit "get_unread_emails") (Some args) s =
         handle_call_tool env (lit "get_unread_emails")
                          (Some ((lit "count", VInt 10) :: args)) s
      /\ handle_call_tool env (lit "search_emails") (Some args) s =
         handle_call_tool env (lit "search_emails")
                          (Some ((lit "count", VInt 10) :: args)) s)
  /\ (dict_find args (lit "query") = None ->
      In (lit "query") (required_of (lit "search_emails"))
      /\ handle_call_tool env (lit "search_emails") (Some args) s =
         handle_call_tool env (lit "search_emails")
                          (Some ((lit "query", VStr []) :: args)) s
      /\ (service s <> None ->
          exists blocks rest,
            handle_call_tool env (lit "search_emails") (Some args) s =
            (Ok blocks,
             sent s (ReqList (Some (VStr []))
                             (dict_get args (lit "count") (VInt 10)) :: rest))))
  /\ (dict_find args (lit "message_id") = None ->
      In (lit "message_id") (required_of (lit "get_email_details"))
      /\ handle_call_tool env (lit "get_email_details") (Some args) s =
         handle_call_tool env (lit "get_email_details")
                          (Some ((lit "message_id", VStr []) :: args)) s
      /\ (service s <> None ->
          exists blocks,
            handle_call_tool env (lit "get_email_details") (Some args) s =
            (Ok blocks, sent s [ReqGet (VStr [])]))).
Proof.
  split; [reflexivity|]. split; [|split].
  - intros Hc. repeat split; cbv [handle_call_tool or_empty]; pick_tool;
      rewrite ?dict_get_head, ?(dict_get_absent args (lit "count")) by exact Hc;
      rewrite ?dict_get_other by reflexivity; reflexivity.
  - intros Hq. split; [left; reflexivity|]. split.
    + cbv [handle_call_tool or_empty]; pick_tool.
      rewrite dict_get_head, (dict_get_absent args (lit "query")) by exact Hq.
      rewrite dict_get_other by reflexivity. reflexivity.
    + intros Hs. rewrite dispatch_search_run by exact Hs. cbv [or_empty].
      rewrite (dict_get_absent args (lit "query")) by exact Hq.
      destruct (service s) as [svc|] eqn:Esvc; [|contradiction].
      destruct (search_emails_sends svc s (VStr [])
                  (dict_get args (lit "count") (VInt 10)) Esvc)
        as [r [rest Hrun]].
      rewrite Hrun. eauto.
  - intros Hm. split; [left; reflexivity|]. split.
    + cbv [handle_call_tool or_empty]; pick_tool.
      rewrite dict_get_head, (dict_get_absent args (lit "message_id")) by exact Hm.
      reflexivity.
    + intros Hs. rewrite dispatch_details_run by exact Hs. cbv [or_empty].
      rewrite (dict_get_absent args (lit "message_id")) by exact Hm.
      destruct (service s) as [svc|] eqn:Esvc; [|contradiction].
      destruct (get_email_details_sends svc s (VStr []) Esvc) as [r Hrun].
      rewrite Hrun. eauto.
Qed.

(** The tools of [handle_list_tools] as the SDK has them in its cache. *)
Lemma cached_tools :
  (exists d p,
     Sdk.cached_tool (lit "get_recent_emails") =
     Some (MkTool (lit "get_recent_emails") d
             [(lit "count", MkProperty (lit "integer") p (Some (VInt 5)))] []))
  /\ (exists d p,
        Sdk.cached_tool (lit "get_unread_emails") =
        Some (MkTool (lit "get_unread_emails") d
                [(lit "count", MkProperty (lit "integer") p (Some (VInt 10)))] []))
  /\ (exists d p q,
        Sdk.cached_tool (lit "search_emails") =
        Some (MkTool (lit "search_emails") d
                [ (lit "query", MkProperty (lit "string") q None);
                  (lit "count", MkProperty (lit "integer") p (Some (VInt 10))) ]
                [lit "query"]))
  /\ (exists d p,
        Sdk.cached_tool (lit "get_email_details") =
        Some (MkTool (lit "get_email_details") d
                [(lit "message_id", MkProperty (lit "string") p None)]
                [lit "message_id"])).
Proof.
  repeat split; repeat eexists;
    cbv [Sdk.cached_tool handle_list_tools rev app find t_name]; pick_tool;
    reflexivity.
Qed.

Lemma dict_find_other {V} (d : dict V) (k k' : str) (v : V) :
  str_eqb k' k = false -> dict_find ((k', v) :: d) k = dict_find d k.
Proof. intros H. simpl. now rewrite H. Qed.

Lemma dict_find_head {V} (d : dict V) (k : str) (v : V) :
  dict_find ((k, v) :: d) k = Some v.
Proof. simpl. now rewrite str_eqb_refl. Qed.

Lemma forallb_agree {A} (f g : A -> bool) (l : list A) :
  (forall x, In x l -> f x = g x) -> forallb f l = forallb g l.
Proof.
  induction l as [|a l IH]; intros H; [reflexivity|]. cbn [forallb].
  rewrite (H a) by (left; reflexivity).
  rewrite IH by (intros x Hx; apply H; right; exact Hx). reflexivity.
Qed.

(** Adding an integer [count] that was absent changes nothing for the
    validation of a schema whose [count] is an optional integer. *)
Lemma valid_input_with_count tool args c :
  dict_find args (lit "count") = None ->
  (forall p, In (lit "count", p) (t_properties tool) -> p_type p = lit "integer") ->
  (forall k p, In (k, p) (t_properties tool) ->
               k = lit "count" \/ str_eqb (lit "count") k = false) ->
  (forall k, In k (t_required tool) -> str_eqb (lit "count") k = false) ->
  Sdk.valid_input tool ((lit "count", VInt c) :: args) = Sdk.valid_input tool args.
Proof.
  intros Hc Hty Hkeys Hreq. unfold Sdk.valid_input. f_equal.
  - apply forallb_agree. intros [k p] Hin. unfold Sdk.property_ok. cbn [fst snd].
    destruct (Hkeys k p Hin) as [->|Hk].
    + rewrite dict_find_head, Hc, (Hty p Hin). reflexivity.
    + now rewrite dict_find_other.
  - apply forallb_agree. intros k Hin. unfold dict_mem.
    now rewrite dict_find_other by (apply Hreq; exact Hin).
Qed.

(** C10, as amended: the handler [handle_call_tool] validates nothing.  A
    missing ([None]) arguments mapping is handled as the empty one;
    without a [count] the call is the call with [count = 5] for
    [get_recent_emails] and with [count = 10] for [get_unread_emails] and
    [search_emails]; without a [query] or a [message_id] it is the call
    with the empty string, which on a running server goes out to the mail
    API.  A served call comes to the handler through the handler the SDK
    registered, which validates the arguments against the schema of the
    tool first: there too a missing mapping is the empty one and a call
    without [count] is the call with the default, but a call without the
    required [query] or [message_id] is answered with the error result
    "Input validation error: ..." and leaves the server as it was, the
    handler not being run; arguments that fit the schema are passed to the
    handler, whose blocks, or whose exception as an error result, are the
    answer. *)
Theorem dispatch_defaults message plain env s args :
  ((forall name,
     handle_call_tool env name None s = handle_call_tool env name (Some []) s)
  /\ (dict_find args (lit "count") = None ->
      handle_call_tool env (lit "get_recent_emails") (Some args) s =
      handle_call_tool env (lit "get_recent_emails")
                       (Some ((lit "count", VInt 5) :: args)) s
      /\ handle_call_tool env (lit "get_unread_emails") (Some args) s =
         handle_call_tool env (lit "get_unread_emails")
                          (Some ((lit "count", VInt 10) :: args)) s
      /\ handle_call_tool env (lit "search_emails") (Some args) s =
         handle_call_tool env (lit "search_emails")
                          (Some ((lit "count", VInt 10) :: args)) s)
  /\ (dict_find args (lit "query") = None ->
      In (lit "query") (required_of (lit "search_emails"))
      /\ handle_call_tool env (lit "search_emails") (Some args) s =
         handle_call_tool env (lit "search_emails")
                          (Some ((lit "query", VStr []) :: args)) s
      /\ (service s <> None ->
          exists blocks rest,
            handle_call_tool env (lit "search_emails") (Some args) s =
            (Ok blocks,
             sent s (ReqList (Some (VStr []))
                             (dict_get args (lit "count") (VInt 10)) :: rest))))
  /\ (dict_find args (lit "message_id") = None ->
      In (lit "message_id") (required_of (lit "get_email_details"))
      /\ handle_call_tool env (lit "get_email_details") (Some args) s =
         handle_call_tool env (lit "get_email_details")
                          (Some ((lit "message_id", VStr []) :: args)) s
      /\ (service s <> None ->
          exists blocks,
            handle_call_tool env (lit "get_email_details") (Some args) s =
            (Ok blocks, sent s [ReqGet (VStr [])]))))
  /\ (forall name,
        Sdk.call_tool_handler message plain env name None s =
        Sdk.call_tool_handler message plain env name (Some []) s)
  /\ (dict_find args (lit "count") = None ->
      Sdk.call_tool_handler message plain env (lit "get_recent_emails") (Some args) s =
      Sdk.call_tool_handler message plain env (lit "get_recent_emails")
                            (Some ((lit "count", VInt 5) :: args)) s
      /\ Sdk.call_tool_handler message plain env (lit "get_unread_emails") (Some args) s =
         Sdk.call_tool_handler message plain env (lit "get_unread_emails")
                               (Some ((lit "count", VInt 10) :: args)) s
      /\ (forall q,
            dict_find args (lit "query") = Some (VStr q) ->
            Sdk.call_tool_handler message plain env (lit "search_emails") (Some args) s =
            Sdk.call_tool_handler message plain env (lit "search_emails")
                                  (Some ((lit "count", VInt 10) :: args)) s))
  /\ (dict_find args (lit "query") = None ->
      exists tool,
        Sdk.cached_tool (lit "search_emails") = Some tool
        /\ Sdk.call_tool_handler message plain env (lit "search_emails") (Some args) s =
           (Ok (Sdk._make_error_result plain
                  (lit "Input validation error: " ++ message tool args)),
            s))
  /\ (dict_find args (lit "message_id") = None ->
      exists tool,
        Sdk.cached_tool (lit "get_email_details") = Some tool
        /\ Sdk.call_tool_handler message plain env (lit "get_email_details")
                                 (Some args) s =
           (Ok (Sdk._make_error_result plain
                  (lit "Input validation error: " ++ message tool args)),
            s))
  /\ (forall name tool,
        Sdk.cached_tool name = Some tool ->
        Sdk.valid_input tool args = true ->
        Sdk.call_tool_handler message plain env name (Some args) s =
        match handle_call_tool env name (Some args) s with
        | (Ok blocks, s') => (Ok (Sdk.MkServerResult blocks false), s')
        | (Raise e, s') => (Ok (Sdk._make_error_result plain (exc_msg e)), s')
        end).
Proof.
  destruct cached_tools
    as [[d1 [p1 Hrecent]] [[d2 [p2 Hunread]] [[d3 [p3 [q3 Hsearch]]] [d4 [p4 Hdetails]]]]].
  split; [apply handler_defaults|].
  split; [reflexivity|].
  assert (Hserved : forall a name tool,
            Sdk.cached_tool name = Some tool ->
            Sdk.valid_input tool a = true ->
            Sdk.call_tool_handler message plain env name (Some a) s =
            match handle_call_tool env name (Some a) s with
            | (Ok blocks, s') => (Ok (Sdk.MkServerResult blocks false), s')
            | (Raise e, s') => (Ok (Sdk._make_error_result plain (exc_msg e)), s')
            end).
  { intros a name tool Htool Hvalid.
    unfold Sdk.call_tool_handler, try_, bind, ret. cbn [or_empty].
    rewrite Htool, Hvalid.
    destruct (handle_call_tool env name (Some a) s) as [[blocks|e] s'];
      reflexivity. }
  assert (Hrejected : forall name tool,
            Sdk.cached_tool name = Some tool ->
            Sdk.valid_input tool args = false ->
            Sdk.call_tool_handler message plain env name (Some args) s =
            (Ok (Sdk._make_error_result plain
                   (lit "Input validation error: " ++ message tool args)),
             s)).
  { intros name tool Htool Hvalid.
    unfold Sdk.call_tool_handler, try_, bind, ret. cbn [or_empty].
    now rewrite Htool, Hvalid. }
  split; [|split; [|split; [|exact (Hserved args)]]].
  - intros Hc.
    destruct (handler_defaults env s args) as [_ [Hh _]].
    destruct (Hh Hc) as [Hr [Hu Hs]].
    split; [|split].
    + rewrite (Hserved args _ _ Hrecent), (Hserved _ _ _ Hrecent), Hr;
        [reflexivity| |];
        unfold Sdk.valid_input, Sdk.property_ok;
        cbn [forallb t_properties t_required fst snd p_type];
        rewrite ?dict_find_head, ?Hc; unfold Sdk.has_type; pick_tool; reflexivity.
    + rewrite (Hserved args _ _ Hunread), (Hserved _ _ _ Hunread), Hu;
        [reflexivity| |];
        unfold Sdk.valid_input, Sdk.property_ok;
        cbn [forallb t_properties t_required fst snd p_type];
        rewrite ?dict_find_head, ?Hc; unfold Sdk.has_type; pick_tool; reflexivity.
    + intros q Hq.
      rewrite (Hserved args _ _ Hsearch), (Hserved _ _ _ Hsearch), Hs;
        [reflexivity| |];
        unfold Sdk.valid_input, Sdk.property_ok, dict_mem;
        cbn [forallb t_properties t_required fst snd p_type];
        rewrite ?dict_find_head, ?(dict_find_other args (lit "query") (lit "count"))
          by reflexivity;
        rewrite ?Hc, ?Hq; unfold Sdk.has_type; pick_tool; reflexivity.
  - intros Hq. eexists. split; [exact Hsearch|].
    apply (Hrejected _ _ Hsearch).
    unfold Sdk.valid_input, dict_mem. cbn [forallb t_required].
    rewrite Hq. now rewrite andb_false_r.
  - intros Hm. eexists. split; [exact Hdetails|].
    apply (Hrejected _ _ Hdetails).
    unfold Sdk.valid_input, dict_mem. cbn [forallb t_required].
    rewrite Hm. now rewrite andb_false_r.
Qed.

(** A run of the theorem on a running server and the empty mapping: the
    handler uses its defaults, the registered handler rejects the search. *)
Lemma dispatch_defaults_witness :
  handle_call_tool ready_host (lit "get_recent_emails") (Some [])
                   (running three_messages) =
  handle_call_tool ready_host (lit "get_recent_emails")
                   (Some [(lit "count", VInt 5)]) (running three_messages)
  /\ (exists blocks rest,
        handle_call_tool ready_host (lit "search_emails") (Some [])
                         (running three_messages) =
        (Ok blocks,
         sent (running three_messages)
              (ReqList (Some (VStr [])) (VInt 10) :: rest)))
  /\ (exists blocks,
        handle_call_tool ready_host (lit "get_email_details") (Some [])
                         (running three_messages) =
        (Ok blocks, sent (running three_messages) [ReqGet (VStr [])]))
  /\ Sdk.call_tool_handler query_required unparsed ready_host (lit "search_emails")
                           (Some []) (running three_messages) =
     (Ok (Sdk._make_error_result unparsed
            (lit "Input validation error: " ++ lit "'query' is a required property")),
      running three_messages).
Proof.
  destruct (dispatch_defaults query_required unparsed ready_host
              (running three_messages) [])
    as [[_ [Hcount [Hquery Hid]]] [_ [_ [Hrejected _]]]].
  destruct (Hcount eq_refl) as [Hrecent _].
  destruct (Hquery eq_refl) as [_ [_ Hsearch]].
  destruct (Hid eq_refl) as [_ [_ Hdetails]].
  destruct (Hrejected eq_refl) as [tool [_ Hrun]].
  split; [exact Hrecent|].
  split; [apply Hsearch; discriminate|].
  split; [apply Hdetails; discriminate|].
  exact Hrun.
Defined.

(** C10, the claim as worded fails: a call of [search_emails] without
    [query], with an empty or with no arguments mapping, does not proceed
    with the empty string.  The dispatch registered by [call_tool()]
    answers it with the validation error, as an error result, and sends
    nothing to the mail API. *)
Lemma missing_query_is_rejected :
  Sdk.call_tool_handler query_required unparsed ready_host (lit "search_emails")
                        (Some []) (running three_messages) =
  (Ok (Sdk.MkServerResult
         [text_content
            (unparsed (lit "Input validation error: 'query' is a required property"))]
         true),
   running three_messages)
  /\ Sdk.call_tool_handler query_required unparsed ready_host (lit "search_emails")
                           None (running three_messages) =
     Sdk.call_tool_handler query_required unparsed ready_host (lit "search_emails")
                           (Some []) (running three_messages)
  /\ trace (snd (Sdk.call_tool_handler query_required unparsed ready_host
                   (lit "search_emails") (Some []) (running three_messages))) = [].
Proof. repeat split; vm_compute; reflexivity. Qed.

End ServerFacts.

(** ** The client *)

Module ClientFacts.

Import Client Scenario.

Lemma invoke_connected tool arguments c s :
  connected c = true ->
  session c = Some s ->
  invoke tool arguments c =
  match call_tool s tool arguments with
  | Completed (Ok result) =>
    match content result with
    | block :: _ =>
      match json_loads (text block) with
      | Ok j => Ok j
      | Raise e =>
        Ok (Server.error_payload
              (lit "Erro ao chamar " ++ tool ++ lit ": " ++ exc_msg e))
      end
    | [] => Ok empty_response
    end
  | Completed (Raise e) =>
    Ok (Server.error_payload
          (lit "Erro ao chamar " ++ tool ++ lit ": " ++ exc_msg e))
  | Cancelled => Cancelled
  end.
Proof.
  intros Hc Hs. unfold invoke. rewrite Hc, Hs.
  destruct (call_tool s tool arguments) as [[result|e]|]; [|reflexivity|reflexivity].
  simpl. destruct (content result) as [|block rest]; [reflexivity|].
  now destruct (json_loads (text block)).
Qed.

Lemma run_method_invoke r c :
  run_method r c = invoke (tool_name r) (tool_arguments r) c.
Proof. now destruct r. Qed.

Lemma invoke_disconnected tool arguments c :
  connected c = false \/ session c = None ->
  invoke tool arguments c = Raise not_connected.
Proof.
  intros [H|H]; unfold invoke; rewrite H; [reflexivity|].
  now destruct (connected c).
Qed.

(** A connected tool method returns a value, unless the call is
    cancelled. *)
Lemma connected_method_returns r c s :
  connected c = true ->
  session c = Some s ->
  (exists j, run_method r c = Ok j)
  \/ (run_method r c = Cancelled
      /\ call_tool s (tool_name r) (tool_arguments r) = Cancelled).
Proof.
  intros Hc Hs. rewrite run_method_invoke, (invoke_connected _ _ _ _ Hc Hs).
  destruct (call_tool s (tool_name r) (tool_arguments r)) as [[result|e]|];
    [|left; eexists; reflexivity|right; split; reflexivity].
  left. destruct (content result) as [|block rest]; [eexists; reflexivity|].
  destruct (json_loads (text block)); eexists; reflexivity.
Qed.

(** C7, as amended: of the failures of a tool method, only the
    not-connected check made before the call is raised as an exception.
    On a connected client, an exception raised by the session while a
    call is under way (a lost connection, a timeout) is caught by the
    tool method and returned as the ordinary value [{error: "Erro ao
    chamar <tool>: <description>"}]; the cancellation of the call, which
    is no [Exception], is not caught and reaches the caller.  A tool
    method raises nothing else. *)
Theorem transport_failure_is_returned r c :
  (connected c = false \/ session c = None ->
   run_method r c = Raise not_connected)
  /\ (forall s,
        connected c = true ->
        session c = Some s ->
        (forall e,
           call_tool s (tool_name r) (tool_arguments r) = Raise e ->
           run_method r c =
           Ok (Server.error_payload
                 (lit "Erro ao chamar " ++ tool_name r ++ lit ": " ++ exc_msg e)))
        /\ (call_tool s (tool_name r) (tool_arguments r) = Cancelled ->
            run_method r c = Cancelled))
  /\ (forall e,
        run_method r c = Raise e ->
        e = not_connected /\ (connected c = false \/ session c = None))
  /\ (run_method r c = Cancelled ->
      exists s,
        connected c = true /\ session c = Some s
        /\ call_tool s (tool_name r) (tool_arguments r) = Cancelled).
Proof.
  rewrite run_method_invoke.
  split; [apply invoke_disconnected|]. split.
  - intros s Hc Hs. rewrite (invoke_connected _ _ _ _ Hc Hs). split.
    + intros e He. now rewrite He.
    + intros He. now rewrite He.
  - destruct (connected c) eqn:Hc; [destruct (session c) as [s|] eqn:Hs|].
    + destruct (connected_method_returns r c s Hc Hs) as [[j Hj]|[Hj Hcall]];
        rewrite run_method_invoke in Hj; rewrite Hj; split.
      * intros e He. discriminate He.
      * intros He. discriminate He.
      * intros e He. discriminate He.
      * intros _. exists s. repeat split. exact Hcall.
    + rewrite invoke_disconnected by (now right). split.
      * intros e He. inversion He. split; [reflexivity|now right].
      * intros He. discriminate He.
    + rewrite invoke_disconnected by (now left). split.
      * intros e He. inversion He. split; [reflexivity|now left].
      * intros He. discriminate He.
Qed.

(** Runs of the theorem: a search over a broken transport, and a search
    that is cancelled. *)
Lemma transport_failure_is_returned_witness :
  search_emails (VStr (lit "from:ana")) (VInt 10) broken_client =
  Ok (Server.error_payload
        (lit "Erro ao chamar " ++ lit "search_emails" ++ lit ": "
         ++ exc_msg connection_lost))
  /\ search_emails (VStr (lit "from:ana")) (VInt 10) cancelled_client = Cancelled
  /\ search_emails (VStr (lit "from:ana")) (VInt 10) (new_client script) =
     Raise not_connected.
Proof.
  split; [|split].
  - destruct (transport_failure_is_returned
                (Search (VStr (lit "from:ana")) (VInt 10)) broken_client)
      as [_ [H _]].
    destruct (H broken_session eq_refl eq_refl) as [Hraise _].
    exact (Hraise connection_lost eq_refl).
  - destruct (transport_failure_is_returned
                (Search (VStr (lit "from:ana")) (VInt 10)) cancelled_client)
      as [_ [H _]].
    destruct (H cancelled_session eq_refl eq_refl) as [_ Hcancel].
    exact (Hcancel eq_refl).
  - destruct (transport_failure_is_returned
                (Search (VStr (lit "from:ana")) (VInt 10)) (new_client script))
      as [H _].
    apply H. left. reflexivity.
Defined.

(** C7, the claim as worded fails: with the connection lost during the
    call, [get_recent_emails] and [search_emails] return an error
    dictionary and raise nothing. *)
Lemma transport_failure_is_swallowed :
  get_recent_emails (VInt 5) broken_client =
    Ok (Server.error_payload
          (lit "Erro ao chamar get_recent_emails: Connection closed"))
  /\ search_emails (VStr (lit "from:ana")) (VInt 10) broken_client =
    Ok (Server.error_payload
          (lit "Erro ao chamar search_emails: Connection closed"))
  /\ failed (get_recent_emails (VInt 5) broken_client) = false
  /\ failed (search_emails (VStr (lit "from:ana")) (VInt 10) broken_client) = false.
Proof. repeat split; vm_compute; reflexivity. Qed.

Lemma connect_run ep c :
  exists c',
    connect ep c = (Ok (handshake_ok ep), c')
    /\ connected c' = (handshake_ok ep || connected c)%bool
    /\ (handshake_ok ep = true ->
        exists s tools,
          client_session ep = Ok s /\ session c' = Some s
          /\ list_tools s = Ok tools).
Proof.
  cbv [connect try_ bind enter_async_context set_session set_connected lift ret
       handshake_ok].
  destruct (stdio_client ep) as [[]|e]; cbn.
  - destruct (client_session ep) as [s|e]; cbn.
    + destruct (initialize s) as [[]|e]; cbn.
      * destruct (list_tools s) as [tools|e] eqn:El; cbn.
        -- eexists. split; [reflexivity|]. split; [reflexivity|].
           intros _. exists s, tools. repeat split. exact El.
        -- eexists. split; [reflexivity|]. split; [reflexivity|]. discriminate.
      * eexists. split; [reflexivity|]. split; [reflexivity|]. discriminate.
    + eexists. split; [reflexivity|]. split; [reflexivity|]. discriminate.
  - eexists. split; [reflexivity|]. split; [reflexivity|]. discriminate.
Qed.





Lemma disconnect_run ep c :
  disconnect ep c =
  match aclose ep with
  | Ok _ => (Ok tt, MkClient (server_script_path c) (session c) [] false)
  | Raise e =>
    (Raise e, MkClient (server_script_path c) (session c) [] (connected c))
  end.
Proof.
  cbv [disconnect bind set_connected]. now destruct (aclose ep).
Qed.





End ClientFacts.

(** ** The codecs *)

Module CodecFacts.

Import Notion.

Lemma lor_below (a b n : N) : a < 2 ^ n -> b < 2 ^ n -> N.lor a b < 2 ^ n.
Proof.
  intros Ha Hb.
  destruct (N.eq_dec a 0) as [->|Ha0]; [now rewrite N.lor_0_l|].
  destruct (N.eq_dec b 0) as [->|Hb0]; [now rewrite N.lor_0_r|].
  assert (Hpos : 0 < N.lor a b).
  { apply N.neq_0_lt_0. intros H. apply N.lor_eq_0_iff in H. tauto. }
  apply N.log2_lt_pow2; [exact Hpos|].
  rewrite N.log2_lor.
  apply N.max_lub_lt; apply N.log2_lt_pow2; try assumption; lia.
Qed.

Lemma b64_value_below (c v : N) : b64_value c = Some v -> v < 64.
Proof.
  unfold b64_value.
  repeat match goal with
         | |- context [?x <=? ?y] => destruct (N.leb_spec x y)
         | |- context [?x =? ?y] => destruct (N.eqb_spec x y)
         end; simpl; intros Hv; inversion Hv; lia.
Qed.

Lemma a2b_loop_octets (s : bytes) : forall quad left pads out r,
  carry_ok quad left ->
  Forall octet out ->
  a2b_loop s quad left pads out = Ok r ->
  Forall octet r.
Proof.
  induction s as [|c s IH]; intros quad left pads out r Hc Hout;
    cbn [a2b_loop].
  - destruct (quad =? 0); [|destruct (quad =? 1); discriminate].
    intros H; inversion H. now apply Forall_rev.
  - destruct (c =? 0x3D).
    + destruct ((2 <=? quad) && (4 <=? quad + (pads + 1))).
      * intros H; inversion H. now apply Forall_rev.
      * now apply IH.
    + destruct (b64_value c) as [v|] eqn:Ev; [|now apply IH].
      pose proof (b64_value_below _ _ Ev) as Hv.
      destruct Hc as [Hq [H1 [H2 H3]]].
      assert (Hland4 : N.land v 0x0F < 16).
      { change 0x0F with (N.ones 4). rewrite N.land_ones.
        apply N.mod_lt. discriminate. }
      assert (Hland2 : N.land v 0x03 < 4).
      { change 0x03 with (N.ones 2). rewrite N.land_ones.
        apply N.mod_lt. discriminate. }
      destruct (N.eqb_spec quad 0) as [E0|N0].
      { apply IH; [|exact Hout]. repeat split; try lia. }
      destruct (N.eqb_spec quad 1) as [E1|N1].
      { apply IH.
        - repeat split; try lia.
        - constructor; [|exact Hout]. unfold octet.
          change 256 with (2 ^ 8). apply lor_below.
          + rewrite N.shiftl_mul_pow2. specialize (H1 E1).
            change (2 ^ 2) with 4. change (2 ^ 8) with 256. lia.
          + rewrite N.shiftr_div_pow2. change (2 ^ 4) with 16.
            change (2 ^ 8) with 256.
            assert (v / 16 <= v) by (apply N.Div0.div_le_upper_bound; lia).
            lia. }
      destruct (N.eqb_spec quad 2) as [E2|N2].
      { apply IH.
        - repeat split; try lia.
        - constructor; [|exact Hout]. unfold octet.
          change 256 with (2 ^ 8). apply lor_below.
          + rewrite N.shiftl_mul_pow2. specialize (H2 E2).
            change (2 ^ 4) with 16. change (2 ^ 8) with 256. lia.
          + rewrite N.shiftr_div_pow2. change (2 ^ 2) with 4.
            change (2 ^ 8) with 256.
            assert (v / 4 <= v) by (apply N.Div0.div_le_upper_bound; lia).
            lia. }
      apply IH.
      * repeat split; try lia.
      * constructor; [|exact Hout]. unfold octet.
        change 256 with (2 ^ 8). apply lor_below.
        -- rewrite N.shiftl_mul_pow2. assert (E3 : quad = 3) by lia.
           specialize (H3 E3). change (2 ^ 6) with 64.
           change (2 ^ 8) with 256. lia.
        -- change (2 ^ 8) with 256. lia.
Qed.

Lemma land_shiftl_small (a b k : N) : b < 2 ^ k -> N.land (N.shiftl a k) b = 0.
Proof.
  intros Hb. apply N.bits_inj. intros n.
  rewrite N.land_spec, N.bits_0.
  destruct (N.lt_ge_cases n k) as [Hlt|Hge].
  - now rewrite N.shiftl_spec_low.
  - destruct (N.eq_dec b 0) as [->|Hb0]; [now rewrite N.bits_0, andb_false_r|].
    rewrite (N.bits_above_log2 b n), andb_false_r; [reflexivity|].
    apply N.lt_le_trans with k; [|exact Hge].
    apply N.log2_lt_pow2; [lia | exact Hb].
Qed.

(** Bits put side by side add up. *)
Lemma lor_shiftl_add (a b k : N) :
  b < 2 ^ k -> N.lor (N.shiftl a k) b = a * 2 ^ k + b.
Proof.
  intros Hb.
  rewrite <- N.lxor_lor, <- N.add_nocarry_lxor by now apply land_shiftl_small.
  now rewrite N.shiftl_mul_pow2.
Qed.

Lemma cont_bits_value (b : N) : is_cont b = true -> cont_bits b = b - 0x80.
Proof.
  unfold is_cont, cont_bits. intros H.
  apply andb_true_iff in H as [Hlo Hhi].
  apply N.leb_le in Hlo, Hhi.
  change 0x3F with (N.ones 6). rewrite N.land_ones. change (2 ^ 6) with 64.
  replace b with ((b - 0x80) + 2 * 64) at 1 by lia.
  rewrite N.Div0.mod_add. apply N.mod_small. lia.
Qed.

Lemma lead_bits (b m n base : N) :
  m = N.ones n -> base mod 2 ^ n = 0 -> base <= b < base + 2 ^ n ->
  N.land b m = b - base.
Proof.
  intros -> Hbase Hb. rewrite N.land_ones.
  apply N.Div0.mod_divides in Hbase as [q Hq].
  replace b with ((b - base) + q * 2 ^ n) at 1 by lia.
  rewrite N.Div0.mod_add. apply N.mod_small. lia.
Qed.

Ltac scan_emit IH Hlen :=
  match goal with
  | |- context [utf8_scan ?r ?p] =>
    let cps := fresh "cps" in
    let Erec := fresh "Erec" in
    let Hs := fresh "Hs" in
    destruct (utf8_scan r p) as [cps|] eqn:Erec; intros Hs; inversion Hs;
    subst; constructor;
    [ | eapply IH; [|exact Erec]; simpl in Hlen; lia ]
  end.

Ltac cont_facts :=
  repeat match goal with
         | H : is_cont ?b = true |- _ =>
           let Hv := fresh "Hv" in
           pose proof (cont_bits_value b H) as Hv;
           unfold is_cont in H; apply andb_true_iff in H as [? ?]
         | H : (_ <=? _) = true |- _ => apply N.leb_le in H
         | H : (_ <? _) = true |- _ => apply N.ltb_lt in H
         | H : negb _ = true |- _ => apply negb_true_iff in H
         | H : (_ && _) = true |- _ => apply andb_true_iff in H as [? ?]
         | H : (_ && _) = false |- _ => apply andb_false_iff in H as [H|H]
         | H : (_ =? _) = false |- _ => apply N.eqb_neq in H
         | H : (_ <? _) = false |- _ => apply N.ltb_ge in H
         | H : (_ <=? _) = false |- _ => apply N.leb_gt in H
         end.

Lemma utf8_scan_scalar (n : nat) : forall bs pos s,
  (List.length bs <= n)%nat ->
  utf8_scan bs pos = inl s -> Forall scalar_value s.
Proof.
  induction n as [|n IH]; intros bs pos s Hlen.
  - destruct bs; [|simpl in Hlen; lia].
    intros H; inversion H. constructor.
  - destruct bs as [|b0 r0]; [intros H; inversion H; constructor|].
    cbn [utf8_scan].
    destruct (N.ltb_spec b0 0x80) as [L1|G1].
    { scan_emit IH Hlen. unfold scalar_value. lia. }
    destruct (N.ltb_spec b0 0xC2) as [L2|G2]; [discriminate|].
    destruct (N.ltb_spec b0 0xE0) as [L3|G3].
    { destruct r0 as [|b1 r1]; [discriminate|].
      destruct (is_cont b1) eqn:C1; [|discriminate].
      scan_emit IH Hlen. cont_facts.
      rewrite lor_shiftl_add by (rewrite Hv; change (2 ^ 6) with 64; lia).
      rewrite Hv, (lead_bits b0 0x1F 5 0xC0) by (try reflexivity; cbn; lia).
      change (2 ^ 6) with 64. unfold scalar_value. lia. }
    destruct (N.ltb_spec b0 0xF0) as [L4|G4].
    { destruct r0 as [|b1 r1]; [discriminate|].
      match goal with |- context [if ?c then _ else _] => destruct c eqn:C1 end;
        [|discriminate].
      destruct r1 as [|b2 r2]; [discriminate|].
      destruct (is_cont b2) eqn:C2; [|discriminate].
      scan_emit IH Hlen. cont_facts;
      (rewrite (lor_shiftl_add (cont_bits b1))
        by (rewrite Hv; change (2 ^ 6) with 64; lia));
      (rewrite lor_shiftl_add
        by (rewrite Hv, Hv0; change (2 ^ 6) with 64; change (2 ^ 12) with 4096;
            lia));
      (rewrite Hv, Hv0, (lead_bits b0 0x0F 4 0xE0)
        by (try reflexivity; cbn; lia));
      change (2 ^ 6) with 64; change (2 ^ 12) with 4096;
      unfold scalar_value; lia. }
    destruct (N.ltb_spec b0 0xF5) as [L5|G5]; [|discriminate].
    destruct r0 as [|b1 r1]; [discriminate|].
    match goal with |- context [if ?c then _ else _] => destruct c eqn:C1 end;
      [|discriminate].
    destruct r1 as [|b2 r2]; [discriminate|].
    destruct (is_cont b2) eqn:C2; [|discriminate].
    destruct r2 as [|b3 r3]; [discriminate|].
    destruct (is_cont b3) eqn:C3; [|discriminate].
    scan_emit IH Hlen. cont_facts;
    (rewrite (lor_shiftl_add (cont_bits b2))
      by (rewrite Hv; change (2 ^ 6) with 64; lia));
    (rewrite (lor_shiftl_add (cont_bits b1))
      by (rewrite Hv, Hv0; change (2 ^ 6) with 64; change (2 ^ 12) with 4096;
          lia));
    (rewrite lor_shiftl_add
      by (rewrite Hv, Hv0, Hv1; change (2 ^ 6) with 64;
          change (2 ^ 12) with 4096; change (2 ^ 18) with 262144; lia));
    (rewrite Hv, Hv0, Hv1, (lead_bits b0 0x07 3 0xF0)
      by (try reflexivity; cbn; lia));
    change (2 ^ 6) with 64; change (2 ^ 12) with 4096;
    change (2 ^ 18) with 262144;
    unfold scalar_value; lia.
Qed.

Lemma forall_lstrip (P : N -> Prop) (s : str) : Forall P s -> Forall P (lstrip s).
Proof.
  induction 1 as [|c r Hc Hr IH]; simpl; [constructor|].
  destruct (isspace c); [exact IH | now constructor].
Qed.

Lemma forall_strip (P : N -> Prop) (s : str) : Forall P s -> Forall P (strip s).
Proof.
  intros H. unfold strip, rstrip.
  apply Forall_rev, forall_lstrip, Forall_rev, forall_lstrip, H.
Qed.

Lemma strip_clean_ends (s : str) :
  clean_head (strip s) /\ clean_head (rev (strip s)).
Proof.
  split.
  - apply rstrip_clean_head, lstrip_clean_head.
  - unfold strip, rstrip. rewrite rev_involutive. apply lstrip_clean_head.
Qed.

Lemma a2b_loop_noise (c : N) (s2 : bytes) :
  b64_value c = None -> c <> 0x3D ->
  forall s1 quad left pads out,
    a2b_loop (s1 ++ c :: s2) quad left pads out =
    a2b_loop (s1 ++ s2) quad left pads out.
Proof.
  intros Hc Hpad. induction s1 as [|x s1 IH]; intros quad left pads out.
  - cbn [app a2b_loop]. apply N.eqb_neq in Hpad. now rewrite Hpad, Hc.
  - cbn [app a2b_loop].
    destruct (x =? 0x3D).
    + destruct ((2 <=? quad) && (4 <=? quad + (pads + 1))); [reflexivity|apply IH].
    + destruct (b64_value x); [|apply IH].
      destruct (quad =? 0); [apply IH|].
      destruct (quad =? 1); [apply IH|].
      destruct (quad =? 2); apply IH.
Qed.

Lemma translate_pad (c : N) : c <> 0x3D -> urlsafe_translate c <> 0x3D.
Proof.
  unfold urlsafe_translate. intros H.
  destruct (N.eqb_spec c 0x2D); [discriminate|].
  destruct (N.eqb_spec c 0x5F); [discriminate|exact H].
Qed.

Lemma urlsafe_b64decode_noise (c : N) (s1 s2 : str) :
  b64_noise c = true ->
  urlsafe_b64decode (s1 ++ c :: s2) = urlsafe_b64decode (s1 ++ s2).
Proof.
  unfold b64_noise. intros H.
  apply andb_true_iff in H as [H Hval].
  apply andb_true_iff in H as [Hascii Hpad].
  apply negb_true_iff, N.eqb_neq in Hpad.
  unfold urlsafe_b64decode.
  rewrite !forallb_app. cbn [forallb]. rewrite Hascii. cbn [andb].
  destruct (forallb (fun c0 => c0 <? 128) s1 && forallb (fun c0 => c0 <? 128) s2);
    [|reflexivity].
  unfold a2b_base64. rewrite !map_app. cbn [map].
  apply a2b_loop_noise.
  - now destruct (b64_value (urlsafe_translate c)).
  - now apply translate_pad.
Qed.

(** What [urlsafe_b64decode] returns is a sequence of octets. *)
Lemma urlsafe_b64decode_octets (s : str) (r : bytes) :
  urlsafe_b64decode s = Ok r -> Forall octet r.
Proof.
  unfold urlsafe_b64decode, a2b_base64.
  destruct (forallb (fun c => c <? 128) s); [|discriminate].
  apply a2b_loop_octets; [|constructor].
  unfold carry_ok. repeat split; lia.
Qed.

Lemma b64_value_pad : b64_value 0x3D = None.
Proof. reflexivity. Qed.

(** The outcome of the loop on characters of the alphabet only, by the
    number of characters read, [k] of them before [s]. *)
Lemma a2b_loop_alphabet (s : bytes) : forall (k : nat) left pads out,
  (k < 4)%nat ->
  Forall (fun c => b64_value c <> None) s ->
  let total := ((k + List.length s) mod 4)%nat in
  (total = 0%nat -> exists r, a2b_loop s (N.of_nat k) left pads out = Ok r)
  /\ (total = 1%nat ->
      exists m, a2b_loop s (N.of_nat k) left pads out = Raise (binascii_Error m))
  /\ ((2 <= total)%nat ->
      a2b_loop s (N.of_nat k) left pads out =
      Raise (binascii_Error (lit "Incorrect padding"))).
Proof.
  induction s as [|c s IH]; intros k left pads out Hk Hs.
  - cbn [List.length a2b_loop]. rewrite Nat.add_0_r, Nat.mod_small by exact Hk.
    destruct k as [|[|[|[|k]]]]; try lia; cbn;
      (split; [|split]); intros Hc; try lia; try discriminate; eauto.
  - inversion Hs as [|? ? Hc Hrest]; subst.
    cbn [a2b_loop].
    destruct (N.eqb_spec c 0x3D) as [->|_]; [now rewrite b64_value_pad in Hc|].
    destruct (b64_value c) as [v|]; [|contradiction].
    cbn [List.length].
    destruct k as [|[|[|[|k]]]]; try lia.
    + replace (0 + S (List.length s))%nat with (1 + List.length s)%nat by lia.
      apply (IH 1%nat); [lia | exact Hrest].
    + replace (1 + S (List.length s))%nat with (2 + List.length s)%nat by lia.
      apply (IH 2%nat); [lia | exact Hrest].
    + replace (2 + S (List.length s))%nat with (3 + List.length s)%nat by lia.
      apply (IH 3%nat); [lia | exact Hrest].
    + replace (3 + S (List.length s))%nat
        with (0 + List.length s + 1 * 4)%nat by lia.
      rewrite Nat.Div0.mod_add.
      apply (IH 0%nat); [lia | exact Hrest].
Qed.

(** Data made of characters of the alphabet only, without padding, is
    decoded when its length is a multiple of four and refused otherwise,
    with ["Incorrect padding"] when two or three characters are left
    over. *)
Lemma urlsafe_b64decode_alphabet (s : str) :
  forallb b64_char s = true ->
  ((List.length s mod 4 = 0)%nat <-> raised (urlsafe_b64decode s) = false)
  /\ ((2 <= List.length s mod 4)%nat ->
      urlsafe_b64decode s = Raise (binascii_Error (lit "Incorrect padding"))).
Proof.
  intros Hs.
  assert (Hascii : forallb (fun c => c <? 128) s = true).
  { apply forallb_forall. intros c Hc.
    apply (proj1 (forallb_forall _ _) Hs) in Hc.
    unfold b64_char in Hc. now apply andb_true_iff in Hc as [Hc _]. }
  assert (Halpha : Forall (fun c => b64_value c <> None) (map urlsafe_translate s)).
  { apply Forall_map, Forall_forall. intros c Hc.
    apply (proj1 (forallb_forall _ _) Hs) in Hc.
    unfold b64_char in Hc. apply andb_true_iff in Hc as [_ Hc].
    now destruct (b64_value (urlsafe_translate c)). }
  unfold urlsafe_b64decode, a2b_base64. rewrite Hascii.
  destruct (a2b_loop_alphabet (map urlsafe_translate s) 0 0 0 [] ltac:(lia) Halpha)
    as [H0 [H1 H2]].
  cbn [Nat.add N.of_nat] in H0, H1, H2. rewrite length_map in H0, H1, H2.
  split; [split|].
  - intros E. destruct (H0 E) as [r ->]. reflexivity.
  - intros Hok.
    assert (Hlt : (List.length s mod 4 < 4)%nat) by (apply Nat.mod_upper_bound; lia).
    destruct (List.length s mod 4)%nat as [|[|n]]; [reflexivity| |].
    + destruct (H1 eq_refl) as [m Hm]. rewrite Hm in Hok. discriminate.
    + rewrite H2 in Hok by lia. discriminate.
  - exact H2.
Qed.

End CodecFacts.

(** ** More on the MIME body extraction *)

Module MimeCover.

Import Notion MimeFacts CodecFacts.

Local Open Scope res_scope.

Lemma scan_parts_raise mt hs d0 (l : list part) :
  Forall (fun c => forall e, _extract_body c = Raise e -> raise_from c e) l ->
  forall pre e,
    scan_parts _extract_body l = Raise e ->
    raise_from (Part mt hs d0 (Some (pre ++ l))) e.
Proof.
  induction 1 as [|c rest Hc _ IH]; intros pre e Hscan; [discriminate|].
  assert (Hnext : scan_parts _extract_body rest = Raise e ->
                  raise_from (Part mt hs d0 (Some (pre ++ c :: rest))) e).
  { intros H'.
    replace (pre ++ c :: rest) with ((pre ++ [c]) ++ rest)
      by (now rewrite <- app_assoc).
    now apply IH. }
  assert (Hin : In c (pre ++ c :: rest)) by (apply in_elt).
  simpl in Hscan.
  destruct (str_eqb (mimeType c) text_plain) eqn:Emt.
  - destruct (body_data c) as [d|] eqn:Ed; [|now apply Hnext].
    exists c, d. repeat split; [|unfold plain_data; now rewrite Emt|exact Hscan].
    eapply within_child; [exact Hin | apply within_self].
  - destruct (parts c) as [sub|]; [|now apply Hnext].
    destruct (_extract_body c) as [b|e'] eqn:Eb.
    + simpl in Hscan. destruct (truthy b); [discriminate|now apply Hnext].
    + simpl in Hscan. inversion Hscan; subst e'.
      destruct (Hc e eq_refl) as [q [d [Hq [Hd Hdec]]]].
      exists q, d. repeat split; try assumption.
      eapply within_child; eassumption.
Qed.

Lemma extract_body_raise_source (p : part) :
  forall e, _extract_body p = Raise e -> raise_from p e.
Proof.
  induction p as [mt hs d | mt hs d children IH] using part_induction;
    intros e; rewrite extract_body_unfold.
  - destruct (str_eqb mt text_plain) eqn:Emt; [|discriminate].
    destruct d as [d|]; [|discriminate].
    destruct (decode_data d) as [s|e'] eqn:Ed; simpl; intros H; inversion H.
    subst e'. exists (Part mt hs (Some d) None), d. repeat split.
    + apply within_self.
    + unfold plain_data. simpl. now rewrite Emt.
    + exact Ed.
  - destruct (scan_parts _extract_body children) as [body|e'] eqn:Es; simpl;
      intros H; inversion H. subst e'.
    apply (scan_parts_raise mt hs d children IH [] e Es).
Qed.

Lemma a2b_loop_raise_class (s : bytes) : forall quad left pads out e,
  a2b_loop s quad left pads out = Raise e -> exc_class e = lit "binascii.Error".
Proof.
  induction s as [|c s IH]; intros quad left pads out e; cbn [a2b_loop].
  - destruct (quad =? 0); [discriminate|].
    destruct (quad =? 1); intros H; inversion H; reflexivity.
  - destruct (c =? 0x3D).
    + destruct ((2 <=? quad) && (4 <=? quad + (pads + 1))); [discriminate|apply IH].
    + destruct (b64_value c); [|apply IH].
      destruct (quad =? 0); [apply IH|].
      destruct (quad =? 1); [apply IH|].
      destruct (quad =? 2); apply IH.
Qed.

Lemma decode_data_raise_class (d : str) (e : exn) :
  decode_data d = Raise e -> In (exc_class e) codec_classes.
Proof.
  unfold decode_data, urlsafe_b64decode, a2b_base64.
  destruct (forallb (fun c => c <? 128) d).
  - destruct (a2b_loop (map urlsafe_translate d) 0 0 0 []) as [b|e'] eqn:El; simpl.
    + unfold decode_utf8. destruct (utf8_scan b 0); intros H; inversion H.
      right. right. left. reflexivity.
    + intros H; inversion H; subst e'.
      right. left. symmetry. exact (a2b_loop_raise_class _ _ _ _ _ _ El).
  - simpl. intros H; inversion H. left. reflexivity.
Qed.

(** When [_extract_body] raises, the exception is the one that decoding
    the inline data of a [text/plain] part of the payload raises: a
    [ValueError] or a [binascii.Error] of the base64 decoder, or a
    [UnicodeDecodeError]. *)
Theorem extract_body_raises_decoding_errors (p : part) (e : exn) :
  _extract_body p = Raise e ->
  raise_from p e /\ In (exc_class e) codec_classes.
Proof.
  intros H. pose proof (extract_body_raise_source p e H) as Hsrc.
  split; [exact Hsrc|].
  destruct Hsrc as [q [d [_ [_ Hdec]]]].
  exact (decode_data_raise_class d e Hdec).
Qed.

Lemma extract_body_raises_decoding_errors_witness :
  raise_from bad_padding (binascii_Error (lit "Incorrect padding"))
  /\ In (exc_class (binascii_Error (lit "Incorrect padding"))) codec_classes.
Proof.
  apply (extract_body_raises_decoding_errors bad_padding).
  vm_compute. reflexivity.
Defined.

(** A payload none of whose parts is [text/plain] with inline data has the
    empty body: nothing is decoded and nothing is raised. *)
Theorem extract_body_without_plain_text (p : part) :
  (forall q, within q p -> plain_data q = None) -> _extract_body p = Ok [].
Proof.
  intros Hnone.
  destruct (_extract_body p) as [b|e] eqn:E.
  - destruct (extract_body_one_part p b E) as [->|[q [d [Hq [Hd _]]]]];
      [reflexivity|].
    rewrite (Hnone q Hq) in Hd. discriminate.
  - destruct (extract_body_raise_source p e E) as [q [d [Hq [Hd _]]]].
    rewrite (Hnone q Hq) in Hd. discriminate.
Qed.

Lemma within_inv q p :
  within q p ->
  q = p \/ exists c, In c (match parts p with Some l => l | None => [] end)
                     /\ within q c.
Proof.
  intros H. inversion H as [|mt hs d children c Hin Hc]; subst; [now left|].
  right. exists c. simpl. tauto.
Qed.

Lemma extract_body_without_plain_text_witness : _extract_body html_only = Ok [].
Proof.
  apply (extract_body_without_plain_text html_only).
  intros q Hq.
  apply within_inv in Hq as [->|[c [Hin Hq]]]; [reflexivity|].
  destruct Hin as [<-|[]].
  apply within_inv in Hq as [->|[c' [[] _]]]. reflexivity.
Defined.

(** The body [_extract_body] returns neither starts nor ends with
    whitespace. *)
Theorem extract_body_trimmed (p : part) (b : str) :
  _extract_body p = Ok b -> clean_head b /\ clean_head (rev b).
Proof.
  intros H. rewrite <- (extract_body_stripped p b H).
  apply strip_clean_ends.
Qed.

Lemma extract_body_trimmed_witness :
  clean_head (lit "i") /\ clean_head (rev (lit "i")).
Proof.
  apply (extract_body_trimmed nested_alternative). vm_compute. reflexivity.
Defined.

(** The body [_extract_body] returns is a sequence of Unicode scalar
    values: no surrogate and nothing above U+10FFFF. *)
Theorem extract_body_scalar_text (p : part) (b : str) :
  _extract_body p = Ok b -> Forall scalar_value b.
Proof.
  intros H.
  destruct (extract_body_one_part p b H) as [->|[q [d [_ [_ Hdec]]]]];
    [constructor|].
  unfold decode_trim, decode_data in Hdec.
  destruct (urlsafe_b64decode d) as [x|]; [|discriminate].
  simpl in Hdec. unfold decode_utf8 in Hdec.
  destruct (utf8_scan x 0) as [s|] eqn:Es; [|discriminate].
  simpl in Hdec. inversion Hdec.
  apply forall_strip.
  exact (utf8_scan_scalar (List.length x) x 0 s (le_n _) Es).
Qed.

Lemma extract_body_scalar_text_witness : Forall scalar_value (lit "Hello").
Proof.
  apply (extract_body_scalar_text single_plain). vm_compute. reflexivity.
Defined.

Lemma scan_parts_silent (rest : list part) (pre : list part) :
  Forall silent pre ->
  scan_parts _extract_body (pre ++ rest) = scan_parts _extract_body rest.
Proof.
  induction 1 as [|c pre [Hdata Hsub] _ IH]; [reflexivity|].
  cbn [app scan_parts].
  unfold plain_data in Hdata. unfold nonplain_with_parts, has_parts in Hsub.
  destruct (str_eqb (mimeType c) text_plain).
  - now rewrite Hdata.
  - destruct (parts c); [|exact IH].
    rewrite (Hsub eq_refl). exact IH.
Qed.

(** Children without inline plain text in which nothing is found are
    passed over: the body is that of the payload without them. *)
Theorem extract_body_skips_silent mt hs d (pre rest : list part) :
  Forall silent pre ->
  _extract_body (Part mt hs d (Some (pre ++ rest))) =
  _extract_body (Part mt hs d (Some rest)).
Proof.
  intros H. rewrite !extract_body_unfold.
  now rewrite scan_parts_silent.
Qed.

Lemma extract_body_skips_silent_witness :
  _extract_body text_after_silent =
  _extract_body (multipart "multipart/mixed" [ leaf "text/plain" "Cmk=" ]).
Proof.
  apply (extract_body_skips_silent (lit "multipart/mixed") None None
           [ html_only; leaf "application/pdf" "JVBERi0=" ]
           [ leaf "text/plain" "Cmk=" ]).
  constructor; [split; [reflexivity | intros _; reflexivity]|].
  constructor; [split; [reflexivity | discriminate]|].
  constructor.
Defined.

Lemma extract_body_leaf hs (d : str) :
  _extract_body (Part text_plain hs (Some d) None) =
  (s <- decode_data d ;; Ok (strip s)).
Proof.
  rewrite extract_body_unfold.
  change (str_eqb text_plain text_plain) with true. reflexivity.
Qed.

(** Characters of the body data that belong to no base64 alphabet and are
    no padding, line breaks among them, are ignored: the body of a
    [text/plain] message is the same with and without them. *)
Theorem extract_body_ignores_noise hs (c : N) (s1 s2 : str) :
  b64_noise c = true ->
  _extract_body (Part text_plain hs (Some (s1 ++ c :: s2)) None) =
  _extract_body (Part text_plain hs (Some (s1 ++ s2)) None).
Proof.
  intros Hc. rewrite !extract_body_leaf. unfold decode_data.
  now rewrite (urlsafe_b64decode_noise c s1 s2 Hc).
Qed.

(** A line feed in the middle of the data of the first example. *)
Lemma extract_body_ignores_noise_witness :
  _extract_body (Part text_plain None (Some (lit "SGVs" ++ 10 :: lit "bG8=")) None) =
  _extract_body (Part text_plain None (Some (lit "SGVs" ++ lit "bG8=")) None).
Proof.
  apply (extract_body_ignores_noise None 10 (lit "SGVs") (lit "bG8=")).
  reflexivity.
Defined.

(** The padding is not supplied: body data made of characters of the
    alphabet only is base64-decoded when its length is a multiple of
    four; otherwise the extraction of a [text/plain] message raises, and
    with two or three characters left over it raises
    [binascii.Error("Incorrect padding")]. *)
Theorem extract_body_needs_padding hs (d : str) :
  forallb b64_char d = true ->
  ((List.length d mod 4 = 0)%nat ->
   exists x, urlsafe_b64decode d = Ok x
             /\ _extract_body (Part text_plain hs (Some d) None) =
                (s <- decode_utf8 x ;; Ok (strip s)))
  /\ ((List.length d mod 4 <> 0)%nat ->
      raised (_extract_body (Part text_plain hs (Some d) None)) = true)
  /\ ((2 <= List.length d mod 4)%nat ->
      _extract_body (Part text_plain hs (Some d) None) =
      Raise (binascii_Error (lit "Incorrect padding"))).
Proof.
  intros Hd. destruct (urlsafe_b64decode_alphabet d Hd) as [Hiff Hpad].
  rewrite extract_body_leaf. unfold decode_data.
  split; [|split].
  - intros Hlen. apply Hiff in Hlen.
    destruct (urlsafe_b64decode d) as [x|]; [|discriminate].
    exists x. split; reflexivity.
  - intros Hlen.
    destruct (urlsafe_b64decode d) as [x|]; [|reflexivity].
    exfalso. apply Hlen, Hiff. reflexivity.
  - intros Hlen. now rewrite (Hpad Hlen).
Qed.

(** The data of the second example without its padding. *)
Lemma extract_body_needs_padding_witness :
  _extract_body bad_padding = Raise (binascii_Error (lit "Incorrect padding")).
Proof.
  destruct (extract_body_needs_padding None (lit "Cmk") eq_refl) as [_ [_ H]].
  apply H. vm_compute. lia.
Defined.

End MimeCover.

(** ** More on the server *)

Module ServerCover.

Import Server Expect Scenario Notion ServerFacts.

Local Open Scope eff_scope.

Lemma dict_find_set_same {V} (d : dict V) (k : str) (v : V) :
  dict_find (dict_set d k v) k = Some v.
Proof.
  induction d as [|[k' v'] d IH]; simpl.
  - now rewrite str_eqb_refl.
  - destruct (str_eqb k' k) eqn:E; simpl; rewrite E; [reflexivity|exact IH].
Qed.

Lemma dict_find_set_other {V} (d : dict V) (k k' : str) (v : V) :
  str_eqb k k' = false ->
  dict_find (dict_set d k v) k' = dict_find d k'.
Proof.
  intros Hk. induction d as [|[k0 v0] d IH]; simpl.
  - now rewrite Hk.
  - destruct (str_eqb k0 k) eqn:E; simpl.
    + apply str_eqb_eq in E. subst k0. now rewrite Hk.
    + destruct (str_eqb k0 k'); [reflexivity|exact IH].
Qed.

(** The dictionary of headers holds, for each of the four names, the value
    of the last header of that name. *)
Lemma collect_headers_value (hs : list header) (k : str) :
  In k kept_headers ->
  dict_get (collect_headers (Some hs)) k [] = header_value hs k.
Proof.
  intros Hk. unfold collect_headers, header_value, dict_get.
  induction hs as [|h hs IH] using rev_ind; [reflexivity|].
  rewrite fold_left_app, rev_app_distr. cbn [fold_left rev app find].
  destruct (str_eqb (lower (h_name h)) k) eqn:E.
  - apply str_eqb_eq in E. rewrite E.
    assert (Hkept : existsb (str_eqb k) kept_headers = true).
    { apply existsb_exists. exists k. split; [exact Hk|apply str_eqb_refl]. }
    rewrite Hkept. now rewrite dict_find_set_same.
  - destruct (existsb (str_eqb (lower (h_name h))) kept_headers).
    + rewrite dict_find_set_other by exact E. exact IH.
    + exact IH.
Qed.

(** A detail fetch that succeeds returns a dictionary of nine fields: the
    identifier as it was given, the thread, the values of the last
    [From], [To], [Subject] and [Date] headers whatever the case of
    their names (the empty string without one), the extracted body, and
    the snippet and labels when the message has them. *)
Theorem get_email_details_fields svc s v m body :
  service s = Some svc ->
  messages_get svc v = Ok m ->
  _extract_body (payload m) = Ok body ->
  _get_email_details v s = (Ok (email_fields v m body), sent s [ReqGet v]).
Proof.
  intros Hs Hm Hb.
  cbv [_get_email_details try_ bind the_service get_service send lift ret].
  rewrite Hs, Hm, Hb. cbv beta iota.
  unfold email_json, email_fields, header_list.
  destruct (headers (payload m)) as [hs|].
  - rewrite !collect_headers_value by (cbn; tauto). reflexivity.
  - reflexivity.
Qed.

(** A detail fetch never raises: when the remote call fails, or when the
    body cannot be decoded, it returns [{error: "Erro ao buscar email
    <id>: <description>"}], after the one request. *)
Theorem get_email_details_error svc s v e :
  service s = Some svc ->
  messages_get svc v = Raise e
  \/ (exists m, messages_get svc v = Ok m /\ _extract_body (payload m) = Raise e) ->
  _get_email_details v s = (Ok (details_error v e), sent s [ReqGet v]).
Proof.
  intros Hs Hfail.
  cbv [_get_email_details try_ bind the_service get_service send lift ret].
  rewrite Hs. cbv beta iota.
  destruct Hfail as [Hm | [m [Hm Hb]]].
  - now rewrite Hm.
  - now rewrite Hm, Hb.
Qed.

Lemma get_email_details_fields_witness :
  _get_email_details (VStr (lit "m1")) (running (mailbox_of headed_message)) =
  (Ok (email_fields (VStr (lit "m1")) headed_message (lit "Hello")),
   sent (running (mailbox_of headed_message)) [ReqGet (VStr (lit "m1"))]).
Proof.
  apply (get_email_details_fields (mailbox_of headed_message)); reflexivity.
Defined.

Lemma get_email_details_error_witness :
  _get_email_details (VStr (lit "m2")) (running second_fails) =
  (Ok (details_error (VStr (lit "m2")) (Exn (lit "HttpError") (lit "404"))),
   sent (running second_fails) [ReqGet (VStr (lit "m2"))]).
Proof.
  apply (get_email_details_error second_fails); [reflexivity|].
  left. reflexivity.
Defined.

(** A run of [_get_recent_emails] whose listing succeeds, by what the
    slice gives. *)
Lemma recent_emails_run svc s count result :
  service s = Some svc ->
  messages_list svc None count = Ok result ->
  _get_recent_emails count s =
  match py_slice_to (listed result) count with
  | Ok ids =>
    (Ok (listing_payload (lit "get_recent_emails") (filter_map (fetched svc) ids)),
     sent s (ReqList None count :: map get_request ids))
  | Raise e =>
    (Ok (error_payload (lit "Erro ao buscar emails recentes: " ++ exc_msg e)),
     sent s [ReqList None count])
  end.
Proof.
  intros Hs Hlist.
  cbv [_get_recent_emails try_ bind the_service get_service send lift ret].
  rewrite Hs, Hlist. cbv beta iota.
  fold (sent s [ReqList None count]).
  destruct (py_slice_to (listed result) count) as [ids|e]; [|reflexivity].
  rewrite (fetch_emails_run svc) by exact Hs.
  rewrite sent_sent. reflexivity.
Qed.

(** The cap of [_get_recent_emails] for a [count] that is no natural
    number: with [None] every listed message is fetched; with a negative
    integer the last [-count] listed messages are left out; with a string
    the slice fails after the listing and the tool returns an error
    dictionary, no message fetched. *)
Theorem recent_emails_odd_counts svc s result :
  service s = Some svc ->
  (messages_list svc None VNone = Ok result ->
   _get_recent_emails VNone s =
   (Ok (listing_payload (lit "get_recent_emails")
          (filter_map (fetched svc) (listed result))),
    sent s (ReqList None VNone :: map get_request (listed result))))
  /\ (forall c,
        (c < 0)%Z ->
        messages_list svc None (VInt c) = Ok result ->
        _get_recent_emails (VInt c) s =
        (Ok (listing_payload (lit "get_recent_emails")
               (filter_map (fetched svc)
                  (firstn (List.length (listed result) - Z.to_nat (- c))
                          (listed result)))),
         sent s (ReqList None (VInt c)
                 :: map get_request
                      (firstn (List.length (listed result) - Z.to_nat (- c))
                              (listed result)))))
  /\ (forall t,
        messages_list svc None (VStr t) = Ok result ->
        _get_recent_emails (VStr t) s =
        (Ok (error_payload
               (lit "Erro ao buscar emails recentes: " ++ exc_msg slice_type_error)),
         sent s [ReqList None (VStr t)])).
Proof.
  intros Hs. split; [|split].
  - intros Hl. now rewrite (recent_emails_run svc s VNone result Hs Hl).
  - intros c Hc Hl. rewrite (recent_emails_run svc s (VInt c) result Hs Hl).
    cbn [py_slice_to]. unfold slice_to.
    destruct (Z.ltb_spec c 0); [reflexivity|lia].
  - intros t Hl. now rewrite (recent_emails_run svc s (VStr t) result Hs Hl).
Qed.

Lemma recent_emails_odd_counts_witness :
  _get_recent_emails VNone (running three_messages) =
  (Ok (listing_payload (lit "get_recent_emails")
         (filter_map (fetched three_messages) [lit "m1"; lit "m2"; lit "m3"])),
   sent (running three_messages)
        (ReqList None VNone :: map get_request [lit "m1"; lit "m2"; lit "m3"]))
  /\ _get_recent_emails (VInt (-2)) (running three_messages) =
     (Ok (listing_payload (lit "get_recent_emails")
            (filter_map (fetched three_messages) [lit "m1"])),
      sent (running three_messages)
           (ReqList None (VInt (-2)) :: map get_request [lit "m1"]))
  /\ _get_recent_emails (VStr (lit "3")) (running three_messages) =
     (Ok (error_payload
            (lit "Erro ao buscar emails recentes: " ++ exc_msg slice_type_error)),
      sent (running three_messages) [ReqList None (VStr (lit "3"))]).
Proof.
  destruct (recent_emails_odd_counts three_messages (running three_messages)
              (Some [lit "m1"; lit "m2"; lit "m3"]) eq_refl) as [H1 [H2 H3]].
  split; [exact (H1 eq_refl)|].
  split; [exact (H2 (-2)%Z eq_refl eq_refl) | exact (H3 (lit "3") eq_refl)].
Defined.

(** [_get_unread_emails] asks for the messages matching [is:unread] and
    fetches every message the backend lists, also beyond [count]: the cap
    is left to the backend. *)
Theorem unread_emails_payload svc s count result :
  service s = Some svc ->
  messages_list svc (Some is_unread) count = Ok result ->
  _get_unread_emails count s =
  (Ok (listing_payload (lit "get_unread_emails")
         (filter_map (fetched svc) (listed result))),
   sent s (ReqList (Some (VStr (lit "is:unread"))) count
           :: map get_request (listed result))).
Proof.
  intros Hs Hlist.
  cbv [_get_unread_emails try_ bind the_service get_service send lift ret].
  rewrite Hs, Hlist. cbv beta iota.
  fold (sent s [ReqList (Some is_unread) count]).
  rewrite (fetch_emails_run svc) by exact Hs.
  rewrite sent_sent. reflexivity.
Qed.

(** With [count = 1] on a mailbox that lists three, three come back. *)
Lemma unread_emails_payload_witness :
  _get_unread_emails (VInt 1) (running three_messages) =
  (Ok (listing_payload (lit "get_unread_emails")
         (filter_map (fetched three_messages) [lit "m1"; lit "m2"; lit "m3"])),
   sent (running three_messages)
        (ReqList (Some (VStr (lit "is:unread"))) (VInt 1)
         :: map get_request [lit "m1"; lit "m2"; lit "m3"])).
Proof.
  apply (unread_emails_payload three_messages (running three_messages) (VInt 1)
           (Some [lit "m1"; lit "m2"; lit "m3"])); reflexivity.
Defined.

Lemma listing_failure_helper svc s count query e :
  service s = Some svc ->
  (messages_list svc None count = Raise e ->
   _get_recent_emails count s =
   (Ok (error_payload (lit "Erro ao buscar emails recentes: " ++ exc_msg e)),
    sent s [ReqList None count]))
  /\ (messages_list svc (Some is_unread) count = Raise e ->
      _get_unread_emails count s =
      (Ok (error_payload (lit "Erro ao buscar emails não lidos: " ++ exc_msg e)),
       sent s [ReqList (Some is_unread) count]))
  /\ (messages_list svc (Some query) count = Raise e ->
      _search_emails query count s =
      (Ok (error_payload
             (lit "Erro na busca '" ++ py_str query ++ lit "': " ++ exc_msg e)),
       sent s [ReqList (Some query) count])).
Proof.
  intros Hs. split; [|split]; intros Hl.
  - cbv [_get_recent_emails try_ bind the_service get_service send lift ret].
    now rewrite Hs, Hl.
  - cbv [_get_unread_emails try_ bind the_service get_service send lift ret].
    now rewrite Hs, Hl.
  - cbv [_search_emails try_ bind the_service get_service send lift ret].
    now rewrite Hs, Hl.
Qed.

(** When the listing call fails, each of the three listing tools returns
    its own error dictionary, with the text of the exception, and stops
    after that one request. *)
Theorem listing_failure_payloads svc s count query e :
  service s = Some svc ->
  (messages_list svc None count = Raise e ->
   _get_recent_emails count s =
   (Ok (error_payload (lit "Erro ao buscar emails recentes: " ++ exc_msg e)),
    sent s [ReqList None count]))
  /\ (messages_list svc (Some is_unread) count = Raise e ->
      _get_unread_emails count s =
      (Ok (error_payload (lit "Erro ao buscar emails não lidos: " ++ exc_msg e)),
       sent s [ReqList (Some is_unread) count]))
  /\ (messages_list svc (Some query) count = Raise e ->
      _search_emails query count s =
      (Ok (error_payload
             (lit "Erro na busca '" ++ py_str query ++ lit "': " ++ exc_msg e)),
       sent s [ReqList (Some query) count])).
Proof.
  intros Hs.
  destruct (listing_failure_helper svc s count query e Hs) as [H1 [H2 H3]].
  repeat split; assumption.
Qed.

Lemma listing_failure_payloads_witness :
  _get_recent_emails (VInt 5) (running no_listing) =
    (Ok (error_payload (lit "Erro ao buscar emails recentes: " ++ lit "429")),
     sent (running no_listing) [ReqList None (VInt 5)])
  /\ _get_unread_emails (VInt 5) (running no_listing) =
    (Ok (error_payload (lit "Erro ao buscar emails não lidos: " ++ lit "429")),
     sent (running no_listing) [ReqList (Some is_unread) (VInt 5)])
  /\ _search_emails (VInt 7) (VInt 5) (running no_listing) =
    (Ok (error_payload (lit "Erro na busca '" ++ lit "7" ++ lit "': " ++ lit "429")),
     sent (running no_listing) [ReqList (Some (VInt 7)) (VInt 5)]).
Proof.
  destruct (listing_failure_payloads no_listing (running no_listing) (VInt 5)
              (VInt 7) quota_exceeded eq_refl) as [H1 [H2 H3]].
  split; [exact (H1 eq_refl)|]. split; [exact (H2 eq_refl) | exact (H3 eq_refl)].
Defined.

Lemma handle_call_tool_unfold env name arguments s :
  handle_call_tool env name arguments s =
  match service s with
  | Some _ => dispatch_body name (or_empty arguments) s
  | None =>
    match _initialize_gmail env s with
    | (Ok _, s1) => dispatch_body name (or_empty arguments) s1
    | (Raise e, s1) => (Raise e, s1)
    end
  end.
Proof.
  unfold handle_call_tool. unfold bind at 1. unfold bind at 1.
  unfold get_service. destruct (service s); [reflexivity|].
  destruct (_initialize_gmail env s) as [[[]|e] s1]; reflexivity.
Qed.

Lemma config_ret {A} (a : A) : keeps_config (ret a).
Proof. intros s. split; reflexivity. Qed.

Lemma config_raise {A} (e : exn) : keeps_config (@raise server A e).
Proof. intros s. split; reflexivity. Qed.

Lemma config_lift {A} (r : res A) : keeps_config (lift r).
Proof. intros s. split; reflexivity. Qed.

Lemma config_send {A} (r : request) (a : res A) : keeps_config (send r a).
Proof. intros s. split; reflexivity. Qed.

Lemma config_get_service : keeps_config get_service.
Proof. intros s. split; reflexivity. Qed.

Lemma config_bind {A B} (m : M A) (k : A -> M B) :
  keeps_config m -> (forall a, keeps_config (k a)) -> keeps_config (bind m k).
Proof.
  intros Hm Hk s. unfold bind. specialize (Hm s).
  destruct (m s) as [[a|e] s1]; simpl in *; [|exact Hm].
  destruct (Hk a s1) as [H1 H2]. destruct Hm as [H3 H4].
  split; congruence.
Qed.

Lemma config_try {A} (m : M A) (h : exn -> M A) :
  keeps_config m -> (forall e, keeps_config (h e)) -> keeps_config (try_ m h).
Proof.
  intros Hm Hh s. unfold try_. specialize (Hm s).
  destruct (m s) as [[a|e] s1]; simpl in *; [exact Hm|].
  destruct (Hh e s1) as [H1 H2]. destruct Hm as [H3 H4].
  split; congruence.
Qed.

Ltac keeps_config_step :=
  first
    [ apply config_bind; [|intros ?]
    | apply config_try; [|intros ?]
    | apply config_ret
    | apply config_raise
    | apply config_lift
    | apply config_send
    | apply config_get_service
    | match goal with
      | |- keeps_config (match ?x with _ => _ end) => destruct x
      end ].

Lemma config_get_email_details v : keeps_config (_get_email_details v).
Proof. unfold _get_email_details, the_service. repeat keeps_config_step. Qed.

Lemma config_fetch_emails ids : keeps_config (fetch_emails ids).
Proof.
  induction ids as [|id rest IH]; cbn [fetch_emails].
  - apply config_ret.
  - apply config_bind; [apply config_get_email_details|intros j].
    apply config_bind; [exact IH|intros es]. apply config_ret.
Qed.

Lemma config_dispatch_body name arguments :
  keeps_config (dispatch_body name arguments).
Proof.
  unfold dispatch_body, _get_recent_emails, _get_unread_emails, _search_emails,
    the_service.
  repeat first [ apply config_fetch_emails
               | apply config_get_email_details
               | keeps_config_step ].
Qed.

Lemma dispatch_body_returns name arguments s :
  exists j, fst (dispatch_body name arguments s) = Ok (envelope j).
Proof.
  unfold dispatch_body, try_.
  match goal with |- context [bind ?m ?k s] => destruct (bind m k s) as [[b|e] s1] eqn:E end.
  - unfold bind in E.
    match type of E with (let (_, _) := ?h s in _) = _ => destruct (h s) as [[j|e] s2] end;
      [|discriminate].
    unfold ret in E. inversion E. exists j. reflexivity.
  - eexists. reflexivity.
Qed.

(** Case analysis on everything [_initialize_gmail] consults. *)
Ltac init_cases :=
  cbv [_initialize_gmail try_ bind load_token write_token authorize lift ret
       raise set_service has_refresh_token];
  repeat (cbv beta iota;
          match goal with
          | |- context [match ?x with _ => _ end] =>
            lazymatch x with
            | context [match _ with _ => _ end] => fail
            | (_, _) => fail
            | _ => destruct x eqn:?
            end
          end);
  cbv beta iota.

Ltac by_equations :=
  repeat match goal with
         | H : ?l = ?r |- context [?l] => rewrite H
         end;
  cbn; first [reflexivity | congruence].

Ltac init_close :=
  first
    [ eassumption
    | reflexivity
    | by_equations
    | eexists; init_close
    | split; init_close
    | left; init_close
    | right; init_close ].

Lemma initialize_outcome env s :
  match _initialize_gmail env s with
  | (Ok _, s') => init_returned env s s'
  | (Raise e, s') => init_raised env s e s'
  end.
Proof.
  unfold init_returned, init_raised.
  init_cases.
  all: repeat match goal with u : unit |- _ => destruct u end.
  all: subst; cbn [service token_file trace].
  all: repeat match goal with
              | H : _ && _ = true |- _ => apply andb_prop in H; destruct H
              end.
  all: solve [init_close].
Qed.

(** When [_initialize_gmail] returns, the service was built from
    credentials that are the valid ones of the token file, which is then
    left as it was, or the outcome of refreshing the stored ones, which
    were not valid, expired and had a refresh token, or the outcome of the
    interactive flow, run because nothing was stored or the stored ones
    could not be refreshed, with [credentials.json] in place; in the last
    two cases they were written to the token file before the build.  No
    request went to the mail API. *)
Theorem initialize_success env s s' :
  _initialize_gmail env s = (Ok tt, s') ->
  exists c svc,
    build env c = Ok svc
    /\ service s' = Some svc
    /\ trace s' = trace s
    /\ ((token_file s = Some (Ok c) /\ valid c = true
         /\ token_file s' = token_file s)
        \/ ((exists c0,
               token_file s = Some (Ok c0) /\ valid c0 = false
               /\ expired c0 = true /\ has_refresh_token c0 = true
               /\ refresh env c0 = Ok c)
            /\ save_token env c = Ok tt
            /\ token_file s' = Some (Ok c))
        \/ ((token_file s = None
             \/ exists c0,
                  token_file s = Some (Ok c0) /\ valid c0 = false
                  /\ (expired c0 && has_refresh_token c0) = false)
            /\ credentials_file env = true
            /\ run_flow env = Ok c
            /\ save_token env c = Ok tt
            /\ token_file s' = Some (Ok c))).
Proof.
  intros H. pose proof (initialize_outcome env s) as P.
  rewrite H in P. exact P.
Qed.

(** When [_initialize_gmail] raises, the exception is an [Exception] whose
    text is ["Erro ao inicializar Gmail: "] followed by the text of the
    cause; [self.service] is as before, so that the next call tries
    again, and no request went to the mail API. *)
Theorem initialize_failure env s e s' :
  _initialize_gmail env s = (Raise e, s') ->
  (exists cause, e = init_error cause)
  /\ service s' = service s
  /\ trace s' = trace s.
Proof.
  intros H. pose proof (initialize_outcome env s) as P.
  rewrite H in P. destruct P as [P1 [P2 [P3 _]]]. auto.
Qed.

(** Without [credentials.json], and without stored credentials that are
    valid or can be refreshed, [_initialize_gmail] raises the wrapped
    [FileNotFoundError] and changes nothing: no flow is run, nothing is
    written and no service is built. *)
Theorem initialize_without_credentials env s :
  credentials_file env = false ->
  token_file s = None
  \/ (exists c0, token_file s = Some (Ok c0) /\ valid c0 = false
               /\ (expired c0 && has_refresh_token c0) = false) ->
  _initialize_gmail env s = (Raise (init_error missing_credentials), s).
Proof.
  intros Hfile Htok.
  cbv [_initialize_gmail try_ bind load_token write_token authorize lift ret
       raise set_service].
  destruct Htok as [Htok | [c0 [Htok [Hv Hr]]]].
  - now rewrite Htok, Hfile.
  - now rewrite Htok, Hv, Hr, Hfile.
Qed.

Lemma initialize_without_credentials_witness :
  _initialize_gmail no_credentials (new_server None) =
  (Raise (init_error missing_credentials), new_server None).
Proof.
  apply (initialize_without_credentials no_credentials (new_server None));
    [reflexivity | left; reflexivity].
Defined.

(** With credentials in the token file: valid ones are used as they are,
    and nothing is refreshed, asked or written; expired ones with a
    refresh token are refreshed, written to the token file and then used,
    and the interactive flow is not run; when the refresh or the write
    raises, the wrapped exception is raised and no service is built. *)
Theorem initialize_with_stored_token env s c0 :
  token_file s = Some (Ok c0) ->
  (valid c0 = true ->
   _initialize_gmail env s =
   match build env c0 with
   | Ok svc => (Ok tt, MkServer (Some svc) (token_file s) (trace s))
   | Raise e => (Raise (init_error e), s)
   end)
  /\ (valid c0 = false -> expired c0 = true -> has_refresh_token c0 = true ->
      match refresh env c0 with
      | Raise e => _initialize_gmail env s = (Raise (init_error e), s)
      | Ok c1 =>
        match save_token env c1 with
        | Raise e =>
          fst (_initialize_gmail env s) = Raise (init_error e)
          /\ service (snd (_initialize_gmail env s)) = service s
        | Ok _ =>
          _initialize_gmail env s =
          match build env c1 with
          | Ok svc => (Ok tt, MkServer (Some svc) (Some (Ok c1)) (trace s))
          | Raise e =>
            (Raise (init_error e), MkServer (service s) (Some (Ok c1)) (trace s))
          end
        end
      end).
Proof.
  intros Htok. split.
  - intros Hv.
    cbv [_initialize_gmail try_ bind load_token write_token authorize lift ret
         raise set_service].
    rewrite Htok, Hv. cbv beta iota.
    destruct (build env c0); rewrite ?Htok; reflexivity.
  - intros Hv He Hr.
    cbv [_initialize_gmail try_ bind load_token write_token authorize lift ret
         raise set_service].
    rewrite Htok, Hv, He, Hr. cbv beta iota delta [andb].
    destruct (refresh env c0) as [c1|e]; cbv beta iota; [|reflexivity].
    destruct (save_token env c1) as [[]|e]; cbv beta iota;
      [|split; reflexivity].
    destruct (build env c1); reflexivity.
Qed.

Lemma initialize_success_witness :
  init_returned refreshing_host (new_server (Some (Ok expired_token)))
                (MkServer (Some three_messages) (Some (Ok valid_token)) [])
  /\ init_returned ready_host (new_server None)
                   (MkServer (Some three_messages) (Some (Ok valid_token)) []).
Proof.
  split.
  - apply (initialize_success refreshing_host (new_server (Some (Ok expired_token)))).
    reflexivity.
  - apply (initialize_success ready_host (new_server None)).
    reflexivity.
Defined.

Lemma initialize_failure_witness :
  (exists cause, init_error missing_credentials = init_error cause)
  /\ service (new_server None) = service (new_server None)
  /\ trace (new_server None) = trace (new_server None).
Proof.
  apply (initialize_failure no_credentials (new_server None)
           (init_error missing_credentials) (new_server None)).
  reflexivity.
Defined.

Lemma initialize_with_stored_token_witness :
  _initialize_gmail refreshing_host (new_server (Some (Ok expired_token))) =
  (Ok tt, MkServer (Some three_messages) (Some (Ok valid_token)) []).
Proof.
  destruct (initialize_with_stored_token refreshing_host
              (new_server (Some (Ok expired_token))) expired_token eq_refl)
    as [_ H].
  exact (H eq_refl eq_refl eq_refl).
Defined.

(** Once [self.service] is set it stays: a call on a running server does
    not look at the host any more, and leaves the service and the token
    file as they are. *)
Theorem running_server_stays env env' name arguments s svc :
  service s = Some svc ->
  handle_call_tool env name arguments s = handle_call_tool env' name arguments s
  /\ service (snd (handle_call_tool env name arguments s)) = Some svc
  /\ token_file (snd (handle_call_tool env name arguments s)) = token_file s.
Proof.
  intros Hs. rewrite !handle_call_tool_unfold, Hs.
  destruct (config_dispatch_body name (or_empty arguments) s) as [H1 H2].
  split; [reflexivity|]. split; [congruence | exact H2].
Qed.

Lemma running_server_stays_witness :
  handle_call_tool no_credentials (lit "get_recent_emails") None
                   (running three_messages) =
  handle_call_tool ready_host (lit "get_recent_emails") None
                   (running three_messages)
  /\ service (snd (handle_call_tool no_credentials (lit "get_recent_emails") None
                                    (running three_messages))) =
     Some three_messages
  /\ token_file (snd (handle_call_tool no_credentials (lit "get_recent_emails") None
                                       (running three_messages))) =
     token_file (running three_messages).
Proof.
  apply (running_server_stays no_credentials ready_host (lit "get_recent_emails")
           None (running three_messages) three_messages).
  reflexivity.
Defined.

(** A call that returns gives exactly one text block around a JSON value
    and leaves the server with a service; a call raises only when the
    server had no service and [_initialize_gmail] raised, and then the
    server still has none. *)
Theorem dispatch_outcome env name arguments s :
  (forall blocks s',
     handle_call_tool env name arguments s = (Ok blocks, s') ->
     (exists j, blocks = envelope j) /\ service s' <> None)
  /\ (forall e s',
        handle_call_tool env name arguments s = (Raise e, s') ->
        service s = None
        /\ _initialize_gmail env s = (Raise e, s')
        /\ service s' = None).
Proof.
  rewrite handle_call_tool_unfold.
  assert (Hbody : forall s0 r s',
            service s0 <> None ->
            dispatch_body name (or_empty arguments) s0 = (r, s') ->
            (exists j, r = Ok (envelope j)) /\ service s' <> None).
  { intros s0 r s' Hs0 Hrun.
    destruct (dispatch_body_returns name (or_empty arguments) s0) as [j Hj].
    destruct (config_dispatch_body name (or_empty arguments) s0) as [Hsvc _].
    rewrite Hrun in Hj, Hsvc. simpl in Hj, Hsvc.
    split; [exists j; exact Hj | congruence]. }
  destruct (service s) as [svc|] eqn:Hs.
  - split.
    + intros blocks s' Hrun.
      destruct (Hbody s (Ok blocks) s') as [[j Hj] Hsvc]; [congruence|exact Hrun|].
      inversion Hj. split; [now exists j | exact Hsvc].
    + intros e s' Hrun.
      destruct (Hbody s (Raise e) s') as [[j Hj] _]; [congruence|exact Hrun|].
      discriminate.
  - pose proof (initialize_outcome env s) as Hinit.
    destruct (_initialize_gmail env s) as [[[]|e0] s1].
    + destruct Hinit as [c [svc [_ [Hsvc _]]]]. split.
      * intros blocks s' Hrun.
        destruct (Hbody s1 (Ok blocks) s') as [[j Hj] Hs']; [congruence|exact Hrun|].
        inversion Hj. split; [now exists j | exact Hs'].
      * intros e s' Hrun.
        destruct (Hbody s1 (Raise e) s') as [[j Hj] _]; [congruence|exact Hrun|].
        discriminate.
    + destruct Hinit as [_ [Hsvc _]]. split.
      * intros blocks s' Hrun. discriminate.
      * intros e s' Hrun. inversion Hrun; subst.
        repeat split. congruence.
Qed.

Lemma dispatch_outcome_witness :
  (exists j,
     fst (handle_call_tool ready_host (lit "get_unread_emails") None
                           (new_server (Some (Ok valid_token)))) =
     Ok (envelope j))
  /\ service (snd (handle_call_tool ready_host (lit "get_unread_emails") None
                                    (new_server (Some (Ok valid_token))))) <> None.
Proof.
  destruct (dispatch_outcome ready_host (lit "get_unread_emails") None
              (new_server (Some (Ok valid_token)))) as [H _].
  destruct (handle_call_tool ready_host (lit "get_unread_emails") None
              (new_server (Some (Ok valid_token)))) as [[blocks|e] s'] eqn:E.
  - destruct (H blocks s' eq_refl) as [[j Hj] Hsvc].
    split; [exists j; simpl; now rewrite Hj | exact Hsvc].
  - vm_compute in E. discriminate E.
Defined.

Lemma recent_requests svc s count :
  service s = Some svc ->
  snd (_get_recent_emails count s) =
  sent s (ReqList None count
          :: fetches (messages_list svc None count) (fun l => py_slice_to l count)).
Proof.
  intros Hs. unfold fetches.
  destruct (messages_list svc None count) as [result|e] eqn:Hl.
  - rewrite (recent_emails_run svc s count result Hs Hl).
    destruct (py_slice_to (listed result) count) as [ids|e]; reflexivity.
  - destruct (listing_failure_helper svc s count (VStr []) e Hs) as [H _].
    now rewrite (H Hl).
Qed.

Lemma unread_requests svc s count :
  service s = Some svc ->
  snd (_get_unread_emails count s) =
  sent s (ReqList (Some is_unread) count
          :: fetches (messages_list svc (Some is_unread) count) Ok).
Proof.
  intros Hs. unfold fetches.
  cbv [_get_unread_emails try_ bind the_service get_service send lift ret].
  rewrite Hs. cbv beta iota.
  fold (sent s [ReqList (Some is_unread) count]).
  destruct (messages_list svc (Some is_unread) count) as [result|e];
    [|reflexivity].
  rewrite (fetch_emails_run svc) by exact Hs. now rewrite sent_sent.
Qed.

Lemma search_requests svc s query count :
  service s = Some svc ->
  snd (_search_emails query count s) =
  sent s (ReqList (Some query) count
          :: fetches (messages_list svc (Some query) count) Ok).
Proof.
  intros Hs. unfold fetches.
  cbv [_search_emails try_ bind the_service get_service send lift ret].
  rewrite Hs. cbv beta iota.
  fold (sent s [ReqList (Some query) count]).
  destruct (messages_list svc (Some query) count) as [result|e];
    [|reflexivity].
  rewrite (fetch_emails_run svc) by exact Hs. now rewrite sent_sent.
Qed.

Lemma details_requests svc s v :
  service s = Some svc ->
  snd (_get_email_details v s) = sent s [ReqGet v].
Proof.
  intros Hs. destruct (get_email_details_sends svc s v Hs) as [r Hr].
  now rewrite Hr.
Qed.

Lemma dispatch_body_requests svc name arguments s :
  service s = Some svc ->
  snd (dispatch_body name arguments s) = sent s (tool_requests svc name arguments).
Proof.
  intros Hs.
  assert (Hwrap : forall (h : M json) rs,
    snd (h s) = sent s rs ->
    snd (try_
           (bind h (fun result => ret [text_content (json_dumps result 2 false)]))
           (fun e =>
              ret [text_content
                     (json_dumps
                        (error_payload
                           (lit "Erro ao executar " ++ name ++ lit ": " ++ exc_msg e))
                        2 true)]) s) = sent s rs).
  { intros h rs Hrun. unfold try_, bind, ret.
    destruct (h s) as [[j|e] s1]; exact Hrun. }
  unfold dispatch_body, tool_requests.
  destruct (str_eqb name (lit "get_recent_emails"));
    [apply Hwrap; now apply recent_requests|].
  destruct (str_eqb name (lit "get_unread_emails"));
    [apply Hwrap; now apply unread_requests|].
  destruct (str_eqb name (lit "search_emails"));
    [apply Hwrap; now apply search_requests|].
  destruct (str_eqb name (lit "get_email_details"));
    [apply Hwrap; now apply (details_requests svc)|].
  apply Hwrap. unfold ret. now rewrite sent_nil.
Qed.

Lemma slice_is_prefix {A} (l : list A) (count : pyval) (ids : list A) :
  py_slice_to l count = Ok ids -> exists n, ids = firstn n l.
Proof.
  destruct count as [|b|z|t]; cbn [py_slice_to]; intros H;
    [injection H as <- | injection H as <- | injection H as <- | discriminate H].
  - exists (List.length l). symmetry. apply firstn_all.
  - unfold slice_to. destruct (_ <? 0)%Z; eexists; reflexivity.
  - unfold slice_to. destruct (_ <? 0)%Z; eexists; reflexivity.
Qed.

(** Whatever the call, the requests already sent stay, and the call adds
    exactly the requests of its tool to the service the server then has:
    for a listing tool the list request, followed by one detail request
    for each identifier that this listing answered, in the order listed,
    and for [get_recent_emails] for the first of them only, as the slice
    leaves them; for [get_email_details] the one detail request; nothing
    for another name, and nothing when the server is left without a
    service. *)
Theorem call_sends_requests env name arguments s :
  trace (snd (handle_call_tool env name arguments s)) =
  trace s
  ++ match service (snd (handle_call_tool env name arguments s)) with
     | Some svc => tool_requests svc name (or_empty arguments)
     | None => []
     end
  /\ (forall listing count,
        exists n,
          fetches listing (fun l => py_slice_to l count) =
          map get_request
              (firstn n (match listing with
                         | Ok result => listed result
                         | Raise _ => []
                         end))).
Proof.
  split.
  - rewrite handle_call_tool_unfold.
    destruct (service s) as [svc|] eqn:Hs.
    + destruct (config_dispatch_body name (or_empty arguments) s) as [Hsvc _].
      rewrite Hsvc, Hs.
      now rewrite (dispatch_body_requests svc name (or_empty arguments) s Hs).
    + pose proof (initialize_outcome env s) as Hinit.
      destruct (_initialize_gmail env s) as [[[]|e0] s1].
      * destruct Hinit as [c [svc [_ [Hsvc [Htr _]]]]].
        destruct (config_dispatch_body name (or_empty arguments) s1) as [Hkeep _].
        rewrite Hkeep, Hsvc.
        rewrite (dispatch_body_requests svc name (or_empty arguments) s1 Hsvc).
        unfold sent. simpl. now rewrite Htr.
      * destruct Hinit as [_ [Hsvc [Htr _]]].
        cbn [snd]. rewrite Hsvc, Hs, Htr. now rewrite app_nil_r.
  - intros listing count. unfold fetches.
    destruct listing as [result|e]; [|exists 0%nat; reflexivity].
    destruct (py_slice_to (listed result) count) as [ids|e] eqn:Hslice.
    + destruct (slice_is_prefix _ _ _ Hslice) as [n ->]. now exists n.
    + exists 0%nat. reflexivity.
Qed.

(** The tools listed by [handle_list_tools] and the dispatcher agree on
    the defaults: for every parameter that the schema of a tool gives a
    default, a call without that parameter is the call with the default
    of the schema. *)
Theorem schema_defaults_are_used env s t k p v args :
  In t handle_list_tools ->
  In (k, p) (t_properties t) ->
  p_default p = Some v ->
  dict_find args k = None ->
  handle_call_tool env (t_name t) (Some args) s =
  handle_call_tool env (t_name t) (Some ((k, v) :: args)) s.
Proof.
  intros Ht Hp Hd Hk.
  cbn [In handle_list_tools] in Ht.
  destruct Ht as [<-|[<-|[<-|[<-|[]]]]]; cbn [t_properties In t_name] in Hp |- *.
  - destruct Hp as [Hp|[]]. inversion Hp; subst. cbn in Hd. inversion Hd; subst.
    cbv [handle_call_tool or_empty]; pick_tool.
    now rewrite dict_get_head, dict_get_absent by exact Hk.
  - destruct Hp as [Hp|[]]. inversion Hp; subst. cbn in Hd. inversion Hd; subst.
    cbv [handle_call_tool or_empty]; pick_tool.
    now rewrite dict_get_head, dict_get_absent by exact Hk.
  - destruct Hp as [Hp|[Hp|[]]]; inversion Hp; subst; cbn in Hd;
      [discriminate|]. inversion Hd; subst.
    cbv [handle_call_tool or_empty]; pick_tool.
    rewrite dict_get_head, (dict_get_absent args (lit "count")) by exact Hk.
    now rewrite dict_get_other by reflexivity.
  - destruct Hp as [Hp|[]]. inversion Hp; subst. cbn in Hd. discriminate.
Qed.

Lemma schema_defaults_are_used_witness :
  handle_call_tool ready_host (lit "get_unread_emails") (Some [])
                   (running three_messages) =
  handle_call_tool ready_host (lit "get_unread_emails")
                   (Some [(lit "count", VInt 10)]) (running three_messages).
Proof.
  apply (schema_defaults_are_used ready_host (running three_messages)
           (MkTool (lit "get_unread_emails") (lit "Busca emails não lidos")
              [ (lit "count",
                 MkProperty (lit "integer")
                   (lit "Número máximo de emails não lidos (padrão: 10)")
                   (Some (VInt 10))) ]
              [])
           (lit "count")
           (MkProperty (lit "integer")
              (lit "Número máximo de emails não lidos (padrão: 10)")
              (Some (VInt 10)))
           (VInt 10) []).
  - right. left. reflexivity.
  - left. reflexivity.
  - reflexivity.
  - reflexivity.
Defined.

(** The handler the SDK registers around [handle_call_tool] never raises.
    When the server has no service and [_initialize_gmail] raises, on a
    call whose arguments the validation lets through, the exception that
    leaves [handle_call_tool] becomes an error result whose one block is
    the text of the exception, "Erro ao inicializar Gmail: ...": a text
    that names no tool. *)
Theorem served_call_never_raises message plain env name arguments s :
  (exists result s',
     Sdk.call_tool_handler message plain env name arguments s = (Ok result, s'))
  /\ (forall e s1,
        service s = None ->
        _initialize_gmail env s = (Raise e, s1) ->
        match Sdk.cached_tool name with
        | Some tool => Sdk.valid_input tool (or_empty arguments) = true
        | None => True
        end ->
        Sdk.call_tool_handler message plain env name arguments s =
        (Ok (Sdk._make_error_result plain (exc_msg e)), s1)
        /\ exists cause,
             exc_msg e = lit "Erro ao inicializar Gmail: " ++ exc_msg cause).
Proof.
  split.
  - unfold Sdk.call_tool_handler, try_.
    match goal with
    | |- exists _ _, (let (_, _) := ?m in _) = _ => destruct m as [[r|e] s']
    | |- exists _ _, match ?m with _ => _ end = _ => destruct m as [[r|e] s']
    end; eexists; eexists; reflexivity.
  - intros e s1 Hs Hinit Hvalid. split.
    + pose proof (dispatch_raises_when_init_raises env name
                    (Some (or_empty arguments)) s e s1 Hs Hinit) as Hrun.
      unfold Sdk.call_tool_handler, try_, bind, ret.
      destruct (Sdk.cached_tool name) as [tool|].
      * rewrite Hvalid, Hrun. reflexivity.
      * rewrite Hrun. reflexivity.
    + pose proof (initialize_outcome env s) as P. rewrite Hinit in P.
      destruct P as [[cause ->] _]. exists cause. reflexivity.
Qed.

Lemma served_call_never_raises_witness :
  Sdk.call_tool_handler query_required unparsed no_credentials
    (lit "get_recent_emails") (Some [(lit "count", VInt 5)]) (new_server None) =
  (Ok (Sdk._make_error_result unparsed (exc_msg (init_error missing_credentials))),
   new_server None).
Proof.
  destruct (served_call_never_raises query_required unparsed no_credentials
              (lit "get_recent_emails") (Some [(lit "count", VInt 5)])
              (new_server None)) as [_ H].
  destruct (H (init_error missing_credentials) (new_server None) eq_refl)
    as [Hrun _]; [vm_compute; reflexivity | vm_compute; reflexivity | exact Hrun].
Defined.

(** A dump of the token that fails after the file was opened leaves a
    file that [pickle.load] cannot read, and with it no later call can
    initialise the server, on whatever host: [_initialize_gmail] raises
    the wrapped error of the load, and changes nothing, before it looks
    at anything else. *)
Theorem failed_dump_blocks_initialisation env env' s c cause unreadable :
  token_file s = None ->
  credentials_file env = true ->
  run_flow env = Ok c ->
  save_token env c = Raise cause ->
  torn_token env c = Some unreadable ->
  _initialize_gmail env s =
  (Raise (init_error cause),
   MkServer (service s) (Some (Raise unreadable)) (trace s))
  /\ _initialize_gmail env'
       (MkServer (service s) (Some (Raise unreadable)) (trace s)) =
     (Raise (init_error unreadable),
      MkServer (service s) (Some (Raise unreadable)) (trace s)).
Proof.
  intros Htok Hfile Hflow Hsave Htorn. split.
  - cbv [_initialize_gmail try_ bind load_token write_token authorize lift ret
         raise set_service].
    rewrite Htok, Hfile, Hflow, Hsave, Htorn. reflexivity.
  - reflexivity.
Qed.

Lemma failed_dump_blocks_initialisation_witness :
  _initialize_gmail full_disk_host (new_server None) =
  (Raise (init_error disk_full), MkServer None (Some (Raise empty_pickle)) [])
  /\ _initialize_gmail ready_host (MkServer None (Some (Raise empty_pickle)) []) =
     (Raise (init_error empty_pickle), MkServer None (Some (Raise empty_pickle)) []).
Proof.
  apply (failed_dump_blocks_initialisation full_disk_host ready_host
           (new_server None) valid_token disk_full empty_pickle);
    reflexivity.
Defined.

End ServerCover.

(** ** More on the client *)

Module ClientCover.

Import Server Client Scenario ClientTest ClientNotion ClientFacts.

(** On a connected client a tool method reads the first content block
    only: without a block it returns [{error: "Resposta vazia do servidor
    MCP"}]; a block that is JSON is returned as decoded, an error
    dictionary of the server included; a block that is no JSON gives
    [{error: "Erro ao chamar <tool>: <decoding error>"}]. *)
Theorem tool_method_decodes r c s result :
  connected c = true ->
  session c = Some s ->
  call_tool s (tool_name r) (tool_arguments r) = Ok result ->
  run_method r c = Ok (decoded (tool_name r) result).
Proof.
  intros Hc Hs Hcall.
  rewrite run_method_invoke, (invoke_connected _ _ _ _ Hc Hs), Hcall.
  unfold decoded. destruct (content result) as [|block rest]; [reflexivity|].
  destruct (text block); reflexivity.
Qed.

Lemma tool_method_decodes_witness :
  get_email_details (VStr (lit "m1")) (connected_to two_blocks) = Ok (JInt 1).
Proof.
  apply (tool_method_decodes (GetDetails (VStr (lit "m1")))
           (connected_to two_blocks) two_blocks
           (MkResult [ MkTextContent (lit "text") (JsonText (JInt 1));
                       MkTextContent (lit "text") (JsonText (JInt 2)) ]));
    reflexivity.
Defined.

Lemma connect_state ep c :
  snd (connect ep c) =
  MkClient (server_script_path c) (session_after ep c)
           (entered ep ++ exit_stack c)
           (handshake_ok ep || connected c).
Proof.
  cbv [connect try_ bind enter_async_context set_session set_connected lift ret
       handshake_ok session_after entered].
  destruct c as [path sess stack conn].
  destruct (stdio_client ep) as [[]|e]; cbn; [|reflexivity].
  destruct (client_session ep) as [s|e]; cbn; [|reflexivity].
  destruct (initialize s) as [[]|e]; cbn; [|reflexivity].
  destruct (list_tools s) as [tools|e]; reflexivity.
Qed.

(** [connect] keeps every context it entered on the exit stack, also when
    it returns [False] half way, and [disconnect] empties the stack
    whatever [connect] did and whether or not closing raises; when
    closing returns, the client is not connected. *)
Theorem disconnect_releases_everything ep ep' c :
  exit_stack (snd (connect ep c)) = entered ep ++ exit_stack c
  /\ exit_stack (snd (disconnect ep' (snd (connect ep c)))) = []
  /\ (aclose ep' = Ok tt ->
      disconnect ep' (snd (connect ep c)) =
      (Ok tt, MkClient (server_script_path c) (session_after ep c) [] false)).
Proof.
  rewrite connect_state. split; [reflexivity|].
  rewrite disconnect_run. split.
  - destruct (aclose ep'); reflexivity.
  - intros ->. reflexivity.
Qed.

Lemma disconnect_releases_everything_witness :
  exit_stack (snd (connect rejects_handshake (new_client script))) =
    [SessionContext; StdioTransport] ++ []
  /\ exit_stack (snd (disconnect rejects_handshake
                         (snd (connect rejects_handshake (new_client script))))) = []
  /\ (Ok tt = Ok tt ->
      disconnect rejects_handshake
                 (snd (connect rejects_handshake (new_client script))) =
      (Ok tt, MkClient script (session_after rejects_handshake (new_client script))
                       [] false)).
Proof.
  apply (disconnect_releases_everything rejects_handshake rejects_handshake
           (new_client script)).
Defined.

(** A [connect] that fails after the session was opened replaces the
    session of a client that was connected: the client stays connected,
    and its tool methods then talk to the new session. *)
Theorem failed_reconnect_replaces_session ep c s2 r :
  connected c = true ->
  stdio_client ep = Ok tt ->
  client_session ep = Ok s2 ->
  handshake_ok ep = false ->
  fst (connect ep c) = Ok false
  /\ connected (snd (connect ep c)) = true
  /\ session (snd (connect ep c)) = Some s2
  /\ run_method r (snd (connect ep c)) =
     run_method r (MkClient (server_script_path c) (Some s2) [] true).
Proof.
  intros Hc Hio Hsess Hko.
  destruct (connect_run ep c) as [c' [Hrun _]].
  rewrite connect_state. rewrite Hrun, Hko, Hc.
  unfold session_after. rewrite Hio, Hsess.
  repeat split. now rewrite !run_method_invoke.
Qed.

Lemma failed_reconnect_replaces_session_witness :
  fst (connect rejects_handshake (connected_to quiet_session)) = Ok false
  /\ connected (snd (connect rejects_handshake (connected_to quiet_session))) = true
  /\ session (snd (connect rejects_handshake (connected_to quiet_session))) =
     Some (MkSession (Raise connection_lost) (Ok [])
                     (fun _ _ => Raise connection_lost))
  /\ run_method (GetRecent (VInt 1))
                (snd (connect rejects_handshake (connected_to quiet_session))) =
     run_method (GetRecent (VInt 1))
                (MkClient script
                   (Some (MkSession (Raise connection_lost) (Ok [])
                                    (fun _ _ => Raise connection_lost)))
                   [] true).
Proof.
  apply (failed_reconnect_replaces_session rejects_handshake
           (connected_to quiet_session)); reflexivity.
Defined.





Lemma dispatch_client_request env r s :
  service s <> None ->
  exists j s',
    handler_of r s = (Ok j, s')
    /\ handle_call_tool env (tool_name r) (Some (tool_arguments r)) s =
       (Ok (Expect.envelope j), s').
Proof.
  intros Hs.
  destruct r as [count|count|query count|message_id];
    cbv [handle_call_tool bind get_service try_ ret or_empty tool_name
         tool_arguments handler_of];
    (destruct (service s); [|contradiction]);
    ServerFacts.pick_tool;
    rewrite ?ServerFacts.dict_get_head;
    rewrite ?ServerFacts.dict_get_other by reflexivity;
    rewrite ?ServerFacts.dict_get_head.
  - destruct (ServerFacts.get_recent_emails_never_raises count s) as [j [s' ->]].
    eauto.
  - destruct (ServerFacts.get_unread_emails_never_raises count s) as [j [s' ->]].
    eauto.
  - destruct (ServerFacts.search_emails_never_raises query count s) as [j [s' ->]].
    eauto.
  - destruct (ServerFacts.get_email_details_never_raises message_id s)
      as [j [s' ->]].
    eauto.
Qed.

(** The client and the dispatcher agree on the names of the tools and of
    their parameters: when the blocks of a running server come through
    the session unchanged, a tool method returns the dictionary that the
    handler of that tool computes from the values the caller gave, and no
    default of the dispatcher is used. *)
Theorem client_call_reaches_handler env r s c sess :
  service s <> None ->
  connected c = true ->
  session c = Some sess ->
  call_tool sess (tool_name r) (tool_arguments r) =
  transported (fst (handle_call_tool env (tool_name r)
                                     (Some (tool_arguments r)) s)) ->
  exists j s', handler_of r s = (Ok j, s') /\ run_method r c = Ok j.
Proof.
  intros Hs Hc Hsess Hwire.
  destruct (dispatch_client_request env r s Hs) as [j [s' [Hh Hd]]].
  exists j, s'. split; [exact Hh|].
  rewrite Hd in Hwire. cbn [fst transported] in Hwire.
  rewrite run_method_invoke, (invoke_connected _ _ _ _ Hc Hsess), Hwire.
  reflexivity.
Qed.

Lemma client_call_reaches_handler_witness :
  exists j s',
    handler_of (Search (VStr (lit "from:ana")) (VInt 2)) (running three_messages) =
    (Ok j, s')
    /\ run_method (Search (VStr (lit "from:ana")) (VInt 2))
         (connected_to (served_by query_required unparsed ready_host
                                  (running three_messages))) = Ok j.
Proof.
  apply (client_call_reaches_handler ready_host
           (Search (VStr (lit "from:ana")) (VInt 2)) (running three_messages)
           (connected_to (served_by query_required unparsed ready_host
                                    (running three_messages)))
           (served_by query_required unparsed ready_host (running three_messages)));
    [discriminate | reflexivity | reflexivity | vm_compute; reflexivity].
Defined.

End ClientCover.

(** * The agent and the language-model client *)

Module AgentCover.
Import Agent.

(** [process_query] returns one of three texts, whatever [str.lower] makes of
    the query: the table's answer with five e-mails announced and two listed
    when the lowered query holds "últimos" or "recentes", else the answer with
    three announced and one listed when it holds "não lidos" or "unread", and
    the sentence for no e-mail for every other query, the searches by sender
    and by subject among them.  It never raises. *)
Theorem process_query_answers_from_table (py_lower : str -> str) (q : str) :
  process_query py_lower q
  = Ok (if asks_recent (py_lower q) then recent_answer
        else if asks_unread (py_lower q) then unread_answer
        else no_email_answer).
Proof.
  unfold process_query, analyze_intent, asks_recent, asks_unread, with_intent.
  cbn [user_query agent_data formatted_response].
  destruct (contains (lit "últimos") (py_lower q) || contains (lit "recentes") (py_lower q));
    [vm_compute; reflexivity|].
  destruct (contains (lit "não lidos") (py_lower q) || contains (lit "unread") (py_lower q));
    [vm_compute; reflexivity|].
  destruct (contains (lit "de:") (py_lower q) || contains (lit "from:") (py_lower q));
    [vm_compute; reflexivity|].
  destruct (contains (lit "assunto") (py_lower q) || contains (lit "subject:") (py_lower q));
    vm_compute; reflexivity.
Qed.

End AgentCover.

Module OllamaCover.
Import Ollama.

Lemma chat_request_failed post py_repr message c e :
  post (request_url c) (request_payload c message false) = RequestFailed e ->
  chat post py_repr message c
  = (Ok (JStr (lit "Erro: " ++ lit "Erro na API Ollama: " ++ exc_msg e)), c).
Proof.
  intros H. unfold chat, generate. rewrite H.
  replace (dict_find [(lit "error", JStr (lit "Erro na API Ollama: " ++ exc_msg e))]
             (lit "error"))
    with (Some (JStr (lit "Erro na API Ollama: " ++ exc_msg e))).
  - reflexivity.
  - unfold dict_find. cbn [find fst snd option_map].
    rewrite TextFacts.str_eqb_refl. reflexivity.
Qed.

(** While every request fails with an exception below [RequestException], a
    conversation of any length raises nothing, answers each message with
    "Erro: Erro na API Ollama: " and the exception's text, and leaves the
    client, its context included, as it was. *)
Theorem conversation_survives_request_failures
    post py_repr (failure : str -> json -> exn) (messages : list str) (c : client)
    (Hdown : forall url payload, post url payload = RequestFailed (failure url payload)) :
  conversation post py_repr messages c
  = (Ok (map (fun message =>
                JStr (lit "Erro: " ++ lit "Erro na API Ollama: "
                      ++ exc_msg (failure (request_url c)
                                    (request_payload c message false))))
             messages),
     c).
Proof.
  induction messages as [|message rest IH]; [reflexivity|].
  cbn [conversation map].
  rewrite (chat_request_failed post py_repr message c _ (Hdown _ _)).
  rewrite IH. reflexivity.
Qed.

Lemma conversation_survives_request_failures_witness :
  conversation server_down (fun _ => []) [lit "Olá"; lit "Oi"] new_client
  = (Ok [JStr (lit "Erro: Erro na API Ollama: Connection refused");
         JStr (lit "Erro: Erro na API Ollama: Connection refused")],
     new_client).
Proof.
  rewrite (conversation_survives_request_failures server_down (fun _ => [])
             (fun _ _ => Exn (lit "ConnectionError") (lit "Connection refused"))
             [lit "Olá"; lit "Oi"] new_client (fun _ _ => eq_refl)).
  vm_compute. reflexivity.
Defined.

(** When a reply carries a context, the next call of [generate] sends that
    context, to the same address and for the same model: it does what a client
    holding the reply's context does.  After [reset_context] it does what a
    client with the empty context does. *)
Theorem generate_carries_context
    post (p1 p2 : str) (s1 s2 : bool) (c : client) (result : dict json) (ctx : json)
    (Hreply : post (request_url c) (request_payload c p1 s1) = Replied result)
    (Hctx : dict_find result (lit "context") = Some ctx) :
  let c' := snd (generate post p1 s1 c) in
  fst (generate post p1 s1 c) = Ok result
  /\ request_url c' = request_url c
  /\ request_payload c' p2 s2
     = JObj [ (lit "model", JStr (model c)); (lit "prompt", JStr p2);
              (lit "stream", JBool s2); (lit "context", ctx) ]
  /\ request_payload (reset_context c') p2 s2
     = JObj [ (lit "model", JStr (model c)); (lit "prompt", JStr p2);
              (lit "stream", JBool s2); (lit "context", JArr []) ].
Proof.
  unfold generate. rewrite Hreply, Hctx. cbn [fst snd].
  repeat split.
Qed.

Lemma generate_carries_context_witness :
  request_payload (snd (generate answering (lit "Olá") false new_client))
    (lit "E agora?") false
  = JObj [ (lit "model", JStr (lit "llama3.1:8b"));
           (lit "prompt", JStr (lit "E agora?"));
           (lit "stream", JBool false);
           (lit "context", JArr [JInt 1; JInt 2]) ].
Proof.
  pose proof (generate_carries_context answering (lit "Olá") (lit "E agora?")
                false false new_client _ (JArr [JInt 1; JInt 2]) eq_refl) as H.
  apply H. vm_compute. reflexivity.
Defined.

End OllamaCover.
